(** * whl-air: signaling messages, peer-connection manager and session relay

    A shallow embedding of
    - [signaling/signaling_message.cc] (the C++ signaling wire codec),
    - the [WebrtcManagerImpl] methods of [webrtc/peer_connection.h]
      (routing of signaling messages, broadcast, heartbeat supervision),
    - [signaling_server/src/session_manager.js] (the relay's directory and
      router),
    - [SignalingClientImpl::onMessage] and the life cycle, peer and
      transport-event methods of [WebrtcManagerImpl],
    - [vehicle_client/vehicle_client_app.cc] (the vehicle application's
      life cycle and event handlers),
    together with the properties the specification states about them and
    further properties read off the code.

    Conventions.  [std::string] is [string]; [size_t] positions are [nat]
    ([std::string::npos] is [None]); [int] and clock readings are [Z];
    [std::optional] is [option]; a C++ exception escaping an expression is
    the [None] of an outer [option].  A method that reads the clock takes
    the reading as an argument.  The manager and the relay are state
    machines: every method takes the state and returns the next one, and
    what it does to the outside (handlers invoked, messages sent) is
    appended to a log kept in the state.

    The manager is read twice.  The sections on [WebrtcManagerImpl]
    read every method body as it stands between taking [mutex_] and
    giving it back, with the [invoke...Callback] helpers as the handler
    calls they end in; the statements over this reading say what a call
    leaves alone and what it can do at most.  The module [Locked] keeps
    [mutex_] as a member: every helper asks for the mutex its caller
    holds, [std::mutex] is not recursive, and a call that reaches a
    helper does not return.  What the application is told, and which
    calls return, is stated over [Locked].  The relay is read twice in
    the same way: [Relay.routeMessage] without its log lines,
    [Console.routeMessage] with them and with the exceptions they can
    throw. *)

From Stdlib Require Import String Ascii List ZArith Lia Bool DecimalString.
Import ListNotations.
Local Open Scope string_scope.

(* ================================================================== *)
(** ** [std::string] operations used by the codec *)

Module StdString.

  (** The double-quote character, code 34. *)
Definition dquote : ascii :=
    Ascii false true false false false true false false.

  (** The one-character string holding a double quote. *)
Definition Q : string := String dquote EmptyString.

  (** [data.find(pat, pos)]: position of the first occurrence of [pat] in
      [data] at or after [pos]; [None] is [npos]. *)
Definition find (data pat : string) (pos : nat) : option nat :=
    String.index pos pat data.

  (** [data.substr(pos, len)]: throws [std::out_of_range] ([None]) when
      [pos > data.size()], otherwise the characters from [pos], at most
      [len] of them. *)
Definition substr (data : string) (pos len : nat) : option string :=
    if Nat.leb pos (String.length data)
    then Some (String.substring pos len data)
    else None.

  (** [std::to_string(int)]. *)
Definition to_string (n : Z) : string :=
    NilZero.string_of_int (Z.to_int n).

  (** No double quote occurs in the string. *)
Fixpoint no_dquote (s : string) : bool :=
    match s with
    | EmptyString => true
    | String c s' => negb (Ascii.eqb c dquote) && no_dquote s'
    end.

End StdString.

(* ================================================================== *)
(** ** [SignalMessage] and its codec (signaling_message.h / .cc) *)

Module Signaling.
Import StdString.

  (** [SignalMessage::Type].  signaling_message.h lists [UNKNOWN] to
      [CANDIDATE] and nothing else.  [WebrtcManagerImpl] names one more
      enumerator, [SignalMessage::Type::HEARTBEAT], in a case label of
      [handleSignalingMessage] and in [onHeartbeatTimer]; it is kept here
      so that this case can be written down.  Neither table of the codec
      has it and no received text is read as it. *)
Inductive MsgType : Type :=
  | UNKNOWN | JOIN | LEAVE | OFFER | ANSWER | CANDIDATE | HEARTBEAT.

Definition MsgType_eqb (a b : MsgType) : bool :=
    match a, b with
    | UNKNOWN, UNKNOWN | JOIN, JOIN | LEAVE, LEAVE | OFFER, OFFER
    | ANSWER, ANSWER | CANDIDATE, CANDIDATE | HEARTBEAT, HEARTBEAT => true
    | _, _ => false
    end.

Record SignalMessage : Type := mkSignalMessage {
    type : MsgType;
    from : string;
    to : string;
    sdp : option string;
    candidate : option string;
    sdpMid : option string;
    sdpMlineIndex : option Z;
    reason : option string
  }.

  (** The convenience constructor [SignalMessage(type, sender, receiver)]
      with its defaults; every optional field starts empty. *)
Definition SignalMessage_ctor (t : MsgType) (sender receiver : string)
    : SignalMessage :=
    mkSignalMessage t sender receiver None None None None None.

Definition set_type (m : SignalMessage) (t : MsgType) : SignalMessage :=
    mkSignalMessage t (from m) (to m) (sdp m) (candidate m) (sdpMid m)
                    (sdpMlineIndex m) (reason m).
Definition set_from (m : SignalMessage) (s : string) : SignalMessage :=
    mkSignalMessage (type m) s (to m) (sdp m) (candidate m) (sdpMid m)
                    (sdpMlineIndex m) (reason m).
Definition set_to (m : SignalMessage) (s : string) : SignalMessage :=
    mkSignalMessage (type m) (from m) s (sdp m) (candidate m) (sdpMid m)
                    (sdpMlineIndex m) (reason m).

  (** [typeToStringMap]. *)
Definition typeToStringMap : list (MsgType * string) :=
    [ (UNKNOWN, "unknown"); (JOIN, "join"); (LEAVE, "leave");
      (OFFER, "offer"); (ANSWER, "answer"); (CANDIDATE, "candidate") ].

  (** [stringToTypeMap]. *)
Definition stringToTypeMap : list (string * MsgType) :=
    [ ("unknown", UNKNOWN); ("join", JOIN); ("leave", LEAVE);
      ("offer", OFFER); ("answer", ANSWER); ("candidate", CANDIDATE) ].

Fixpoint map_find {K V : Type} (eqb : K -> K -> bool) (k : K)
           (m : list (K * V)) : option V :=
    match m with
    | [] => None
    | (k', v) :: m' => if eqb k k' then Some v else map_find eqb k m'
    end.

  (** [SignalMessage::StringToType]. *)
Definition StringToType (typeStr : string) : MsgType :=
    match map_find String.eqb typeStr stringToTypeMap with
    | Some t => t
    | None => UNKNOWN
    end.

  (** Modelled from the spec: [SignalMessage::TypeToString] is declared in
      signaling_message.h but its body is not among the sources.  It is
      taken to be the lookup in [typeToStringMap], the table that
      signaling_message.cc defines for it, which yields the lowercase tag
      of the wire format; a type outside the table prints as the tag of
      [UNKNOWN]. *)
Definition TypeToString (t : MsgType) : string :=
    match map_find MsgType_eqb t typeToStringMap with
    | Some s => s
    | None => "unknown"
    end.

  (** A JSON member [,"key":"value"] as the skeleton serializer writes
      it: no escaping. *)
Definition quoted (s : string) : string := Q ++ s ++ Q.

  (** [SerializeSignalMessage]. *)
Definition SerializeSignalMessage (message : SignalMessage) : string :=
    let json_str := "{" in
    let json_str :=
      json_str ++ (quoted "type" ++ ":" ++ Q ++ TypeToString (type message)
                   ++ Q ++ ",") in
    let json_str :=
      json_str ++ (quoted "from" ++ ":" ++ Q ++ from message ++ Q ++ ",") in
    let json_str :=
      json_str ++ (quoted "to" ++ ":" ++ Q ++ to message ++ Q) in
    let json_str :=
      match sdp message with
      | Some s => json_str ++ ("," ++ quoted "sdp" ++ ":" ++ Q ++ s ++ Q)
      | None => json_str
      end in
    let json_str :=
      match candidate message with
      | Some c =>
          let json_str := json_str ++ ("," ++ quoted "candidate" ++ ":{") in
          let json_str :=
            json_str ++ (quoted "candidate" ++ ":" ++ Q ++ c ++ Q) in
          let json_str :=
            match sdpMid message with
            | Some mid =>
                json_str ++ ("," ++ quoted "sdpMid" ++ ":" ++ Q ++ mid ++ Q)
            | None => json_str
            end in
          let json_str :=
            match sdpMlineIndex message with
            | Some i =>
                json_str ++ ("," ++ quoted "sdpMlineIndex" ++ ":"
                             ++ to_string i)
            | None => json_str
            end in
          json_str ++ "}"
      | None => json_str
      end in
    let json_str :=
      match reason message with
      | Some r => json_str ++ ("," ++ quoted "reason" ++ ":" ++ Q ++ r ++ Q)
      | None => json_str
      end in
    json_str ++ "}".

  (** The three search patterns of the skeleton parser. *)
Definition pat_type : string := quoted "type" ++ ":" ++ Q.
Definition pat_from : string := quoted "from" ++ ":" ++ Q.
Definition pat_to : string := quoted "to" ++ ":" ++ Q.

  (** Sequencing inside the [try] block: a throwing step ([None]) skips
      the rest and lands in the [catch] clauses. *)
Notation "'try_let' x ':=' e 'in' k" :=
    (match e with Some x => k | None => None end)
      (at level 10, x name, e at level 100, k at level 200,
       only parsing).

  (** [DeserializeSignalMessage].  [None] is the [std::nullopt] returned
      by the [catch] clauses. *)
Definition DeserializeSignalMessage (data : string)
    : option SignalMessage :=
    let msg := SignalMessage_ctor UNKNOWN EmptyString EmptyString in
    try_let msg :=
      match find data pat_type 0 with
      | Some type_pos =>
          let start := type_pos + 8 in
          match find data Q start with
          | Some end_ =>
              try_let s := substr data start (end_ - start) in
              Some (set_type msg (StringToType s))
          | None => Some msg
          end
      | None => Some msg
      end in
    try_let msg :=
      match find data pat_from 0 with
      | Some from_pos =>
          let start := from_pos + 8 in
          match find data Q start with
          | Some end_ =>
              try_let s := substr data start (end_ - start) in
              Some (set_from msg s)
          | None => Some msg
          end
      | None => Some msg
      end in
    try_let msg :=
      match find data pat_to 0 with
      | Some to_pos =>
          let start := to_pos + 6 in
          match find data Q start with
          | Some end_ =>
              try_let s := substr data start (end_ - start) in
              Some (set_to msg s)
          | None => Some msg
          end
      | None => Some msg
      end in
    Some msg.

End Signaling.

Import StdString Signaling.

(* ================================================================== *)
(** ** [std::map<std::string, V>] *)

Module StdMap.

  (** A [std::map] keyed by [std::string]: bindings in ascending key
      order, one per key. *)
Definition t (V : Type) : Type := list (string * V).

Section Ops.
Context {V : Type}.

    (** [m.find(k)], read as the mapped value when the iterator is not
        [end()]. *)
Fixpoint find (k : string) (m : t V) : option V :=
      match m with
      | [] => None
      | (k', v) :: m' => if String.eqb k k' then Some v else find k m'
      end.

    (** [m.count(k)] as a truth value. *)
Definition count (k : string) (m : t V) : bool :=
      match find k m with Some _ => true | None => false end.

    (** [m[k] = v]. *)
Fixpoint insert (k : string) (v : V) (m : t V) : t V :=
      match m with
      | [] => [(k, v)]
      | (k', v') :: m' =>
          if String.eqb k k' then (k, v) :: m'
          else if String.ltb k k' then (k, v) :: (k', v') :: m'
          else (k', v') :: insert k v m'
      end.

    (** [m.erase(k)]. *)
Fixpoint erase (k : string) (m : t V) : t V :=
      match m with
      | [] => []
      | (k', v') :: m' =>
          if String.eqb k k' then erase k m' else (k', v') :: erase k m'
      end.

Definition keys (m : t V) : list string := List.map fst m.

End Ops.

End StdMap.

(* ================================================================== *)
(** ** The transport interface ([IPeerConnection]) *)

Inductive PeerConnectionState : Type :=
| New | Connecting | Connected | Disconnected | Failed | Closed.

Definition PeerConnectionState_eqb (a b : PeerConnectionState) : bool :=
  match a, b with
  | New, New | Connecting, Connecting | Connected, Connected
  | Disconnected, Disconnected | Failed, Failed | Closed, Closed => true
  | _, _ => false
  end.

(** [using DataChannelMessage = std::vector<char>]. *)
Definition DataChannelMessage : Type := list ascii.

(** The methods of [IPeerConnection] the manager calls.  A method that
    changes the connection returns the connection after the call. *)
Class IPeerConnection (PC : Type) : Type := {
  CreateOffer : PC -> PC * bool;
  CreateAnswer : PC -> PC * bool;
  SetRemoteDescription : PC -> string -> string -> PC * bool;
  AddRemoteCandidate : PC -> string -> string -> Z -> PC * bool;
  SendData : PC -> string -> DataChannelMessage -> PC * bool;
  Close : PC -> PC;
  GetConnectionState : PC -> PeerConnectionState
}.

(** The factory method [WebrtcManagerImpl::createPeerConnection], virtual
    in the manager: [None] is a null [unique_ptr]. *)
Class PeerConnectionFactory (PC : Type) : Type :=
  createPeerConnection : string -> option PC.

(** What [SendData] promises (i_peer_connection.h: true if the message
    was queued, false if the channel is not ready or does not exist),
    stated over two observations of a connection: which labels are open,
    and what has been queued per label. *)
Class DataChannelContract (PC : Type) `{IPeerConnection PC} : Type := {
  IsDataChannelOpen : PC -> string -> bool;
  queued : PC -> string -> list DataChannelMessage;
  SendData_result :
    forall pc label data,
      snd (SendData pc label data) = IsDataChannelOpen pc label;
  SendData_queued_open :
    forall pc label data,
      IsDataChannelOpen pc label = true ->
      queued (fst (SendData pc label data)) label
      = (queued pc label ++ [data])%list;
  SendData_queued_not_open :
    forall pc label data,
      IsDataChannelOpen pc label = false ->
      queued (fst (SendData pc label data)) label = queued pc label;
  SendData_queued_other :
    forall pc label data label',
      label' <> label ->
      queued (fst (SendData pc label data)) label' = queued pc label'
}.

(* ================================================================== *)
(** ** A transport that follows the contract *)

Module SimTransport.

Inductive ChannelState : Type := Opening | Open | ChannelClosed.

  (** Modelled from the spec: the concrete transport of the repository
      ([LibwebrtcPeerConnectionImpl]) is a stub around an absent library;
      this one follows section 4.1: [send] enqueues on a channel in [Open]
      and fails otherwise, [close] drives the state to [Closed], remote
      descriptions and candidates are recorded. *)
Record t : Type := mk {
    state : PeerConnectionState;
    channels : list (string * ChannelState);
    remote_description : option (string * string);
    remote_candidates : list (string * string * Z);
    local_requests : list string;
    sent : list (string * DataChannelMessage)
  }.

Definition fresh : t := mk New [] None [] [] [].

Definition is_open (pc : t) (label : string) : bool :=
    match Signaling.map_find String.eqb label (channels pc) with
    | Some Open => true
    | _ => false
    end.

Definition sent_on (pc : t) (label : string) : list DataChannelMessage :=
    List.map snd (List.filter (fun e => String.eqb (fst e) label) (sent pc)).

Definition send (pc : t) (label : string) (data : DataChannelMessage)
    : t * bool :=
    if is_open pc label
    then (mk (state pc) (channels pc) (remote_description pc)
             (remote_candidates pc) (local_requests pc)
             (sent pc ++ [(label, data)])%list, true)
    else (pc, false).

Definition close (pc : t) : t :=
    mk Closed (channels pc) (remote_description pc) (remote_candidates pc)
       (local_requests pc) (sent pc).

Definition set_remote (pc : t) (sdp_type sdp : string) : t * bool :=
    (mk (state pc) (channels pc) (Some (sdp_type, sdp))
        (remote_candidates pc) (local_requests pc) (sent pc), true).

Definition add_candidate (pc : t) (c mid : string) (idx : Z) : t * bool :=
    (mk (state pc) (channels pc) (remote_description pc)
        (remote_candidates pc ++ [(c, mid, idx)])%list (local_requests pc)
        (sent pc), true).

Definition request (what : string) (pc : t) : t * bool :=
    (mk (state pc) (channels pc) (remote_description pc)
        (remote_candidates pc) (local_requests pc ++ [what])%list (sent pc),
     true).

#[global] Instance transport : IPeerConnection t := {
    CreateOffer := request "offer";
    CreateAnswer := request "answer";
    SetRemoteDescription := set_remote;
    AddRemoteCandidate := add_candidate;
    SendData := send;
    Close := close;
    GetConnectionState := state
  }.

#[global] Instance factory : PeerConnectionFactory t :=
    fun _ => Some fresh.

End SimTransport.

(* ================================================================== *)
(** ** [WebrtcManagerImpl] (webrtc_manager_impl.h, peer_connection.h) *)

Inductive AppState : Type :=
| Uninitialized | Initializing | Initialized | Running | Stopping | Stopped.

Definition AppState_eqb (a b : AppState) : bool :=
  match a, b with
  | Uninitialized, Uninitialized | Initializing, Initializing
  | Initialized, Initialized | Running, Running | Stopping, Stopping
  | Stopped, Stopped => true
  | _, _ => false
  end.

(** [struct WebrtcConfig]. *)
Record WebrtcConfig : Type := mkWebrtcConfig {
  signaling_uri : string;
  client_id : string;
  ice_servers : list string;
  heartbeat_interval_ms : Z;
  control_channel_label : string;
  telemetry_channel_label : string
}.

(** What the manager does to the outside: an application handler it
    invokes, a message it hands to the signaling client, or the line it
    prints on entering [attemptReconnection]. *)
Inductive Effect : Type :=
| AppSignalingConnected
| AppSignalingDisconnected (reason : string)
| AppSignalingError (error_msg : string)
| AppPeerConnected (peer_id : string)
| AppPeerDisconnected (peer_id reason : string)
| AppPeerError (peer_id error_msg : string)
| AppDataChannelMessageReceived (peer_id label : string)
                                (message : DataChannelMessage)
| SignalSent (message : SignalMessage)
| ReconnectionAttempted (peer_id : string).

(** [std::chrono::steady_clock] readings are ticks of one nanosecond;
    [duration_cast<milliseconds>] truncates toward zero. *)
Definition steady_clock_ticks_per_ms : Z := 1000000.

Definition elapsed_ms (now last_rx_time : Z) : Z :=
  Z.quot (now - last_rx_time) steady_clock_ticks_per_ms.

(** The result of [int] arithmetic as two's-complement hardware gives
    it: the value wraps around at 32 bits. *)
Definition int_wrap (z : Z) : Z :=
  ((z + 2147483648) mod 4294967296 - 2147483648)%Z.

Section Manager.
Context {PC : Type} `{IPeerConnection PC} `{PeerConnectionFactory PC}.

  (** The members of [WebrtcManagerImpl].  A handler member is [true]
      when a callable is stored in it; [log_] collects the effects, the
      oldest first. *)
Record WebrtcManagerImpl : Type := mkManager {
    config_ : WebrtcConfig;
    state_ : AppState;
    signalingClient_ : bool;
    peerConnections_ : StdMap.t (option PC);
    onSignalingConnectedHandler_ : bool;
    onSignalingDisconnectedHandler_ : bool;
    onSignalingErrorHandler_ : bool;
    onPeerConnectedHandler_ : bool;
    onPeerDisconnectedHandler_ : bool;
    onPeerErrorHandler_ : bool;
    onDataChannelMessageReceivedHandler_ : bool;
    lastHeartbeatRxTime_ : StdMap.t Z;
    reconnectionAttemptCount_ : StdMap.t Z;
    log_ : list Effect
  }.

Definition with_peerConnections (m : WebrtcManagerImpl)
             (v : StdMap.t (option PC)) : WebrtcManagerImpl :=
    mkManager (config_ m) (state_ m) (signalingClient_ m) v
              (onSignalingConnectedHandler_ m)
              (onSignalingDisconnectedHandler_ m)
              (onSignalingErrorHandler_ m) (onPeerConnectedHandler_ m)
              (onPeerDisconnectedHandler_ m) (onPeerErrorHandler_ m)
              (onDataChannelMessageReceivedHandler_ m)
              (lastHeartbeatRxTime_ m) (reconnectionAttemptCount_ m)
              (log_ m).

Definition with_lastHeartbeatRxTime (m : WebrtcManagerImpl)
             (v : StdMap.t Z) : WebrtcManagerImpl :=
    mkManager (config_ m) (state_ m) (signalingClient_ m)
              (peerConnections_ m)
              (onSignalingConnectedHandler_ m)
              (onSignalingDisconnectedHandler_ m)
              (onSignalingErrorHandler_ m) (onPeerConnectedHandler_ m)
              (onPeerDisconnectedHandler_ m) (onPeerErrorHandler_ m)
              (onDataChannelMessageReceivedHandler_ m)
              v (reconnectionAttemptCount_ m) (log_ m).

Definition with_reconnectionAttemptCount (m : WebrtcManagerImpl)
             (v : StdMap.t Z) : WebrtcManagerImpl :=
    mkManager (config_ m) (state_ m) (signalingClient_ m)
              (peerConnections_ m)
              (onSignalingConnectedHandler_ m)
              (onSignalingDisconnectedHandler_ m)
              (onSignalingErrorHandler_ m) (onPeerConnectedHandler_ m)
              (onPeerDisconnectedHandler_ m) (onPeerErrorHandler_ m)
              (onDataChannelMessageReceivedHandler_ m)
              (lastHeartbeatRxTime_ m) v (log_ m).

  (** Append one effect to the log. *)
Definition emit (m : WebrtcManagerImpl) (e : Effect) : WebrtcManagerImpl :=
    mkManager (config_ m) (state_ m) (signalingClient_ m)
              (peerConnections_ m)
              (onSignalingConnectedHandler_ m)
              (onSignalingDisconnectedHandler_ m)
              (onSignalingErrorHandler_ m) (onPeerConnectedHandler_ m)
              (onPeerDisconnectedHandler_ m) (onPeerErrorHandler_ m)
              (onDataChannelMessageReceivedHandler_ m)
              (lastHeartbeatRxTime_ m) (reconnectionAttemptCount_ m)
              (log_ m ++ [e])%list.

  (** The [invoke...Callback] helpers without their lock: read the
      handler, call it when it holds a callable.  In the source every
      helper first takes [mutex_], which each of its callers holds; with
      the lock in place ([Locked]) the handler is never reached. *)
Definition invokeSignalingErrorCallback (m : WebrtcManagerImpl)
             (error_msg : string) : WebrtcManagerImpl :=
    if onSignalingErrorHandler_ m then emit m (AppSignalingError error_msg)
    else m.

Definition invokePeerConnectedCallback (m : WebrtcManagerImpl)
             (peer_id : string) : WebrtcManagerImpl :=
    if onPeerConnectedHandler_ m then emit m (AppPeerConnected peer_id)
    else m.

Definition invokePeerDisconnectedCallback (m : WebrtcManagerImpl)
             (peer_id reason : string) : WebrtcManagerImpl :=
    if onPeerDisconnectedHandler_ m
    then emit m (AppPeerDisconnected peer_id reason)
    else m.

Definition invokePeerErrorCallback (m : WebrtcManagerImpl)
             (peer_id error_msg : string) : WebrtcManagerImpl :=
    if onPeerErrorHandler_ m then emit m (AppPeerError peer_id error_msg)
    else m.

  (** Write a connection object back into its slot of the index: the
      source works through a pointer into [peerConnections_]. *)
Definition store_pc (m : WebrtcManagerImpl) (peer_id : string) (pc : PC)
    : WebrtcManagerImpl :=
    with_peerConnections m
      (StdMap.insert peer_id (Some pc) (peerConnections_ m)).

  (** [getOrCreatePeerConnection]: the manager afterwards, and the
      object behind the returned pointer ([None] for [nullptr]). *)
Definition getOrCreatePeerConnection (m : WebrtcManagerImpl)
             (peer_id : string) : WebrtcManagerImpl * option PC :=
    match StdMap.find peer_id (peerConnections_ m) with
    | Some slot => (m, slot)
    | None =>
        match createPeerConnection peer_id with
        | None => (m, None)
        | Some pc => (store_pc m peer_id pc, Some pc)
        end
    end.

  (** [destroyPeerConnection] without the lock of the helper it ends
      in.  [Close()] is called on the object, which the [erase] on the
      index then destroys: the members do not keep the closed object
      ([Locked.destroyPeerConnection] records it). *)
Definition destroyPeerConnection (m : WebrtcManagerImpl)
             (peer_id reason : string) : WebrtcManagerImpl :=
    match StdMap.find peer_id (peerConnections_ m) with
    | Some slot =>
        let closed := option_map Close slot in
        let m :=
          with_lastHeartbeatRxTime m
            (StdMap.erase peer_id (lastHeartbeatRxTime_ m)) in
        let m :=
          with_reconnectionAttemptCount m
            (StdMap.erase peer_id (reconnectionAttemptCount_ m)) in
        let m :=
          with_peerConnections m
            (StdMap.erase peer_id (peerConnections_ m)) in
        invokePeerDisconnectedCallback m peer_id reason
    | None => m
    end.

  (** [handleReceivedHeartbeat]; [now] is the clock reading taken
      inside. *)
Definition handleReceivedHeartbeat (now : Z) (m : WebrtcManagerImpl)
             (peer_id : string) : WebrtcManagerImpl :=
    if (0 <? heartbeat_interval_ms (config_ m))%Z
    then with_lastHeartbeatRxTime m
           (StdMap.insert peer_id now (lastHeartbeatRxTime_ m))
    else m.

  (** The test of the first loop of [checkForHeartbeatLoss] for one
      entry of [lastHeartbeatRxTime_]; the timeout is the [int] product
      [heartbeat_interval_ms * 3]. *)
Definition heartbeat_lost (now : Z) (m : WebrtcManagerImpl)
             (entry : string * Z) : bool :=
    let (peer_id, last_rx_time) := entry in
    let timeout := int_wrap (heartbeat_interval_ms (config_ m) * 3) in
    match StdMap.find peer_id (peerConnections_ m) with
    | Some (Some pc) =>
        PeerConnectionState_eqb (GetConnectionState pc) Connected
        && (timeout <? elapsed_ms now last_rx_time)%Z
    | _ => false
    end.

  (** The second loop of [checkForHeartbeatLoss]. *)
Definition disconnect_all (peers_to_disconnect : list string)
             (m : WebrtcManagerImpl) : WebrtcManagerImpl :=
    List.fold_left
      (fun m peer_id => destroyPeerConnection m peer_id "Heartbeat lost")
      peers_to_disconnect m.

  (** [checkForHeartbeatLoss]. *)
Definition checkForHeartbeatLoss (now : Z) (m : WebrtcManagerImpl)
    : WebrtcManagerImpl :=
    if (heartbeat_interval_ms (config_ m) <=? 0)%Z then m
    else
      let peers_to_disconnect :=
        List.map fst
          (List.filter (heartbeat_lost now m) (lastHeartbeatRxTime_ m)) in
      disconnect_all peers_to_disconnect m.

  (** [attemptReconnection]: the body is a printed line and a TODO. *)
Definition attemptReconnection (m : WebrtcManagerImpl) (peer_id : string)
    : WebrtcManagerImpl :=
    emit m (ReconnectionAttempted peer_id).

  (** The ping payload of [onHeartbeatTimer]. *)
Definition ping_data : DataChannelMessage :=
    ["p"; "i"; "n"; "g"]%char.

  (** [onHeartbeatTimer]: the loss check, then a ping on the heartbeat
      channel of every connected peer. *)
Definition onHeartbeatTimer (now : Z) (m : WebrtcManagerImpl)
    : WebrtcManagerImpl :=
    let m := checkForHeartbeatLoss now m in
    with_peerConnections m
      (List.map
         (fun entry : string * option PC =>
            match snd entry with
            | Some pc =>
                if PeerConnectionState_eqb (GetConnectionState pc) Connected
                then (fst entry, Some (fst (SendData pc "heartbeat" ping_data)))
                else entry
            | None => entry
            end)
         (peerConnections_ m)).

  (** The loop of [sendDataChannelMessageToAllPeers]: the index after
      the sends, and [any_sent]. *)
Fixpoint broadcast_loop (channel_label : string)
           (data : DataChannelMessage) (pcs : StdMap.t (option PC))
           (any_sent : bool) : StdMap.t (option PC) * bool :=
    match pcs with
    | [] => ([], any_sent)
    | (peer_id, None) :: rest =>
        let (rest', r) := broadcast_loop channel_label data rest any_sent in
        ((peer_id, None) :: rest', r)
    | (peer_id, Some pc) :: rest =>
        let (pc', sent) := SendData pc channel_label data in
        let any_sent := if sent then true else any_sent in
        let (rest', r) := broadcast_loop channel_label data rest any_sent in
        ((peer_id, Some pc') :: rest', r)
    end.

  (** What one iteration of that loop does to a slot of the index, and
      whether the transport of the slot took the message. *)
Definition send_in_slot (label : string) (data : DataChannelMessage)
             (e : string * option PC) : string * option PC :=
    (fst e, option_map (fun pc => fst (SendData pc label data)) (snd e)).

Definition slot_accepts (label : string) (data : DataChannelMessage)
             (e : string * option PC) : bool :=
    match snd e with
    | Some pc => snd (SendData pc label data)
    | None => false
    end.

  (** [sendDataChannelMessageToAllPeers]. *)
Definition sendDataChannelMessageToAllPeers (m : WebrtcManagerImpl)
             (channel_label : string) (data : DataChannelMessage)
    : WebrtcManagerImpl * bool :=
    if negb (AppState_eqb (state_ m) Running) then (m, false)
    else
      let (pcs, any_sent) :=
        broadcast_loop channel_label data (peerConnections_ m) false in
      (with_peerConnections m pcs, any_sent).

  (** [sendDataChannelMessage]. *)
Definition sendDataChannelMessage (m : WebrtcManagerImpl)
             (peer_id channel_label : string) (data : DataChannelMessage)
    : WebrtcManagerImpl * bool :=
    if negb (AppState_eqb (state_ m) Running) then (m, false)
    else
      match StdMap.find peer_id (peerConnections_ m) with
      | Some (Some pc) =>
          let (pc', success) := SendData pc channel_label data in
          (store_pc m peer_id pc', success)
      | _ => (m, false)
      end.

  (** [handleSignalingMessage]; [now] is the clock reading of the
      heartbeat case. *)
Definition handleSignalingMessage (now : Z) (m : WebrtcManagerImpl)
             (message : SignalMessage) : WebrtcManagerImpl :=
    let peer_id := from message in
    match type message with
    | JOIN => m
    | LEAVE =>
        if StdMap.count peer_id (peerConnections_ m)
        then match StdMap.find peer_id (peerConnections_ m) with
             | Some (Some pc) => store_pc m peer_id (Close pc)
             | _ => m
             end
        else m
    | OFFER =>
        let (m, pc) := getOrCreatePeerConnection m peer_id in
        match pc, sdp message with
        | Some pc, Some s =>
            let pc := fst (SetRemoteDescription pc "offer" s) in
            let pc := fst (CreateAnswer pc) in
            store_pc m peer_id pc
        | _, _ =>
            invokePeerErrorCallback m peer_id
              "Received OFFER with missing SDP or PC"
        end
    | ANSWER =>
        let (m, pc) := getOrCreatePeerConnection m peer_id in
        match pc, sdp message with
        | Some pc, Some s =>
            let pc := fst (SetRemoteDescription pc "answer" s) in
            store_pc m peer_id pc
        | _, _ =>
            invokePeerErrorCallback m peer_id
              "Received ANSWER with missing SDP or PC"
        end
    | CANDIDATE =>
        let (m, pc) := getOrCreatePeerConnection m peer_id in
        match pc, candidate message, sdpMid message,
              sdpMlineIndex message with
        | Some pc, Some c, Some mid, Some idx =>
            let pc := fst (AddRemoteCandidate pc c mid idx) in
            store_pc m peer_id pc
        | _, _, _, _ =>
            invokePeerErrorCallback m peer_id
              "Received CANDIDATE with missing fields or PC"
        end
    | HEARTBEAT => handleReceivedHeartbeat now m peer_id
    | UNKNOWN =>
        invokeSignalingErrorCallback m
          ("Received unknown signal message type from " ++ peer_id)
    end.

End Manager.

Arguments WebrtcManagerImpl PC : clear implicits.

(* ================================================================== *)
(** ** The session relay (signaling_server/src/session_manager.js) *)

Module Relay.

  (** JavaScript values as [JSON.parse] produces them (arrays and
      fractional numbers left out), plus [undefined]. *)
#[warnings="-register-all"] Inductive JsValue : Type :=
  | JUndefined
  | JNull
  | JBool (b : bool)
  | JNumber (n : Z)
  | JString (s : string)
  | JObject (props : list (string * JsValue)).

  (** Truthiness, as [!v], [v ? a : b] and [v || d] test it. *)
Definition truthy (v : JsValue) : bool :=
    match v with
    | JUndefined | JNull => false
    | JBool b => b
    | JNumber n => negb (n =? 0)%Z
    | JString EmptyString => false
    | JString _ => true
    | JObject _ => true
    end.

  (** [v === s] and [v !== s] against a string [s]. *)
Definition strict_eq_string (v : JsValue) (s : string) : bool :=
    match v with
    | JString s' => String.eqb s' s
    | _ => false
    end.

  (** An object, by its own properties. *)
Definition JsObject : Type := list (string * JsValue).

  (** [o.name] on an object. *)
Definition prop (o : JsObject) (name : string) : JsValue :=
    match map_find String.eqb name o with
    | Some v => v
    | None => JUndefined
    end.

  (** [v.name] on a value that is neither [null] nor [undefined]:
      [undefined] unless [v] is an object having the property. *)
Definition prop_of_value (v : JsValue) (name : string) : JsValue :=
    match v with
    | JObject o => prop o name
    | _ => JUndefined
    end.

  (** [`${v}`] where the conversion returns a string.  A number of
      magnitude 1e21 or more prints with an exponent in JavaScript, as
      digits here; an object with a property [toString] of its own makes
      the conversion throw ([Console.template_throws]), and prints like
      any object here. *)
Definition template (v : JsValue) : string :=
    match v with
    | JUndefined => "undefined"
    | JNull => "null"
    | JBool true => "true"
    | JBool false => "false"
    | JNumber n => to_string n
    | JString s => s
    | JObject _ => "[object Object]"
    end.

  (** A JavaScript [Map]: bindings in insertion order, one per key. *)
Section JsMap.
Context {K V : Type} (eqb : K -> K -> bool).

Definition map_get (k : K) (m : list (K * V)) : option V :=
      map_find eqb k m.

Definition map_has (k : K) (m : list (K * V)) : bool :=
      match map_get k m with Some _ => true | None => false end.

Fixpoint map_set (k : K) (v : V) (m : list (K * V)) : list (K * V) :=
      match m with
      | [] => [(k, v)]
      | (k', v') :: m' =>
          if eqb k k' then (k, v) :: m' else (k', v') :: map_set k v m'
      end.

Fixpoint map_delete (k : K) (m : list (K * V)) : list (K * V) :=
      match m with
      | [] => []
      | (k', v') :: m' =>
          if eqb k k' then map_delete k m' else (k', v') :: map_delete k m'
      end.
End JsMap.

  (** A [WebSocket] object, by identity. *)
Definition WebSocket : Type := nat.

Inductive ReadyState : Type := CONNECTING | OPEN | CLOSING | CLOSED.

  (** [ClientInfo { id, targetId }]. *)
Record ClientInfo : Type := mkClientInfo {
    id : string;
    targetId : JsValue
  }.

  (** The module state: the two maps, the [readyState] of every socket
      (owned by the network, read-only here), and what [ws.send] has put
      on each socket, the oldest first. *)
Record State : Type := mkState {
    connectedClients : list (WebSocket * ClientInfo);
    sessions : list (string * WebSocket);
    readyState : WebSocket -> ReadyState;
    wire : list (WebSocket * JsObject)
  }.

Definition initial (rs : WebSocket -> ReadyState) : State :=
    mkState [] [] rs [].

  (** [sessions.get(key)] for an arbitrary value as key: only a string
      can equal a key of [sessions]. *)
Definition sessions_get (key : JsValue) (st : State) : option WebSocket :=
    match key with
    | JString s => map_get String.eqb s (sessions st)
    | _ => None
    end.

  (** [sendMessage]; an open socket takes the message. *)
Definition sendMessage (st : State) (ws : WebSocket) (message : JsObject)
    : State :=
    match readyState st ws with
    | OPEN =>
        mkState (connectedClients st) (sessions st) (readyState st)
                (wire st ++ [(ws, message)])%list
    | _ => st
    end.

  (** Assignment to [info.targetId] of the client stored under [ws]. *)
Definition set_targetId (st : State) (ws : WebSocket) (info : ClientInfo)
             (v : JsValue) : State :=
    mkState (map_set Nat.eqb ws (mkClientInfo (id info) v)
                     (connectedClients st))
            (sessions st) (readyState st) (wire st).

  (** [addClient]. *)
Definition addClient (st : State) (ws : WebSocket) (clientId : string)
    : State :=
    if map_has Nat.eqb ws (connectedClients st) then st
    else
      mkState (map_set Nat.eqb ws (mkClientInfo clientId JNull)
                       (connectedClients st))
              (map_set String.eqb clientId ws (sessions st))
              (readyState st) (wire st).

  (** The first key of [sessions] whose value is [ws]: where the
      [for ... of sessions.entries()] loop of [removeClient] stops. *)
Fixpoint first_key_of (ws : WebSocket) (m : list (string * WebSocket))
    : option string :=
    match m with
    | [] => None
    | (clientId, clientWs) :: m' =>
        if Nat.eqb clientWs ws then Some clientId else first_key_of ws m'
    end.

Definition leave_notice (from_id to_id : string) : JsObject :=
    [ ("type", JString "leave"); ("from", JString from_id);
      ("to", JString to_id); ("reason", JString "Peer disconnected") ].

  (** The [connectedClients.forEach] of [removeClient]. *)
Definition notify_partners (st : State) (clientInfo : ClientInfo) : State :=
    List.fold_left
      (fun st (entry : WebSocket * ClientInfo) =>
         let (otherWs, otherClientInfo) := entry in
         if strict_eq_string (targetId otherClientInfo) (id clientInfo)
         then sendMessage st otherWs
                (leave_notice (id clientInfo) (id otherClientInfo))
         else st)
      (connectedClients st) st.

  (** [removeClient]. *)
Definition removeClient (st : State) (ws : WebSocket) : State :=
    match map_get Nat.eqb ws (connectedClients st) with
    | None => st
    | Some clientInfo =>
        let st :=
          mkState (map_delete Nat.eqb ws (connectedClients st))
                  (sessions st) (readyState st) (wire st) in
        match first_key_of ws (sessions st) with
        | Some clientId =>
            let st :=
              mkState (connectedClients st)
                      (map_delete String.eqb clientId (sessions st))
                      (readyState st) (wire st) in
            notify_partners st clientInfo
        | None => st
        end
    end.

Definition error_reply (to_id message : string) : JsObject :=
    [ ("type", JString "error"); ("from", JString "server");
      ("to", JString to_id); ("message", JString message) ].

  (** [targetWs && connectedClients.has(targetWs)]. *)
Definition live_target (st : State) (key : JsValue) : option WebSocket :=
    match sessions_get key st with
    | Some targetWs =>
        if map_has Nat.eqb targetWs (connectedClients st)
        then Some targetWs else None
    | None => None
    end.

  (** [routeMessage] on a parsed message that is an object, without its
      [console.log] and [console.warn] lines.  An exception thrown by
      such a line leaves the function at that line, before the sends and
      assignments that follow it: with its log lines
      ([Console.routeMessage]) the function does this or stops short of
      it. *)
Definition routeMessage (st : State) (senderWs : WebSocket)
             (message : JsObject) : State :=
    match map_get Nat.eqb senderWs (connectedClients st) with
    | None => st
    | Some senderInfo =>
        if negb (strict_eq_string (prop message "from") (id senderInfo))
        then st
        else
          let kind := prop message "type" in
          if strict_eq_string kind "join" then
            let targetVehicleId :=
              if truthy (prop message "data")
              then prop_of_value (prop message "data") "targetVehicleId"
              else JNull in
            if negb (truthy targetVehicleId) then st
            else
              let st := set_targetId st senderWs senderInfo targetVehicleId in
              match live_target st targetVehicleId with
              | Some targetWs =>
                  sendMessage st targetWs
                    [ ("type", JString "join_request");
                      ("from", JString (id senderInfo));
                      ("to", targetVehicleId);
                      ("data",
                       JObject [("clientId", JString (id senderInfo))]) ]
              | None =>
                  let st :=
                    sendMessage st senderWs
                      (error_reply (id senderInfo)
                         ("Target vehicle " ++ template targetVehicleId
                          ++ " not found or offline.")) in
                  set_targetId st senderWs senderInfo JNull
              end
          else if strict_eq_string kind "leave" then
            let target := targetId senderInfo in
            let st :=
              if truthy target then
                match live_target st target with
                | Some targetWs =>
                    sendMessage st targetWs
                      [ ("type", JString "leave");
                        ("from", JString (id senderInfo));
                        ("to", target);
                        ("reason",
                         if truthy (prop message "reason")
                         then prop message "reason"
                         else JString "Peer left session") ]
                | None => st
                end
              else st in
            set_targetId st senderWs senderInfo JNull
          else if strict_eq_string kind "offer"
                  || strict_eq_string kind "answer"
                  || strict_eq_string kind "candidate" then
            let recipientId := prop message "to" in
            if negb (truthy recipientId) then st
            else
              match live_target st recipientId with
              | Some recipientWs => sendMessage st recipientWs message
              | None =>
                  sendMessage st senderWs
                    (error_reply (id senderInfo)
                       ("Recipient " ++ template recipientId
                        ++ " not found or offline."))
              end
          else
            sendMessage st senderWs
              (error_reply (id senderInfo)
                 ("Unknown message type '" ++ template kind ++ "'."))
    end.

End Relay.

(* ================================================================== *)
(** ** The session relay with its log lines *)

(** [Relay.routeMessage] reads the function without its [console.log]
    and [console.warn] lines.  A template literal in such a line
    converts a member of the message to a string, and that conversion
    can throw; the exception leaves [routeMessage] at that line.  Here
    the lines are in place. *)
Module Console.
Import Relay.

  (** Whether [`${v}`] throws.  The conversion calls [toString], then
      [valueOf]; what [JSON.parse] stores under either name is not
      callable, and the inherited [valueOf] returns the object itself,
      so an object with a property [toString] of its own ends in a
      TypeError, and every other value converts. *)
Definition template_throws (v : JsValue) : bool :=
    match v with
    | JObject o =>
        match map_find String.eqb "toString" o with
        | Some _ => true
        | None => false
        end
    | _ => false
    end.

  (** How a call ends: it returns, or an exception leaves it; either way
      with the module state as it then is. *)
Inductive Completion : Type :=
  | Normal (st : State)
  | Throws (st : State).

  (** [routeMessage] on a parsed message that is an object. *)
Definition routeMessage (st : State) (senderWs : WebSocket)
             (message : JsObject) : Completion :=
    match map_get Nat.eqb senderWs (connectedClients st) with
    | None => Normal st
    | Some senderInfo =>
        if negb (strict_eq_string (prop message "from") (id senderInfo))
        then
          if template_throws (prop message "from") then Throws st
          else Normal st
        else
          let kind := prop message "type" in
          let to_or_server :=
            if truthy (prop message "to") then prop message "to"
            else JString "server" in
          if template_throws kind || template_throws to_or_server
          then Throws st
          else if strict_eq_string kind "join" then
            let targetVehicleId :=
              if truthy (prop message "data")
              then prop_of_value (prop message "data") "targetVehicleId"
              else JNull in
            if negb (truthy targetVehicleId) then Normal st
            else
              let st := set_targetId st senderWs senderInfo targetVehicleId in
              if template_throws targetVehicleId then Throws st
              else
                match live_target st targetVehicleId with
                | Some targetWs =>
                    Normal
                      (sendMessage st targetWs
                         [ ("type", JString "join_request");
                           ("from", JString (id senderInfo));
                           ("to", targetVehicleId);
                           ("data",
                            JObject [("clientId", JString (id senderInfo))]) ])
                | None =>
                    let st :=
                      sendMessage st senderWs
                        (error_reply (id senderInfo)
                           ("Target vehicle " ++ template targetVehicleId
                            ++ " not found or offline.")) in
                    Normal (set_targetId st senderWs senderInfo JNull)
                end
          else if strict_eq_string kind "leave" then
            let target := targetId senderInfo in
            if truthy target then
              match live_target st target with
              | Some targetWs =>
                  let st :=
                    sendMessage st targetWs
                      [ ("type", JString "leave");
                        ("from", JString (id senderInfo));
                        ("to", target);
                        ("reason",
                         if truthy (prop message "reason")
                         then prop message "reason"
                         else JString "Peer left session") ] in
                  Normal (set_targetId st senderWs senderInfo JNull)
              | None =>
                  if template_throws target then Throws st
                  else Normal (set_targetId st senderWs senderInfo JNull)
              end
            else Normal (set_targetId st senderWs senderInfo JNull)
          else if strict_eq_string kind "offer"
                  || strict_eq_string kind "answer"
                  || strict_eq_string kind "candidate" then
            let recipientId := prop message "to" in
            if negb (truthy recipientId) then Normal st
            else
              match live_target st recipientId with
              | Some recipientWs =>
                  Normal (sendMessage st recipientWs message)
              | None =>
                  Normal
                    (sendMessage st senderWs
                       (error_reply (id senderInfo)
                          ("Recipient " ++ template recipientId
                           ++ " not found or offline.")))
              end
          else
            Normal
              (sendMessage st senderWs
                 (error_reply (id senderInfo)
                    ("Unknown message type '" ++ template kind ++ "'.")))
    end.

End Console.

(* ================================================================== *)
(** ** Sample states, and the properties as the specification words them *)

(** The text [SerializeSignalMessage] writes, with the type tag [T], the
    sender [F], the receiver [TO] and everything after the closing quote
    of the receiver ([tail]) left open. *)
Definition wire_text (T F TO tail : string) : string :=
  "{" ++ pat_type ++ T ++ Q ++ "," ++ pat_from ++ F ++ Q ++ ","
      ++ pat_to ++ TO ++ Q ++ tail.

Definition starts_with_dquote (pat : string) : bool :=
  match pat with
  | String c _ => Ascii.eqb c dquote
  | EmptyString => false
  end.

(** The five message types the tables of signaling_message.cc know
    besides [UNKNOWN]. *)
Definition routable (t : MsgType) : bool :=
  match t with
  | JOIN | LEAVE | OFFER | ANSWER | CANDIDATE => true
  | UNKNOWN | HEARTBEAT => false
  end.

(** A candidate message with every payload field set, as the manager
    emits it. *)
Definition sample_candidate : SignalMessage :=
  mkSignalMessage CANDIDATE "vehicle-7" "cockpit-1" None
                  (Some "candidate:1 1 UDP 2122 10.0.0.2 5000 typ host")
                  (Some "0") (Some 0%Z) (Some "trickle").


(** A manager over the contract-following transport, running, with every
    application handler registered. *)
Definition sample_config (T : Z) : WebrtcConfig :=
  mkWebrtcConfig "wss://relay.example/signal" "cockpit-1" [] T
                 "control" "telemetry".

Definition sample_manager (T : Z)
           (pcs : StdMap.t (option SimTransport.t))
           (hb : StdMap.t Z) : WebrtcManagerImpl SimTransport.t :=
  mkManager (sample_config T) Running true pcs
            true true true true true true true hb [] [].

(** A connected peer with the given channels open. *)
Definition connected_peer (labels : list string) : SimTransport.t :=
  SimTransport.mk Connected
    (List.map (fun l => (l, SimTransport.Open)) labels) None [] [] [].

(** Peer V was last heard at tick 0; the interval is one second. *)
Definition stale_manager : WebrtcManagerImpl SimTransport.t :=
  sample_manager 1000
    [("vehicle-7", Some (connected_peer ["control"]))]
    [("vehicle-7", 0%Z)].

(** Four seconds on the steady clock. *)
Definition four_seconds : Z := 4000000000.









(** The contract-following transport keeps its promise. *)
#[global] Instance sim_contract : DataChannelContract SimTransport.t.
Proof.
  refine {| IsDataChannelOpen := SimTransport.is_open;
            queued := SimTransport.sent_on |}.
  - intros pc label data. cbn. unfold SimTransport.send.
    now destruct (SimTransport.is_open pc label).
  - intros pc label data Hopen. cbn. unfold SimTransport.send.
    rewrite Hopen. unfold SimTransport.sent_on. cbn.
    rewrite filter_app, map_app. cbn. now rewrite String.eqb_refl.
  - intros pc label data Hclosed. cbn. unfold SimTransport.send.
    now rewrite Hclosed.
  - intros pc label data label' Hneq. cbn. unfold SimTransport.send.
    destruct (SimTransport.is_open pc label); [|reflexivity].
    unfold SimTransport.sent_on. cbn. rewrite filter_app, map_app. cbn.
    replace (String.eqb label label') with false
      by (symmetry; apply String.eqb_neq; congruence).
    now rewrite app_nil_r.
Defined.

(** [true] and [false] as the integers a caller reads them as. *)
Definition count_of_result (r : bool) : nat := if r then 1 else 0.

(** How many peers of the index have the channel [label] open. *)
Definition open_peers {PC : Type} `{DataChannelContract PC}
           (label : string) (pcs : StdMap.t (option PC)) : nat :=
  List.length
    (List.filter
       (fun e : string * option PC =>
          match snd e with
          | Some pc => IsDataChannelOpen pc label
          | None => false
          end) pcs).

(** The return value of a broadcast as the specification words it: the
    count of successful enqueues. *)
Definition broadcast_returns_count {PC : Type} `{DataChannelContract PC}
           (m : WebrtcManagerImpl PC) (label : string)
           (data : DataChannelMessage) : Prop :=
  count_of_result (snd (sendDataChannelMessageToAllPeers m label data))
  = open_peers label (peerConnections_ m).

(** Two cockpits watch the vehicle's telemetry; a third peer is connected
    with the channel still opening. *)
Definition opening_peer : SimTransport.t :=
  SimTransport.mk Connected [("telemetry", SimTransport.Opening)]
                  None [] [] [].

Definition fleet_manager : WebrtcManagerImpl SimTransport.t :=
  sample_manager 1000
    [ ("cockpit-1", Some (connected_peer ["telemetry"]));
      ("cockpit-2", Some (connected_peer ["control"; "telemetry"]));
      ("cockpit-3", Some opening_peer) ]
    [].

(** The same index in a manager that [stop] has not yet cleared but is
    no longer running. *)
Definition stopping_manager : WebrtcManagerImpl SimTransport.t :=
  mkManager (sample_config 1000) Stopping true
            (peerConnections_ fleet_manager)
            true true true true true true true [] [] [].

Definition telemetry_frame : DataChannelMessage := ["4"; "2"]%char.


(** A running manager with an empty index: no Offer was ever made. *)
Definition idle_manager : WebrtcManagerImpl SimTransport.t :=
  sample_manager 1000 [] [].


Import Relay.

(** What may legitimately appear on a socket while the relay handles a
    message of the link [senderWs], authenticated as [A]: a message that
    carries [from = A], or the relay's own error reply, sent back to the
    sender under the name "server". *)
Definition routed_for (senderWs : WebSocket) (A : string)
           (out : WebSocket * JsObject) : Prop :=
  prop (snd out) "from" = JString A
  \/ (fst out = senderWs
      /\ prop (snd out) "type" = JString "error"
      /\ prop (snd out) "from" = JString "server").

(** Since [st] the relay has put on the sockets only what it may while
    handling a message of [senderWs]. *)
Definition sent_since (st : State) (senderWs : WebSocket) (A : string)
           (st' : State) : Prop :=
  exists added,
    wire st' = (wire st ++ added)%list
    /\ Forall (routed_for senderWs A) added.

(** Every socket is open. *)
Definition all_open : WebSocket -> ReadyState := fun _ => OPEN.

(** The vehicle on socket 1, the cockpit on socket 2. *)
Definition paired_relay : State :=
  addClient (addClient (initial all_open) 1 "vehicle-7") 2 "cockpit-1".

(** The cockpit has joined the vehicle. *)
Definition join_message : JsObject :=
  [ ("type", JString "join"); ("from", JString "cockpit-1");
    ("data", JObject [("targetVehicleId", JString "vehicle-7")]) ].

Definition joined_relay : State := routeMessage paired_relay 2 join_message.

(** A join whose receiver member is an object with a property
    [toString]. *)
Definition join_with_object_receiver : JsObject :=
  [ ("type", JString "join"); ("from", JString "cockpit-1");
    ("to", JObject [("toString", JNumber 1)]);
    ("data", JObject [("targetVehicleId", JString "vehicle-7")]) ].

(** An offer sent on the cockpit's link under the vehicle's name. *)
Definition spoofed_offer : JsObject :=
  [ ("type", JString "offer"); ("from", JString "vehicle-7");
    ("to", JString "vehicle-7"); ("sdp", JString "v=0") ].

Definition honest_offer : JsObject :=
  [ ("type", JString "offer"); ("from", JString "cockpit-1");
    ("to", JString "vehicle-7"); ("sdp", JString "v=0") ].

(** A second claim of a registered identity as the specification words
    it: the new link is turned away and the relay stays as it was. *)
Definition second_claim_rejected (st : State) (ws : WebSocket)
           (clientId : string) : Prop :=
  map_get String.eqb clientId (sessions st) <> None ->
  addClient st ws clientId = st.

(** No two connected links carry the same identity. *)
Definition one_link_per_id (st : State) : Prop :=
  forall ws1 ws2 info1 info2,
    map_get Nat.eqb ws1 (connectedClients st) = Some info1 ->
    map_get Nat.eqb ws2 (connectedClients st) = Some info2 ->
    id info1 = id info2 -> ws1 = ws2.

(** The vehicle is connected on socket 1. *)
Definition vehicle_relay : State :=
  addClient (initial all_open) 1 "vehicle-7".

(** Every directory entry points to a connected link that carries the
    entry's identity. *)
Definition directory_ok (st : State) : Prop :=
  forall k ws,
    In (k, ws) (sessions st) ->
    exists info,
      map_get Nat.eqb ws (connectedClients st) = Some info /\ id info = k.

Definition is_OPEN (r : ReadyState) : bool :=
  match r with OPEN => true | _ => false end.

(** The notices a departure of [A] puts on the sockets: one for every
    listed client whose target is [A] and whose socket is open, in the
    order of the list. *)
Definition partner_notices (rs : WebSocket -> ReadyState) (A : string)
           (clients : list (WebSocket * ClientInfo))
  : list (WebSocket * JsObject) :=
  List.map
    (fun e : WebSocket * ClientInfo => (fst e, leave_notice A (id (snd e))))
    (List.filter
       (fun e : WebSocket * ClientInfo =>
          strict_eq_string (targetId (snd e)) A && is_OPEN (rs (fst e)))
       clients).

(** The partner on socket [ws] has had its target cleared. *)
Definition partner_cleared (st : State) (ws : WebSocket) : Prop :=
  exists info,
    map_get Nat.eqb ws (connectedClients st) = Some info
    /\ targetId info = JNull.

(** The network changes the [readyState] of sockets behind the relay's
    back. *)
Definition network_change (st : State) (rs : WebSocket -> ReadyState)
  : State :=
  mkState (connectedClients st) (sessions st) rs (wire st).

(** The states of the relay: from the empty maps, by connections,
    disconnections, messages and network changes in any order. *)
Inductive reachable : State -> Prop :=
| reach_initial rs : reachable (initial rs)
| reach_add st ws clientId :
    reachable st -> reachable (addClient st ws clientId)
| reach_remove st ws : reachable st -> reachable (removeClient st ws)
| reach_route st ws message :
    reachable st -> reachable (routeMessage st ws message)
| reach_network st rs : reachable st -> reachable (network_change st rs).

(** While a message of [ws] is handled, the directory stays sound and
    the sender keeps its identity. *)
Definition sender_kept (ws : WebSocket) (A : string) (st : State) : Prop :=
  directory_ok st
  /\ exists info,
       map_get Nat.eqb ws (connectedClients st) = Some info /\ id info = A.

(* ================================================================== *)
(** ** [WebrtcManagerImpl]: life cycle, peers and transport events *)

(** The calls the manager makes on its signaling client besides
    [sendSignal]. *)
Inductive SignalingClientCall : Type :=
| ClientConnect
| ClientDisconnect.

Section ManagerEvents.
Context {PC : Type} `{IPeerConnection PC} `{PeerConnectionFactory PC}.

Definition with_state (m : WebrtcManagerImpl PC) (s : AppState)
  : WebrtcManagerImpl PC :=
  mkManager (config_ m) s (signalingClient_ m) (peerConnections_ m)
            (onSignalingConnectedHandler_ m)
            (onSignalingDisconnectedHandler_ m)
            (onSignalingErrorHandler_ m) (onPeerConnectedHandler_ m)
            (onPeerDisconnectedHandler_ m) (onPeerErrorHandler_ m)
            (onDataChannelMessageReceivedHandler_ m)
            (lastHeartbeatRxTime_ m) (reconnectionAttemptCount_ m)
            (log_ m).

Definition with_signalingClient (m : WebrtcManagerImpl PC) (c : bool)
  : WebrtcManagerImpl PC :=
  mkManager (config_ m) (state_ m) c (peerConnections_ m)
            (onSignalingConnectedHandler_ m)
            (onSignalingDisconnectedHandler_ m)
            (onSignalingErrorHandler_ m) (onPeerConnectedHandler_ m)
            (onPeerDisconnectedHandler_ m) (onPeerErrorHandler_ m)
            (onDataChannelMessageReceivedHandler_ m)
            (lastHeartbeatRxTime_ m) (reconnectionAttemptCount_ m)
            (log_ m).

(** [WebrtcManagerImpl::init]: only from [Uninitialized]; creates the
    signaling client. *)
Definition init (m : WebrtcManagerImpl PC) : WebrtcManagerImpl PC * bool :=
  match state_ m with
  | Uninitialized =>
      (with_state (with_signalingClient m true) Initialized, true)
  | _ => (m, false)
  end.

(** [WebrtcManagerImpl::start]: only from [Initialized]; without a
    signaling client the manager ends [Stopped]. *)
Definition start (m : WebrtcManagerImpl PC)
  : WebrtcManagerImpl PC * bool * list SignalingClientCall :=
  match state_ m with
  | Initialized =>
      if signalingClient_ m
      then (with_state m Running, true, [ClientConnect])
      else (with_state m Stopped, false, [])
  | _ => (m, false, [])
  end.

(** [WebrtcManagerImpl::stop]: from [Running] or [Initialized]; [Close()]
    on every connection, the index cleared, the signaling client
    disconnected. *)
Definition stop (m : WebrtcManagerImpl PC)
  : WebrtcManagerImpl PC * list SignalingClientCall :=
  match state_ m with
  | Running | Initialized =>
      let closed :=
        List.map (fun e : string * option PC =>
                    (fst e, option_map Close (snd e)))
                 (peerConnections_ m) in
      let m := with_peerConnections m [] in
      (with_state m Stopped,
       if signalingClient_ m then [ClientDisconnect] else [])
  | _ => (m, [])
  end.

(** [WebrtcManagerImpl::connectToPeer]. *)
Definition connectToPeer (m : WebrtcManagerImpl PC) (peer_id : string)
  : WebrtcManagerImpl PC * bool :=
  if negb (AppState_eqb (state_ m) Running) then (m, false)
  else if StdMap.count peer_id (peerConnections_ m) then (m, true)
  else
    match createPeerConnection peer_id with
    | None => (m, false)
    | Some pc =>
        let m := store_pc m peer_id pc in
        (store_pc m peer_id (fst (CreateOffer pc)), true)
    end.

(** [WebrtcManagerImpl::disconnectFromPeer].  The source calls [Close()]
    through the slot without a null test; no method of the manager
    stores a null slot, and on one the model leaves the manager as it
    is. *)
Definition disconnectFromPeer (m : WebrtcManagerImpl PC)
           (peer_id reason : string) : WebrtcManagerImpl PC * bool :=
  match StdMap.find peer_id (peerConnections_ m) with
  | Some (Some pc) => (store_pc m peer_id (Close pc), true)
  | Some None => (m, true)
  | None => (m, false)
  end.

Definition invokeSignalingConnectedCallback (m : WebrtcManagerImpl PC)
  : WebrtcManagerImpl PC :=
  if onSignalingConnectedHandler_ m then emit m AppSignalingConnected
  else m.

Definition invokeSignalingDisconnectedCallback (m : WebrtcManagerImpl PC)
           (reason : string) : WebrtcManagerImpl PC :=
  if onSignalingDisconnectedHandler_ m
  then emit m (AppSignalingDisconnected reason)
  else m.

Definition invokeDataChannelMessageReceivedCallback
           (m : WebrtcManagerImpl PC) (peer_id label : string)
           (message : DataChannelMessage) : WebrtcManagerImpl PC :=
  if onDataChannelMessageReceivedHandler_ m
  then emit m (AppDataChannelMessageReceived peer_id label message)
  else m.

(** [handleSignalingConnected], [handleSignalingDisconnected],
    [handleSignalingError]. *)
Definition handleSignalingConnected (m : WebrtcManagerImpl PC)
  : WebrtcManagerImpl PC :=
  invokeSignalingConnectedCallback m.

Definition handleSignalingDisconnected (m : WebrtcManagerImpl PC)
  : WebrtcManagerImpl PC :=
  invokeSignalingDisconnectedCallback m "Signaling connection lost".

Definition handleSignalingError (m : WebrtcManagerImpl PC) (msg : string)
  : WebrtcManagerImpl PC :=
  invokeSignalingErrorCallback m msg.

(** The sender name the manager writes into its messages. *)
Definition client_dummy_id : string := "client_dummy_id".

(** [handlePeerLocalSdpGenerated]. *)
Definition handlePeerLocalSdpGenerated (m : WebrtcManagerImpl PC)
           (peer_id sdp_type sdp_string : string) : WebrtcManagerImpl PC :=
  if negb (StdMap.count peer_id (peerConnections_ m)) then m
  else
    let msg :=
      mkSignalMessage
        (if String.eqb sdp_type "offer" then OFFER else ANSWER)
        client_dummy_id peer_id (Some sdp_string) None None None None in
    if signalingClient_ m then emit m (SignalSent msg)
    else invokeSignalingErrorCallback m
           "Signaling client not available to send SDP".

(** [handlePeerLocalCandidateGenerated]. *)
Definition handlePeerLocalCandidateGenerated (m : WebrtcManagerImpl PC)
           (peer_id candidate sdp_mid : string) (sdp_mline_index : Z)
  : WebrtcManagerImpl PC :=
  if negb (StdMap.count peer_id (peerConnections_ m)) then m
  else
    let msg :=
      mkSignalMessage CANDIDATE client_dummy_id peer_id None
                      (Some candidate) (Some sdp_mid)
                      (Some sdp_mline_index) None in
    if signalingClient_ m then emit m (SignalSent msg)
    else invokeSignalingErrorCallback m
           "Signaling client not available to send candidate".

(** The reason [handlePeerConnectionStateChange] gives for a state that
    ends a connection. *)
Definition state_reason (state : PeerConnectionState) : option string :=
  match state with
  | Disconnected => Some "PC State: Disconnected"
  | Failed => Some "PC State: Failed"
  | Closed => Some "PC State: Closed"
  | New | Connecting | Connected => None
  end.

(** [handlePeerConnectionStateChange]. *)
Definition handlePeerConnectionStateChange (m : WebrtcManagerImpl PC)
           (peer_id : string) (state : PeerConnectionState)
  : WebrtcManagerImpl PC :=
  if negb (StdMap.count peer_id (peerConnections_ m)) then m
  else
    match state with
    | Connected => invokePeerConnectedCallback m peer_id
    | Disconnected | Failed | Closed =>
        match state_reason state with
        | Some reason => destroyPeerConnection m peer_id reason
        | None => m
        end
    | New | Connecting => m
    end.

(** [handlePeerDataChannelMessage]. *)
Definition handlePeerDataChannelMessage (m : WebrtcManagerImpl PC)
           (peer_id label : string) (message : DataChannelMessage)
  : WebrtcManagerImpl PC :=
  if negb (StdMap.count peer_id (peerConnections_ m)) then m
  else if String.eqb label "control"
  then invokeDataChannelMessageReceivedCallback m peer_id label message
  else if String.eqb label "telemetry"
  then invokeDataChannelMessageReceivedCallback m peer_id label message
  else m.

(** [handlePeerError]. *)
Definition handlePeerError (m : WebrtcManagerImpl PC)
           (peer_id error_msg : string) : WebrtcManagerImpl PC :=
  if negb (StdMap.count peer_id (peerConnections_ m)) then m
  else invokePeerErrorCallback m peer_id error_msg.

(** [SignalingClientImpl::onMessage], with the handlers that
    [WebrtcManagerImpl::init] registers on the signaling client: a
    payload that deserializes goes to [handleSignalingMessage], one that
    does not is reported through [handleSignalingError]. *)
Definition onMessage (now : Z) (m : WebrtcManagerImpl PC) (payload : string)
  : WebrtcManagerImpl PC :=
  match DeserializeSignalMessage payload with
  | Some signalMessage => handleSignalingMessage now m signalMessage
  | None => handleSignalingError m "Failed to parse received message."
  end.

(** A transport event of one peer, as the callbacks of
    [getOrCreatePeerConnection] and [connectToPeer] deliver it. *)
Inductive TransportEvent : Type :=
| LocalSdpGenerated (sdp_type sdp_string : string)
| LocalCandidateGenerated (candidate sdp_mid : string) (sdp_mline_index : Z)
| ConnectionStateChange (state : PeerConnectionState)
| DataChannelMessageArrived (label : string) (message : DataChannelMessage)
| TransportError (error_msg : string).

(** The handler each callback is bound to. *)
Definition on_transport_event (m : WebrtcManagerImpl PC) (peer_id : string)
           (ev : TransportEvent) : WebrtcManagerImpl PC :=
  match ev with
  | LocalSdpGenerated sdp_type sdp_string =>
      handlePeerLocalSdpGenerated m peer_id sdp_type sdp_string
  | LocalCandidateGenerated candidate sdp_mid sdp_mline_index =>
      handlePeerLocalCandidateGenerated m peer_id candidate sdp_mid
                                        sdp_mline_index
  | ConnectionStateChange state =>
      handlePeerConnectionStateChange m peer_id state
  | DataChannelMessageArrived label message =>
      handlePeerDataChannelMessage m peer_id label message
  | TransportError error_msg => handlePeerError m peer_id error_msg
  end.

End ManagerEvents.

(* ================================================================== *)
(** ** Further sample states *)

(** An offer whose sender name closes its own quotes and names a
    receiver. *)
Definition forged_offer : SignalMessage :=
  mkSignalMessage OFFER ("mallory" ++ Q ++ "," ++ pat_to ++ "vehicle-7")
                  "cockpit-1" (Some "v=0") None None None None.

(** The text of a well-formed offer as a peer's serializer writes it. *)
Definition offer_text : string :=
  SerializeSignalMessage
    (mkSignalMessage OFFER "vehicle-7" "cockpit-1" (Some "v=0")
                     None None None None).

(* ================================================================== *)
(** ** [WebrtcManagerImpl]: construction, handler registration, runs *)

(** [struct WebrtcConfig] with its default member initializers; [init]
    does not store a configuration, so this is the one a manager
    has. *)
Definition default_config : WebrtcConfig :=
  mkWebrtcConfig EmptyString EmptyString [] 5000 "control" "telemetry".

Section ManagerRuns.
Context {PC : Type} `{IPeerConnection PC} `{PeerConnectionFactory PC}.

(** [WebrtcManagerImpl::WebrtcManagerImpl()]. *)
Definition constructed : WebrtcManagerImpl PC :=
  mkManager default_config Uninitialized false []
            false false false false false false false [] [] [].

(** The seven registration methods; [handler] tells whether the
    [std::function] passed holds a callable. *)
Definition onSignalingConnected (m : WebrtcManagerImpl PC) (handler : bool)
  : WebrtcManagerImpl PC :=
  mkManager (config_ m) (state_ m) (signalingClient_ m) (peerConnections_ m)
            handler
            (onSignalingDisconnectedHandler_ m)
            (onSignalingErrorHandler_ m) (onPeerConnectedHandler_ m)
            (onPeerDisconnectedHandler_ m) (onPeerErrorHandler_ m)
            (onDataChannelMessageReceivedHandler_ m)
            (lastHeartbeatRxTime_ m) (reconnectionAttemptCount_ m) (log_ m).

Definition onSignalingDisconnected (m : WebrtcManagerImpl PC)
           (handler : bool) : WebrtcManagerImpl PC :=
  mkManager (config_ m) (state_ m) (signalingClient_ m) (peerConnections_ m)
            (onSignalingConnectedHandler_ m)
            handler
            (onSignalingErrorHandler_ m) (onPeerConnectedHandler_ m)
            (onPeerDisconnectedHandler_ m) (onPeerErrorHandler_ m)
            (onDataChannelMessageReceivedHandler_ m)
            (lastHeartbeatRxTime_ m) (reconnectionAttemptCount_ m) (log_ m).

Definition onSignalingError (m : WebrtcManagerImpl PC) (handler : bool)
  : WebrtcManagerImpl PC :=
  mkManager (config_ m) (state_ m) (signalingClient_ m) (peerConnections_ m)
            (onSignalingConnectedHandler_ m)
            (onSignalingDisconnectedHandler_ m)
            handler (onPeerConnectedHandler_ m)
            (onPeerDisconnectedHandler_ m) (onPeerErrorHandler_ m)
            (onDataChannelMessageReceivedHandler_ m)
            (lastHeartbeatRxTime_ m) (reconnectionAttemptCount_ m) (log_ m).

Definition onPeerConnected (m : WebrtcManagerImpl PC) (handler : bool)
  : WebrtcManagerImpl PC :=
  mkManager (config_ m) (state_ m) (signalingClient_ m) (peerConnections_ m)
            (onSignalingConnectedHandler_ m)
            (onSignalingDisconnectedHandler_ m)
            (onSignalingErrorHandler_ m) handler
            (onPeerDisconnectedHandler_ m) (onPeerErrorHandler_ m)
            (onDataChannelMessageReceivedHandler_ m)
            (lastHeartbeatRxTime_ m) (reconnectionAttemptCount_ m) (log_ m).

Definition onPeerDisconnected (m : WebrtcManagerImpl PC) (handler : bool)
  : WebrtcManagerImpl PC :=
  mkManager (config_ m) (state_ m) (signalingClient_ m) (peerConnections_ m)
            (onSignalingConnectedHandler_ m)
            (onSignalingDisconnectedHandler_ m)
            (onSignalingErrorHandler_ m) (onPeerConnectedHandler_ m)
            handler (onPeerErrorHandler_ m)
            (onDataChannelMessageReceivedHandler_ m)
            (lastHeartbeatRxTime_ m) (reconnectionAttemptCount_ m) (log_ m).

Definition onPeerError (m : WebrtcManagerImpl PC) (handler : bool)
  : WebrtcManagerImpl PC :=
  mkManager (config_ m) (state_ m) (signalingClient_ m) (peerConnections_ m)
            (onSignalingConnectedHandler_ m)
            (onSignalingDisconnectedHandler_ m)
            (onSignalingErrorHandler_ m) (onPeerConnectedHandler_ m)
            (onPeerDisconnectedHandler_ m) handler
            (onDataChannelMessageReceivedHandler_ m)
            (lastHeartbeatRxTime_ m) (reconnectionAttemptCount_ m) (log_ m).

Definition onDataChannelMessageReceived (m : WebrtcManagerImpl PC)
           (handler : bool) : WebrtcManagerImpl PC :=
  mkManager (config_ m) (state_ m) (signalingClient_ m) (peerConnections_ m)
            (onSignalingConnectedHandler_ m)
            (onSignalingDisconnectedHandler_ m)
            (onSignalingErrorHandler_ m) (onPeerConnectedHandler_ m)
            (onPeerDisconnectedHandler_ m) (onPeerErrorHandler_ m)
            handler
            (lastHeartbeatRxTime_ m) (reconnectionAttemptCount_ m) (log_ m).

(** One call into the manager from outside: the application's interface,
    the repository's signaling client, the transport callbacks, the
    heartbeat timer. *)
Inductive Entry : Type :=
| CallInit
| CallStart
| CallStop
| CallConnectToPeer (peer_id : string)
| CallDisconnectFromPeer (peer_id reason : string)
| CallSend (peer_id label : string) (data : DataChannelMessage)
| CallBroadcast (label : string) (data : DataChannelMessage)
| RegisterSignalingConnected (handler : bool)
| RegisterSignalingDisconnected (handler : bool)
| RegisterSignalingError (handler : bool)
| RegisterPeerConnected (handler : bool)
| RegisterPeerDisconnected (handler : bool)
| RegisterPeerError (handler : bool)
| RegisterDataChannelMessage (handler : bool)
| SignalingOpened
| SignalingClosed
| SignalingFailed (error_msg : string)
| SignalingText (now : Z) (payload : string)
| Transport (peer_id : string) (ev : TransportEvent)
| HeartbeatTimer (now : Z).

(** The manager after one such call. *)
Definition enter (m : WebrtcManagerImpl PC) (e : Entry)
  : WebrtcManagerImpl PC :=
  match e with
  | CallInit => fst (init m)
  | CallStart => fst (fst (start m))
  | CallStop => fst (stop m)
  | CallConnectToPeer peer_id => fst (connectToPeer m peer_id)
  | CallDisconnectFromPeer peer_id reason =>
      fst (disconnectFromPeer m peer_id reason)
  | CallSend peer_id label data =>
      fst (sendDataChannelMessage m peer_id label data)
  | CallBroadcast label data =>
      fst (sendDataChannelMessageToAllPeers m label data)
  | RegisterSignalingConnected handler => onSignalingConnected m handler
  | RegisterSignalingDisconnected handler =>
      onSignalingDisconnected m handler
  | RegisterSignalingError handler => onSignalingError m handler
  | RegisterPeerConnected handler => onPeerConnected m handler
  | RegisterPeerDisconnected handler => onPeerDisconnected m handler
  | RegisterPeerError handler => onPeerError m handler
  | RegisterDataChannelMessage handler =>
      onDataChannelMessageReceived m handler
  | SignalingOpened => handleSignalingConnected m
  | SignalingClosed => handleSignalingDisconnected m
  | SignalingFailed error_msg => handleSignalingError m error_msg
  | SignalingText now payload => onMessage now m payload
  | Transport peer_id ev => on_transport_event m peer_id ev
  | HeartbeatTimer now => onHeartbeatTimer now m
  end.

(** The manager after a run of calls on a newly constructed one. *)
Definition run (es : list Entry) : WebrtcManagerImpl PC :=
  List.fold_left enter es constructed.

End ManagerRuns.

Arguments constructed PC : clear implicits.

(* ================================================================== *)
(** ** What the manager sends, and what its runs keep *)

(** Offers, answers and candidates. *)
Definition is_negotiation (t : MsgType) : bool :=
  match t with
  | OFFER | ANSWER | CANDIDATE => true
  | UNKNOWN | JOIN | LEAVE | HEARTBEAT => false
  end.

(** The error text [handleSignalingMessage] gives for an offer, an
    answer or a candidate it cannot use. *)
Definition negotiation_error (t : MsgType) : string :=
  match t with
  | OFFER => "Received OFFER with missing SDP or PC"
  | ANSWER => "Received ANSWER with missing SDP or PC"
  | _ => "Received CANDIDATE with missing fields or PC"
  end.

(** The transport events on which the manager writes a message. *)
Definition produces_signal (ev : TransportEvent) : bool :=
  match ev with
  | LocalSdpGenerated _ _ | LocalCandidateGenerated _ _ _ => true
  | _ => false
  end.

(** The effects a run can leave in the log. *)
Definition run_effect (e : Effect) : Prop :=
  match e with
  | AppPeerDisconnected _ reason =>
      exists state, state_reason state = Some reason
  | AppSignalingDisconnected reason => reason = "Signaling connection lost"
  | SignalSent message =>
      from message = client_dummy_id
      /\ is_negotiation (type message) = true
  | ReconnectionAttempted _ => False
  | _ => True
  end.

(** What every run keeps. *)
Definition run_invariant {PC : Type} (m : WebrtcManagerImpl PC) : Prop :=
  lastHeartbeatRxTime_ m = []
  /\ reconnectionAttemptCount_ m = []
  /\ config_ m = default_config
  /\ (signalingClient_ m = false <-> state_ m = Uninitialized)
  /\ (state_ m = Uninitialized \/ state_ m = Initialized
      \/ state_ m = Running \/ state_ m = Stopped)
  /\ (forall p, ~ In (p, None) (peerConnections_ m))
  /\ (forall e, In e (log_ m) -> run_effect e).

(** A session of the manager against the contract-following transport:
    started, a peer connected, its offer written, then a tick long after. *)
Definition sample_run : list Entry :=
  [ RegisterPeerDisconnected true; CallInit; CallStart;
    CallConnectToPeer "vehicle-7";
    Transport "vehicle-7" (LocalSdpGenerated "offer" "v=0");
    Transport "vehicle-7" (ConnectionStateChange Connected);
    HeartbeatTimer 60000000000 ].

(* ================================================================== *)
(** ** The relay: what it sends, and what a message may change *)

(** The types of the messages the session manager puts on a socket. *)
Definition relay_output_type (v : JsValue) : bool :=
  strict_eq_string v "join_request" || strict_eq_string v "leave"
  || strict_eq_string v "error" || strict_eq_string v "offer"
  || strict_eq_string v "answer" || strict_eq_string v "candidate".

Definition relay_output (out : WebSocket * JsObject) : Prop :=
  relay_output_type (prop (snd out) "type") = true.

(** What handling a message of the link [ws] leaves alone: the
    directory, the sockets, the set of connected links, the record of
    every other link, and the identity of the link itself. *)
Definition route_frame (ws : WebSocket) (st st' : State) : Prop :=
  sessions st' = sessions st
  /\ readyState st' = readyState st
  /\ List.map fst (connectedClients st')
     = List.map fst (connectedClients st)
  /\ (forall ws', ws' <> ws ->
        map_get Nat.eqb ws' (connectedClients st')
        = map_get Nat.eqb ws' (connectedClients st))
  /\ (forall info,
        map_get Nat.eqb ws (connectedClients st) = Some info ->
        exists v,
          map_get Nat.eqb ws (connectedClients st')
          = Some (mkClientInfo (id info) v)).

(** The cockpit leaves its session. *)
Definition leave_message : JsObject :=
  [ ("type", JString "leave"); ("from", JString "cockpit-1") ].

(** A second link opens under the vehicle's identity. *)
Definition displaced_relay : State := addClient paired_relay 3 "vehicle-7".

(* ================================================================== *)
(** ** The vehicle application (vehicle_client/vehicle_client_app.cc) *)

Module Vehicle.

(** The calls the application makes on the components injected into
    it. *)
Inductive Call : Type :=
| WebrtcOnPeerConnected
| WebrtcOnPeerDisconnected
| WebrtcOnControlMessageReceived
| WebrtcOnTelemetryMessageReceived
| WebrtcOnError
| WebrtcStop
| CameraInit
| CameraSetOnFrameCapturedHandler
| CameraStartCapture
| CameraStopCapture
| ChassisInit
| ChassisSetOnStateUpdatedHandler
| ChassisStartUpdates
| ChassisStopUpdates
| ControllerProcessEmergencyCommand.

(** The members of [VehicleClientApp] ([enum class AppState] of
    vehicle_client_app.h has the six states of the manager's).  A
    component member is [true] when the pointer is not null; [calls_]
    collects the calls on the components, the oldest first. *)
Record VehicleClientApp : Type := mkApp {
  state_ : AppState;
  webrtcManager_ : bool;
  controller_ : bool;
  cameraSource_ : bool;
  chassisSource_ : bool;
  calls_ : list Call
}.

(** [VehicleClientApp::VehicleClientApp()]. *)
Definition constructed : VehicleClientApp :=
  mkApp Uninitialized false false false false [].

Definition with_state (app : VehicleClientApp) (s : AppState)
  : VehicleClientApp :=
  mkApp s (webrtcManager_ app) (controller_ app) (cameraSource_ app)
        (chassisSource_ app) (calls_ app).

Definition call (app : VehicleClientApp) (c : Call) : VehicleClientApp :=
  mkApp (state_ app) (webrtcManager_ app) (controller_ app)
        (cameraSource_ app) (chassisSource_ app) (calls_ app ++ [c])%list.

(** [setupWebrtcManager]. *)
Definition setupWebrtcManager (app : VehicleClientApp)
  : VehicleClientApp * bool :=
  if negb (webrtcManager_ app) then (app, false)
  else
    let app := call app WebrtcOnPeerConnected in
    let app := call app WebrtcOnPeerDisconnected in
    let app := call app WebrtcOnControlMessageReceived in
    let app := call app WebrtcOnTelemetryMessageReceived in
    let app := call app WebrtcOnError in
    (app, true).

(** [setupController]. *)
Definition setupController (app : VehicleClientApp)
  : VehicleClientApp * bool :=
  if negb (controller_ app) then (app, false) else (app, true).

(** [setupSensors]; [camera_ok] and [chassis_ok] are what the [init] of
    the camera source and of the chassis source return. *)
Definition setupSensors (camera_ok chassis_ok : bool)
           (app : VehicleClientApp) : VehicleClientApp * bool :=
  if negb (cameraSource_ app) || negb (chassisSource_ app)
  then (app, false)
  else
    let app := call app CameraInit in
    if negb camera_ok then (app, false)
    else
      let app := call app ChassisInit in
      if negb chassis_ok then (app, false)
      else
        let app := call app CameraSetOnFrameCapturedHandler in
        let app := call app ChassisSetOnStateUpdatedHandler in
        (app, true).

(** [VehicleClientApp::init]; the four pointers passed in, and the
    results of the sources' [init]. *)
Definition init (app : VehicleClientApp)
           (webrtcManager controller cameraSource chassisSource : bool)
           (camera_ok chassis_ok : bool) : VehicleClientApp * bool :=
  match state_ app with
  | Uninitialized =>
      let app :=
        mkApp Initializing webrtcManager controller cameraSource
              chassisSource (calls_ app) in
      let (app, ok) := setupWebrtcManager app in
      if negb ok then (with_state app Uninitialized, false)
      else
        let (app, ok) := setupController app in
        if negb ok then (with_state app Uninitialized, false)
        else
          let (app, ok) := setupSensors camera_ok chassis_ok app in
          if negb ok then (with_state app Uninitialized, false)
          else (with_state app Initialized, true)
  | _ => (app, false)
  end.

(** [VehicleClientApp::stop]. *)
Definition stop (app : VehicleClientApp) : VehicleClientApp :=
  match state_ app with
  | Stopping | Stopped | Uninitialized => app
  | _ =>
      let app := with_state app Stopping in
      let app :=
        if chassisSource_ app then call app ChassisStopUpdates else app in
      let app :=
        if cameraSource_ app then call app CameraStopCapture else app in
      let app := if webrtcManager_ app then call app WebrtcStop else app in
      with_state app Stopped
  end.

(** The events the handlers of the application are written for. *)
Inductive Event : Type :=
| PeerConnected (peer_id : string)
| PeerDisconnected (peer_id reason : string)
| ControlMessageReceived (peer_id : string) (message : list ascii)
| TelemetryMessageReceived (peer_id : string) (message : list ascii)
| WebrtcError (error_msg : string)
| CameraFrameCaptured
| ChassisStateUpdated
| NetworkUp (peer_id : string)
| NetworkDown (peer_id reason : string)
| HeartbeatLost (peer_id : string).

(** [handlePeerConnected]. *)
Definition handlePeerConnected (app : VehicleClientApp)
  : VehicleClientApp :=
  let app := if cameraSource_ app then call app CameraStartCapture else app in
  if chassisSource_ app then call app ChassisStartUpdates else app.

(** [handleNetworkDown] and [handleHeartbeatLost]: an emergency stop. *)
Definition handleNetworkDown (app : VehicleClientApp) : VehicleClientApp :=
  if controller_ app then call app ControllerProcessEmergencyCommand
  else app.

Definition handleHeartbeatLost (app : VehicleClientApp)
  : VehicleClientApp :=
  if controller_ app then call app ControllerProcessEmergencyCommand
  else app.

(** The handler of each event; the bodies of the others print, or are
    comments. *)
Definition handle (app : VehicleClientApp) (ev : Event)
  : VehicleClientApp :=
  match ev with
  | PeerConnected _ => handlePeerConnected app
  | NetworkDown _ _ => handleNetworkDown app
  | HeartbeatLost _ => handleHeartbeatLost app
  | PeerDisconnected _ _ | ControlMessageReceived _ _
  | TelemetryMessageReceived _ _ | WebrtcError _ | CameraFrameCaptured
  | ChassisStateUpdated | NetworkUp _ => app
  end.

(** The events for which [setupWebrtcManager] and [setupSensors]
    register a handler. *)
Definition registered (ev : Event) : bool :=
  match ev with
  | PeerConnected _ | PeerDisconnected _ _ | ControlMessageReceived _ _
  | TelemetryMessageReceived _ _ | WebrtcError _ | CameraFrameCaptured
  | ChassisStateUpdated => true
  | NetworkUp _ | NetworkDown _ _ | HeartbeatLost _ => false
  end.

(** An initialized application, and a drive during which the cockpit is
    lost. *)
Definition ready : VehicleClientApp :=
  fst (init constructed true true true true true true).

Definition lost_cockpit : list Event :=
  [ PeerConnected "cockpit-1";
    ControlMessageReceived "cockpit-1" ["g"; "o"]%char;
    ChassisStateUpdated;
    PeerDisconnected "cockpit-1" "Heartbeat lost" ].

End Vehicle.

(* ================================================================== *)
(** ** [WebrtcManagerImpl] with its mutex *)

(** The definitions above read each method body as it stands between
    its lock and its unlock.  Here [mutex_] is a member like the others:
    a [std::lock_guard] on a mutex that is held never returns, and the
    thread that waits keeps every lock it holds.  [std::mutex] is not
    recursive, so this also holds for the thread that holds it. *)
Module Locked.

Section World.
Context {PC : Type} `{IPeerConnection PC} `{PeerConnectionFactory PC}.

(** The manager and what it owns: the members, whether [mutex_] is
    held, and the connections whose [unique_ptr] has been erased or
    cleared, each as the last call on it left it. *)
Record World : Type := mkWorld {
  members : WebrtcManagerImpl PC;
  mutex_ : bool;
  released : list (string * option PC)
}.

(** A call returns a value, or its thread waits for [mutex_] for
    ever. *)
Inductive Outcome (A : Type) : Type :=
| Returns (a : A) (w : World)
| Blocks (w : World).

Arguments Returns {A} a w.
Arguments Blocks {A} w.

Definition Call (A : Type) : Type := World -> Outcome A.

Definition ret {A : Type} (a : A) : Call A := fun w => Returns a w.

Definition bind {A B : Type} (c : Call A) (k : A -> Call B) : Call B :=
  fun w =>
    match c w with
    | Returns a w' => k a w'
    | Blocks w' => Blocks w'
    end.

Local Notation "x <- c ;; k" := (bind c (fun x => k))
  (at level 61, c at next level, right associativity).
Local Notation "c ;;; k" := (bind c (fun _ => k))
  (at level 61, right associativity).

(** The manager where the call has left it, returned or not. *)
Definition after {A : Type} (o : Outcome A) : World :=
  match o with
  | Returns _ w => w
  | Blocks w => w
  end.

Definition get : Call (WebrtcManagerImpl PC) :=
  fun w => Returns (members w) w.

Definition update (f : WebrtcManagerImpl PC -> WebrtcManagerImpl PC)
  : Call unit :=
  fun w => Returns tt (mkWorld (f (members w)) (mutex_ w) (released w)).

(** A method body that takes no lock, as read above. *)
Definition lift {A : Type}
           (f : WebrtcManagerImpl PC -> WebrtcManagerImpl PC * A) : Call A :=
  fun w =>
    let (m, a) := f (members w) in
    Returns a (mkWorld m (mutex_ w) (released w)).

Definition release (peer_id : string) (slot : option PC) : Call unit :=
  fun w =>
    Returns tt (mkWorld (members w) (mutex_ w)
                        (released w ++ [(peer_id, slot)])%list).

Definition set_mutex (w : World) (held : bool) : World :=
  mkWorld (members w) held (released w).

(** [std::lock_guard<std::mutex> lock(mutex_);] for the scope [body]. *)
Definition lock_guard {A : Type} (body : Call A) : Call A :=
  fun w =>
    if mutex_ w then Blocks w
    else
      match body (set_mutex w true) with
      | Returns a w' => Returns a (set_mutex w' false)
      | Blocks w' => Blocks w'
      end.

(** [state_.compare_exchange_strong(expected, desired)] on the atomic
    [state_]. *)
Definition compare_exchange_strong (expected desired : AppState)
  : Call bool :=
  m <- get ;;
  if AppState_eqb (state_ m) expected
  then update (fun m => with_state m desired) ;;; ret true
  else ret false.

(** The [invoke...Callback] helpers: the handler is copied under the
    lock and called after the lock is given back. *)
Definition invokeSignalingConnectedCallback : Call unit :=
  handler <- lock_guard (m <- get ;; ret (onSignalingConnectedHandler_ m)) ;;
  if handler then update (fun m => emit m AppSignalingConnected)
  else ret tt.

Definition invokeSignalingDisconnectedCallback (reason : string)
  : Call unit :=
  handler <-
    lock_guard (m <- get ;; ret (onSignalingDisconnectedHandler_ m)) ;;
  if handler then update (fun m => emit m (AppSignalingDisconnected reason))
  else ret tt.

Definition invokeSignalingErrorCallback (error_msg : string) : Call unit :=
  handler <- lock_guard (m <- get ;; ret (onSignalingErrorHandler_ m)) ;;
  if handler then update (fun m => emit m (AppSignalingError error_msg))
  else ret tt.

Definition invokePeerConnectedCallback (peer_id : string) : Call unit :=
  handler <- lock_guard (m <- get ;; ret (onPeerConnectedHandler_ m)) ;;
  if handler then update (fun m => emit m (AppPeerConnected peer_id))
  else ret tt.

Definition invokePeerDisconnectedCallback (peer_id reason : string)
  : Call unit :=
  handler <- lock_guard (m <- get ;; ret (onPeerDisconnectedHandler_ m)) ;;
  if handler
  then update (fun m => emit m (AppPeerDisconnected peer_id reason))
  else ret tt.

Definition invokePeerErrorCallback (peer_id error_msg : string)
  : Call unit :=
  handler <- lock_guard (m <- get ;; ret (onPeerErrorHandler_ m)) ;;
  if handler then update (fun m => emit m (AppPeerError peer_id error_msg))
  else ret tt.

Definition invokeDataChannelMessageReceivedCallback
           (peer_id label : string) (message : DataChannelMessage)
  : Call unit :=
  handler <-
    lock_guard (m <- get ;; ret (onDataChannelMessageReceivedHandler_ m)) ;;
  if handler
  then update (fun m =>
                 emit m (AppDataChannelMessageReceived peer_id label message))
  else ret tt.

(** [destroyPeerConnection]: [Close()] on the connection, the two
    [erase] of the bookkeeping, the [erase] on the index, which gives
    the connection up, then the notification. *)
Definition destroyPeerConnection (peer_id reason : string) : Call unit :=
  m <- get ;;
  match StdMap.find peer_id (peerConnections_ m) with
  | Some slot =>
      let closed := option_map Close slot in
      update (fun m =>
                with_lastHeartbeatRxTime m
                  (StdMap.erase peer_id (lastHeartbeatRxTime_ m))) ;;;
      update (fun m =>
                with_reconnectionAttemptCount m
                  (StdMap.erase peer_id (reconnectionAttemptCount_ m))) ;;;
      update (fun m =>
                with_peerConnections m
                  (StdMap.erase peer_id (peerConnections_ m))) ;;;
      release peer_id closed ;;;
      invokePeerDisconnectedCallback peer_id reason
  | None => ret tt
  end.

(** The peers the first loop of [checkForHeartbeatLoss] collects. *)
Definition peers_to_disconnect (now : Z) (m : WebrtcManagerImpl PC)
  : list string :=
  List.map fst (List.filter (heartbeat_lost now m) (lastHeartbeatRxTime_ m)).

(** Its second loop. *)
Fixpoint disconnect_each (peers : list string) : Call unit :=
  match peers with
  | [] => ret tt
  | peer_id :: rest =>
      destroyPeerConnection peer_id "Heartbeat lost" ;;;
      disconnect_each rest
  end.

(** [checkForHeartbeatLoss]. *)
Definition checkForHeartbeatLoss (now : Z) : Call unit :=
  m <- get ;;
  if (heartbeat_interval_ms (config_ m) <=? 0)%Z then ret tt
  else disconnect_each (peers_to_disconnect now m).

(** The pings of [onHeartbeatTimer]. *)
Definition send_pings (m : WebrtcManagerImpl PC) : WebrtcManagerImpl PC :=
  with_peerConnections m
    (List.map
       (fun entry : string * option PC =>
          match snd entry with
          | Some pc =>
              if PeerConnectionState_eqb (GetConnectionState pc) Connected
              then (fst entry, Some (fst (SendData pc "heartbeat" ping_data)))
              else entry
          | None => entry
          end)
       (peerConnections_ m)).

(** [onHeartbeatTimer]. *)
Definition onHeartbeatTimer (now : Z) : Call unit :=
  lock_guard (checkForHeartbeatLoss now ;;; update send_pings).

(** [init], [start], [stop]: the atomic [state_] is tested and set
    before the lock is taken. *)
Definition init : Call bool :=
  ok <- compare_exchange_strong Uninitialized Initializing ;;
  if negb ok then ret false
  else
    lock_guard
      (update (fun m => with_signalingClient m true) ;;;
       update (fun m => with_state m Initialized) ;;;
       ret true).

Definition start : Call (bool * list SignalingClientCall) :=
  ok <- compare_exchange_strong Initialized Running ;;
  if negb ok then ret (false, [])
  else
    lock_guard
      (m <- get ;;
       if negb (signalingClient_ m)
       then update (fun m => with_state m Stopped) ;;; ret (false, [])
       else ret (true, [ClientConnect])).

Definition stop : Call (list SignalingClientCall) :=
  running <- compare_exchange_strong Running Stopping ;;
  ok <- (if running then ret true
         else compare_exchange_strong Initialized Stopping) ;;
  if negb ok then ret []
  else
    lock_guard
      (m <- get ;;
       (fun w =>
          Returns tt
            (mkWorld (members w) (mutex_ w)
               (released w
                ++ List.map (fun e : string * option PC =>
                               (fst e, option_map Close (snd e)))
                            (peerConnections_ m))%list)) ;;;
       update (fun m => with_peerConnections m []) ;;;
       update (fun m => with_state m Stopped) ;;;
       ret (if signalingClient_ m then [ClientDisconnect] else [])).

(** The calls of the application's interface whose whole body runs
    under the lock. *)
Definition connectToPeer (peer_id : string) : Call bool :=
  lock_guard (lift (fun m => connectToPeer m peer_id)).

Definition disconnectFromPeer (peer_id reason : string) : Call bool :=
  lock_guard (lift (fun m => disconnectFromPeer m peer_id reason)).

Definition sendDataChannelMessage (peer_id channel_label : string)
           (data : DataChannelMessage) : Call bool :=
  lock_guard
    (lift (fun m => sendDataChannelMessage m peer_id channel_label data)).

Definition sendDataChannelMessageToAllPeers (channel_label : string)
           (data : DataChannelMessage) : Call bool :=
  lock_guard
    (lift (fun m => sendDataChannelMessageToAllPeers m channel_label data)).

(** A registration method: the handler is stored under the lock. *)
Definition register
           (store : WebrtcManagerImpl PC -> bool -> WebrtcManagerImpl PC)
           (handler : bool) : Call unit :=
  lock_guard (update (fun m => store m handler)).

(** The handlers of the signaling client's events. *)
Definition handleSignalingConnected : Call unit :=
  lock_guard invokeSignalingConnectedCallback.

Definition handleSignalingDisconnected : Call unit :=
  lock_guard (invokeSignalingDisconnectedCallback "Signaling connection lost").

Definition handleSignalingError (msg : string) : Call unit :=
  lock_guard (invokeSignalingErrorCallback msg).

(** [handleSignalingMessage]. *)
Definition handleSignalingMessage (now : Z) (message : SignalMessage)
  : Call unit :=
  lock_guard
    (let peer_id := from message in
     match type message with
     | JOIN => ret tt
     | LEAVE =>
         update (fun m =>
                   if StdMap.count peer_id (peerConnections_ m)
                   then match StdMap.find peer_id (peerConnections_ m) with
                        | Some (Some pc) => store_pc m peer_id (Close pc)
                        | _ => m
                        end
                   else m)
     | OFFER =>
         pc <- lift (fun m => getOrCreatePeerConnection m peer_id) ;;
         match pc, sdp message with
         | Some pc, Some s =>
             update (fun m =>
                       let pc := fst (SetRemoteDescription pc "offer" s) in
                       let pc := fst (CreateAnswer pc) in
                       store_pc m peer_id pc)
         | _, _ =>
             invokePeerErrorCallback peer_id
               "Received OFFER with missing SDP or PC"
         end
     | ANSWER =>
         pc <- lift (fun m => getOrCreatePeerConnection m peer_id) ;;
         match pc, sdp message with
         | Some pc, Some s =>
             update (fun m =>
                       let pc := fst (SetRemoteDescription pc "answer" s) in
                       store_pc m peer_id pc)
         | _, _ =>
             invokePeerErrorCallback peer_id
               "Received ANSWER with missing SDP or PC"
         end
     | CANDIDATE =>
         pc <- lift (fun m => getOrCreatePeerConnection m peer_id) ;;
         match pc, candidate message, sdpMid message,
               sdpMlineIndex message with
         | Some pc, Some c, Some mid, Some idx =>
             update (fun m =>
                       let pc := fst (AddRemoteCandidate pc c mid idx) in
                       store_pc m peer_id pc)
         | _, _, _, _ =>
             invokePeerErrorCallback peer_id
               "Received CANDIDATE with missing fields or PC"
         end
     | HEARTBEAT => update (fun m => handleReceivedHeartbeat now m peer_id)
     | UNKNOWN =>
         invokeSignalingErrorCallback
           ("Received unknown signal message type from " ++ peer_id)
     end).

(** [SignalingClientImpl::onMessage] with the handlers [init] binds. *)
Definition onMessage (now : Z) (payload : string) : Call unit :=
  match DeserializeSignalMessage payload with
  | Some signalMessage => handleSignalingMessage now signalMessage
  | None => handleSignalingError "Failed to parse received message."
  end.

(** The handlers of a transport's events. *)
Definition handlePeerLocalSdpGenerated (peer_id sdp_type sdp_string : string)
  : Call unit :=
  lock_guard
    (m <- get ;;
     if negb (StdMap.count peer_id (peerConnections_ m)) then ret tt
     else
       let msg :=
         mkSignalMessage
           (if String.eqb sdp_type "offer" then OFFER else ANSWER)
           client_dummy_id peer_id (Some sdp_string) None None None None in
       if signalingClient_ m then update (fun m => emit m (SignalSent msg))
       else invokeSignalingErrorCallback
              "Signaling client not available to send SDP").

Definition handlePeerLocalCandidateGenerated
           (peer_id candidate sdp_mid : string) (sdp_mline_index : Z)
  : Call unit :=
  lock_guard
    (m <- get ;;
     if negb (StdMap.count peer_id (peerConnections_ m)) then ret tt
     else
       let msg :=
         mkSignalMessage CANDIDATE client_dummy_id peer_id None
                         (Some candidate) (Some sdp_mid)
                         (Some sdp_mline_index) None in
       if signalingClient_ m then update (fun m => emit m (SignalSent msg))
       else invokeSignalingErrorCallback
              "Signaling client not available to send candidate").

Definition handlePeerConnectionStateChange (peer_id : string)
           (state : PeerConnectionState) : Call unit :=
  lock_guard
    (m <- get ;;
     if negb (StdMap.count peer_id (peerConnections_ m)) then ret tt
     else
       match state with
       | Connected => invokePeerConnectedCallback peer_id
       | Disconnected | Failed | Closed =>
           match state_reason state with
           | Some reason => destroyPeerConnection peer_id reason
           | None => ret tt
           end
       | New | Connecting => ret tt
       end).

Definition handlePeerDataChannelMessage (peer_id label : string)
           (message : DataChannelMessage) : Call unit :=
  lock_guard
    (m <- get ;;
     if negb (StdMap.count peer_id (peerConnections_ m)) then ret tt
     else if String.eqb label "control"
     then invokeDataChannelMessageReceivedCallback peer_id label message
     else if String.eqb label "telemetry"
     then invokeDataChannelMessageReceivedCallback peer_id label message
     else ret tt).

Definition handlePeerError (peer_id error_msg : string) : Call unit :=
  lock_guard
    (m <- get ;;
     if negb (StdMap.count peer_id (peerConnections_ m)) then ret tt
     else invokePeerErrorCallback peer_id error_msg).

Definition on_transport_event (peer_id : string) (ev : TransportEvent)
  : Call unit :=
  match ev with
  | LocalSdpGenerated sdp_type sdp_string =>
      handlePeerLocalSdpGenerated peer_id sdp_type sdp_string
  | LocalCandidateGenerated candidate sdp_mid sdp_mline_index =>
      handlePeerLocalCandidateGenerated peer_id candidate sdp_mid
                                        sdp_mline_index
  | ConnectionStateChange state =>
      handlePeerConnectionStateChange peer_id state
  | DataChannelMessageArrived label message =>
      handlePeerDataChannelMessage peer_id label message
  | TransportError error_msg => handlePeerError peer_id error_msg
  end.

(** One call into the manager from some thread, and the manager where
    that call leaves it. *)
Definition call (e : Entry) : Call unit :=
  match e with
  | CallInit => init ;;; ret tt
  | CallStart => start ;;; ret tt
  | CallStop => stop ;;; ret tt
  | CallConnectToPeer peer_id => connectToPeer peer_id ;;; ret tt
  | CallDisconnectFromPeer peer_id reason =>
      disconnectFromPeer peer_id reason ;;; ret tt
  | CallSend peer_id label data =>
      sendDataChannelMessage peer_id label data ;;; ret tt
  | CallBroadcast label data =>
      sendDataChannelMessageToAllPeers label data ;;; ret tt
  | RegisterSignalingConnected handler =>
      register onSignalingConnected handler
  | RegisterSignalingDisconnected handler =>
      register onSignalingDisconnected handler
  | RegisterSignalingError handler => register onSignalingError handler
  | RegisterPeerConnected handler => register onPeerConnected handler
  | RegisterPeerDisconnected handler => register onPeerDisconnected handler
  | RegisterPeerError handler => register onPeerError handler
  | RegisterDataChannelMessage handler =>
      register onDataChannelMessageReceived handler
  | SignalingOpened => handleSignalingConnected
  | SignalingClosed => handleSignalingDisconnected
  | SignalingFailed error_msg => handleSignalingError error_msg
  | SignalingText now payload => onMessage now payload
  | Transport peer_id ev => on_transport_event peer_id ev
  | HeartbeatTimer now => onHeartbeatTimer now
  end.

Definition enter (w : World) (e : Entry) : World := after (call e w).

(** A newly constructed manager, and the manager after a run of calls
    on it. *)
Definition constructed : World := mkWorld (constructed PC) false [].

Definition run (es : list Entry) : World :=
  List.fold_left enter es constructed.

End World.

Arguments World PC : clear implicits.
Arguments Outcome PC A : clear implicits.
Arguments Returns {PC A} a w.
Arguments Blocks {PC A} w.
Arguments constructed PC : clear implicits.

End Locked.

(* ================================================================== *)
(** ** Sample worlds and received texts *)

(** The three calls of the life cycle: their test of [state_] comes
    before the lock. *)
Definition life_cycle_call (e : Entry) : bool :=
  match e with
  | CallInit | CallStart | CallStop => true
  | _ => false
  end.

(** [createPeerConnection] is virtual.  This override hands out
    transports that report [Connected] with the control and heartbeat
    channels open; the transport of the repository is a stub whose
    [GetConnectionState] answers [New].  The state of a transport
    changes on the transport's own threads; the manager only reads
    it. *)
Definition established_factory : PeerConnectionFactory SimTransport.t :=
  fun _ => Some (connected_peer ["control"; "heartbeat"]).

(** The application starts the manager and asks for the vehicle. *)
Definition connected_run : list Entry :=
  [CallInit; CallStart; CallConnectToPeer "vehicle-7"].

(** The manager after these calls, over transports that are
    established, and over the contract-following ones. *)
Definition established_world : Locked.World SimTransport.t :=
  Eval vm_compute in
    @Locked.run SimTransport.t SimTransport.transport established_factory
                connected_run.

Definition connecting_world : Locked.World SimTransport.t :=
  Eval vm_compute in Locked.run connected_run.

(** The manager started, no peer asked for. *)
Definition started_world : Locked.World SimTransport.t :=
  Eval vm_compute in Locked.run [CallInit; CallStart].

(** [stale_manager] with its mutex free. *)
Definition stale_world : Locked.World SimTransport.t :=
  Locked.mkWorld stale_manager false [].

(** One hour on the steady clock. *)
Definition one_hour : Z := 3600000000000.

(** A heartbeat envelope of the vehicle as it arrives on the signaling
    link (specification, section 6). *)
Definition heartbeat_text : string :=
  wire_text "heartbeat" "vehicle-7" "cockpit-1" "}".


Section LockedFrames.
Context {PC : Type}.

(** The members after the three [erase] of [destroyPeerConnection]. *)
Definition erased (m : WebrtcManagerImpl PC) (peer_id : string)
  : WebrtcManagerImpl PC :=
  mkManager (config_ m) (state_ m) (signalingClient_ m)
            (StdMap.erase peer_id (peerConnections_ m))
            (onSignalingConnectedHandler_ m)
            (onSignalingDisconnectedHandler_ m)
            (onSignalingErrorHandler_ m) (onPeerConnectedHandler_ m)
            (onPeerDisconnectedHandler_ m) (onPeerErrorHandler_ m)
            (onDataChannelMessageReceivedHandler_ m)
            (StdMap.erase peer_id (lastHeartbeatRxTime_ m))
            (StdMap.erase peer_id (reconnectionAttemptCount_ m))
            (log_ m).

(** What one call may do to the receipt times, the configuration and
    the log, whether it returns or not: it records no receipt, and the
    one thing it may add to the log is a negotiation message sent under
    the fixed sender name. *)
Definition step_frame (m m' : WebrtcManagerImpl PC) : Prop :=
  incl (lastHeartbeatRxTime_ m') (lastHeartbeatRxTime_ m)
  /\ config_ m' = config_ m
  /\ (log_ m' = log_ m
      \/ exists msg,
           log_ m' = (log_ m ++ [SignalSent msg])%list
           /\ from msg = client_dummy_id
           /\ is_negotiation (type msg) = true).

(** What every run keeps: no receipt is recorded, the configuration is
    the default one, and the log holds nothing but negotiation messages
    sent under the fixed sender name. *)
Definition quiet (m : WebrtcManagerImpl PC) : Prop :=
  lastHeartbeatRxTime_ m = []
  /\ config_ m = default_config
  /\ (forall e, In e (log_ m) ->
      exists msg, e = SignalSent msg /\ from msg = client_dummy_id
                  /\ is_negotiation (type msg) = true).

End LockedFrames.

(* ================================================================== *)
(** * Properties *)

(** ** Strings: concatenation, search and extraction *)

Lemma append_assoc (a b c : string) : (a ++ b) ++ c = a ++ (b ++ c).
Proof. induction a as [|x a IH]; simpl; [reflexivity | now rewrite IH]. Qed.

Lemma length_append (a b : string) :
  String.length (a ++ b) = String.length a + String.length b.
Proof. induction a as [|x a IH]; simpl; [reflexivity | now rewrite IH]. Qed.

Lemma prefix_length (pat s : string) :
  String.prefix pat s = true -> String.length pat <= String.length s.
Proof.
  revert pat; induction s as [|c s IH]; intros [|p pat]; simpl; try lia.
  destruct (ascii_dec p c); [|discriminate].
  intros Hp. apply IH in Hp. lia.
Qed.

Lemma prefix_cons (a c : ascii) (pat s : string) :
  String.prefix (String a pat) (String c s)
  = if Ascii.eqb a c then String.prefix pat s else false.
Proof.
  cbn [String.prefix]. destruct (ascii_dec a c) as [->|N].
  - now rewrite Ascii.eqb_refl.
  - destruct (Ascii.eqb_spec a c); [contradiction | reflexivity].
Qed.

Lemma prefix_nil (s : string) : String.prefix EmptyString s = true.
Proof. now destruct s. Qed.

Lemma eqb_neq (a c : ascii) : a <> c -> Ascii.eqb a c = false.
Proof. intros N. destruct (Ascii.eqb_spec a c); [contradiction | reflexivity]. Qed.

Lemma index_S (pat : string) (c : ascii) (s : string) (n : nat) :
  String.index (S n) pat (String c s) = option_map S (String.index n pat s).
Proof. simpl. destruct (String.index n pat s); reflexivity. Qed.

Lemma index_0_hit (pat s : string) :
  String.prefix pat s = true -> String.index 0 pat s = Some 0.
Proof.
  destruct s as [|c s]; simpl.
  - destruct pat; [reflexivity | discriminate].
  - intros ->. reflexivity.
Qed.

Lemma index_0_miss (pat : string) (c : ascii) (s : string) :
  String.prefix pat (String c s) = false ->
  String.index 0 pat (String c s) = option_map S (String.index 0 pat s).
Proof.
  intros Hp. cbn [String.index]. rewrite Hp.
  destruct (String.index 0 pat s); reflexivity.
Qed.

(** A search that starts where a known prefix ends searches the rest. *)
Lemma index_skip (pre pat s : string) :
  String.index (String.length pre) pat (pre ++ s)
  = option_map (Nat.add (String.length pre)) (String.index 0 pat s).
Proof.
  induction pre as [|c pre IH]; simpl String.length; simpl append.
  - destruct (String.index 0 pat s); reflexivity.
  - rewrite index_S, IH. destruct (String.index 0 pat s); reflexivity.
Qed.

(** A found position lies at or after the start, and the pattern fits
    between it and the end of the text. *)
Lemma index_bound (s pat : string) :
  forall n m, String.index n pat s = Some m ->
              n <= m /\ m + String.length pat <= String.length s.
Proof.
  induction s as [|c s IH]; intros n m.
  - destruct n; simpl; [|discriminate].
    destruct pat; [|discriminate]. intros [= <-]. simpl. lia.
  - destruct n as [|n].
    + cbn [String.index].
      destruct (String.prefix pat (String c s)) eqn:Hp.
      * intros [= <-]. apply prefix_length in Hp. lia.
      * destruct (String.index 0 pat s) as [k|] eqn:Hk; [|discriminate].
        intros [= <-]. apply IH in Hk. simpl. lia.
    + rewrite index_S.
      destruct (String.index n pat s) as [k|] eqn:Hk; [|discriminate].
      intros [= <-]. apply IH in Hk. simpl. lia.
Qed.

Lemma no_dquote_head (c : ascii) (s : string) :
  no_dquote (String c s) = true -> c <> dquote /\ no_dquote s = true.
Proof.
  simpl. intros Hq. apply andb_true_iff in Hq as [Hc Hs]. split; [|exact Hs].
  intros ->. rewrite Ascii.eqb_refl in Hc. discriminate.
Qed.

(** A pattern that opens with a double quote cannot start inside a run
    of characters without one. *)
Lemma index_0_skip_unquoted (v pat' rest : string) :
  no_dquote v = true ->
  String.index 0 (String dquote pat') (v ++ rest)
  = option_map (Nat.add (String.length v))
               (String.index 0 (String dquote pat') rest).
Proof.
  induction v as [|c v IH]; intros Hv; simpl String.length; simpl append.
  - destruct (String.index 0 _ rest); reflexivity.
  - apply no_dquote_head in Hv as [Hc Hv].
    rewrite index_0_miss.
    + rewrite (IH Hv). destruct (String.index 0 _ rest); reflexivity.
    + rewrite prefix_cons, eqb_neq; [reflexivity | congruence].
Qed.

(** After an opening quote, the text of an unquoted value and its
    closing quote never continue into [key":"]: the value cannot supply
    the quote early, and after the closing quote comes a comma. *)
Lemma prefix_unquoted_value (key v rest : string) :
  no_dquote key = true -> no_dquote v = true ->
  String.prefix (key ++ Q ++ ":" ++ Q) (v ++ Q ++ "," ++ rest) = false.
Proof.
  revert v; induction key as [|k key IH]; intros v Hk Hv.
  - destruct v as [|c v]; [reflexivity|].
    apply no_dquote_head in Hv as [Hc _].
    cbn [append Q]. rewrite prefix_cons, eqb_neq; [reflexivity | congruence].
  - apply no_dquote_head in Hk as [Hkq Hk].
    destruct v as [|c v]; cbn [append Q]; rewrite prefix_cons.
    + now rewrite eqb_neq.
    + apply no_dquote_head in Hv as [_ Hv].
      destruct (Ascii.eqb k c); [|reflexivity]. now apply IH.
Qed.

Lemma substring_skip (pre s : string) (n : nat) :
  String.substring (String.length pre) n (pre ++ s) = String.substring 0 n s.
Proof. induction pre as [|c pre IH]; simpl; [reflexivity | exact IH]. Qed.

Lemma substring_0_app (v rest : string) :
  String.substring 0 (String.length v) (v ++ rest) = v.
Proof.
  induction v as [|c v IH]; simpl; [now destruct rest | now rewrite IH].
Qed.

(** The closing quote of an unquoted value that starts at [start]. *)
Lemma find_closing_quote (pre v rest : string) (start : nat) :
  String.length pre = start -> no_dquote v = true ->
  find (pre ++ v ++ Q ++ rest) Q start = Some (start + String.length v).
Proof.
  intros <- Hv. unfold find. rewrite index_skip.
  unfold Q at 1. rewrite (index_0_skip_unquoted v _ _ Hv).
  rewrite index_0_hit
    by (cbn [append Q]; now rewrite prefix_cons, Ascii.eqb_refl, prefix_nil).
  simpl. f_equal. lia.
Qed.

(** Extracting the characters between [start] and the closing quote. *)
Lemma substr_value (pre v rest : string) (start : nat) :
  String.length pre = start ->
  substr (pre ++ v ++ rest) start (start + String.length v - start) = Some v.
Proof.
  intros <-. unfold substr.
  replace (String.length pre + String.length v - String.length pre)
    with (String.length v) by lia.
  rewrite length_append.
  replace (Nat.leb (String.length pre) _) with true
    by (symmetry; apply Nat.leb_le; lia).
  now rewrite substring_skip, substring_0_app.
Qed.

(** ** The wire text of the three routing fields *)

Lemma index_0_skip_value (v pat rest : string) :
  starts_with_dquote pat = true -> no_dquote v = true ->
  String.index 0 pat (v ++ rest)
  = option_map (Nat.add (String.length v)) (String.index 0 pat rest).
Proof.
  destruct pat as [|c pat']; [discriminate|]. simpl. intros Hc.
  destruct (Ascii.eqb_spec c dquote) as [->|]; [|discriminate].
  apply index_0_skip_unquoted.
Qed.

(** At the opening quote of a value: [“key”:“] does not start there. *)
Lemma prefix_at_opening_quote (key v rest : string) :
  no_dquote key = true -> no_dquote v = true ->
  String.prefix (String dquote (key ++ Q ++ ":" ++ Q))
                (String dquote (v ++ Q ++ "," ++ rest)) = false.
Proof.
  intros Hk Hv. rewrite prefix_cons, Ascii.eqb_refl.
  now apply prefix_unquoted_value.
Qed.

Ltac miss_concrete := rewrite index_0_miss by reflexivity.
Ltac miss_opening key v Hv :=
  rewrite index_0_miss
    by exact (prefix_at_opening_quote key v _ eq_refl Hv).
Ltac skip_value v pat Hv :=
  rewrite (index_0_skip_value v pat) by (reflexivity || exact Hv).
Ltac hit := rewrite index_0_hit by (cbn; apply prefix_nil).
Ltac expose_text :=
  unfold wire_text, find;
  cbn [append pat_type pat_from pat_to quoted Q].

Section WireText.
Variables T F TO tail : string.
Hypothesis HT : no_dquote T = true.
Hypothesis HF : no_dquote F = true.
Hypothesis HTO : no_dquote TO = true.

Let data := wire_text T F TO tail.

Lemma find_pat_type : find data pat_type 0 = Some 1.
  Proof. subst data. expose_text. miss_concrete. hit. reflexivity. Qed.

Lemma find_pat_from :
    find data pat_from 0 = Some (String.length T + 11).
  Proof.
    subst data. expose_text.
    do 8 miss_concrete. miss_opening "from" T HT.
    skip_value T pat_from HT. do 2 miss_concrete. hit.
    cbn [option_map]. f_equal. lia.
  Qed.

Lemma find_pat_to :
    find data pat_to 0 = Some (String.length T + String.length F + 21).
  Proof.
    subst data. expose_text.
    do 8 miss_concrete. miss_opening "to" T HT.
    skip_value T pat_to HT. do 9 miss_concrete. miss_opening "to" F HF.
    skip_value F pat_to HF. do 2 miss_concrete. hit.
    cbn [option_map]. f_equal. lia.
  Qed.

  (** The text split before each of the three values. *)
Let pre_type := "{" ++ pat_type.
Let pre_from := pre_type ++ T ++ Q ++ "," ++ pat_from.
Let pre_to := pre_from ++ F ++ Q ++ "," ++ pat_to.

Lemma split_at_type :
    data = pre_type ++ T ++ Q ++ ("," ++ pat_from ++ F ++ Q ++ ","
                                      ++ pat_to ++ TO ++ Q ++ tail).
  Proof. reflexivity. Qed.

Lemma split_at_from :
    data = pre_from ++ F ++ Q ++ ("," ++ pat_to ++ TO ++ Q ++ tail).
  Proof.
    subst data pre_from pre_type. unfold wire_text.
    now rewrite !append_assoc.
  Qed.

Lemma split_at_to : data = pre_to ++ TO ++ Q ++ tail.
  Proof.
    subst data pre_to pre_from pre_type. unfold wire_text.
    now rewrite !append_assoc.
  Qed.

Lemma length_pre_type : String.length pre_type = 1 + 8.
  Proof. reflexivity. Qed.

Lemma length_pre_from :
    String.length pre_from = String.length T + 11 + 8.
  Proof.
    subst pre_from pre_type. rewrite !length_append. simpl. lia.
  Qed.

Lemma length_pre_to :
    String.length pre_to = String.length T + String.length F + 21 + 6.
  Proof.
    subst pre_to pre_from pre_type. rewrite !length_append. simpl. lia.
  Qed.

Lemma close_type :
    find data Q (1 + 8) = Some (1 + 8 + String.length T)
    /\ substr data (1 + 8) (1 + 8 + String.length T - (1 + 8)) = Some T.
  Proof.
    rewrite split_at_type. split.
    - exact (find_closing_quote _ _ _ _ length_pre_type HT).
    - exact (substr_value pre_type T _ _ length_pre_type).
  Qed.

Lemma close_from :
    let start := String.length T + 11 + 8 in
    find data Q start = Some (start + String.length F)
    /\ substr data start (start + String.length F - start) = Some F.
  Proof.
    rewrite split_at_from. split.
    - exact (find_closing_quote _ _ _ _ length_pre_from HF).
    - exact (substr_value pre_from F _ _ length_pre_from).
  Qed.

Lemma close_to :
    let start := String.length T + String.length F + 21 + 6 in
    find data Q start = Some (start + String.length TO)
    /\ substr data start (start + String.length TO - start) = Some TO.
  Proof.
    rewrite split_at_to. split.
    - exact (find_closing_quote _ _ _ _ length_pre_to HTO).
    - exact (substr_value pre_to TO _ _ length_pre_to).
  Qed.

  (** The skeleton parser reads back exactly the three values. *)
Lemma deserialize_wire_text :
    DeserializeSignalMessage data
    = Some (SignalMessage_ctor (StringToType T) F TO).
  Proof.
    destruct close_type as [E1 S1], close_from as [E2 S2],
             close_to as [E3 S3].
    unfold DeserializeSignalMessage.
    rewrite find_pat_type, find_pat_from, find_pat_to.
    cbv beta iota zeta.
    rewrite E1. cbv beta iota. rewrite S1.
    rewrite E2. cbv beta iota. rewrite S2.
    rewrite E3. cbv beta iota. rewrite S3.
    reflexivity.
  Qed.

End WireText.

(** ** Serialization followed by deserialization *)

Lemma serialize_shape (m : SignalMessage) :
  exists tail,
    SerializeSignalMessage m
    = wire_text (TypeToString (type m)) (from m) (to m) tail.
Proof.
  unfold SerializeSignalMessage, wire_text.
  destruct (sdp m), (candidate m), (sdpMid m), (sdpMlineIndex m),
           (reason m);
    cbv beta iota zeta; eexists;
    repeat rewrite append_assoc; reflexivity.
Qed.

Lemma type_tag_roundtrip (t : MsgType) :
  routable t = true ->
  StringToType (TypeToString t) = t /\ no_dquote (TypeToString t) = true.
Proof. destruct t; intros Ht; try discriminate Ht; split; reflexivity. Qed.

(** C9: for every message whose type is one of JOIN, LEAVE, OFFER,
    ANSWER, CANDIDATE and whose sender and receiver hold no double
    quote, deserializing the serialized message succeeds and gives back
    the same type, sender and receiver (the payload fields are not read
    back: the result is the message built from those three alone). *)
Theorem C9_roundtrip_routing_fields (m : SignalMessage) :
  routable (type m) = true ->
  no_dquote (from m) = true ->
  no_dquote (to m) = true ->
  exists m',
    DeserializeSignalMessage (SerializeSignalMessage m) = Some m'
    /\ type m' = type m /\ from m' = from m /\ to m' = to m
    /\ m' = SignalMessage_ctor (type m) (from m) (to m).
Proof.
  intros Ht Hf Hto.
  destruct (serialize_shape m) as [tail ->].
  destruct (type_tag_roundtrip _ Ht) as [Hrt Hq].
  rewrite (deserialize_wire_text _ _ _ tail Hq Hf Hto), Hrt.
  eexists; repeat split.
Qed.

Lemma C9_roundtrip_witness :
  exists m',
    DeserializeSignalMessage (SerializeSignalMessage sample_candidate)
    = Some m'
    /\ type m' = CANDIDATE /\ from m' = "vehicle-7" /\ to m' = "cockpit-1"
    /\ m' = SignalMessage_ctor CANDIDATE "vehicle-7" "cockpit-1".
Proof.
  exact (C9_roundtrip_routing_fields sample_candidate
           eq_refl eq_refl eq_refl).
Defined.

(** ** The deserializer never rejects *)

Lemma substr_total (data : string) (start len : nat) :
  start <= String.length data ->
  substr data start len = Some (String.substring start len data).
Proof.
  intros Hs. unfold substr.
  now replace (Nat.leb start (String.length data)) with true
    by (symmetry; apply Nat.leb_le; exact Hs).
Qed.

(** One field of the skeleton parser: it yields a message, either the
    one it was given or that message with the field updated, and the
    former when the pattern is absent. *)
Lemma parse_field_total (data pat : string) (k : nat)
      (msg : SignalMessage) (upd : SignalMessage -> string -> SignalMessage) :
  String.length pat = k ->
  exists msg',
    match find data pat 0 with
    | Some pos =>
        let start := pos + k in
        match find data Q start with
        | Some end_ =>
            match substr data start (end_ - start) with
            | Some s => Some (upd msg s)
            | None => None
            end
        | None => Some msg
        end
    | None => Some msg
    end = Some msg'
    /\ (msg' = msg \/ exists s, msg' = upd msg s)
    /\ (find data pat 0 = None -> msg' = msg).
Proof.
  intros Hk. destruct (find data pat 0) as [pos|] eqn:Hpos.
  - apply index_bound in Hpos as [_ Hfit]. cbv zeta.
    destruct (find data Q (pos + k)) as [end_|].
    + rewrite substr_total by lia.
      eexists; split; [reflexivity|]. split; [right; eauto | discriminate].
    + exists msg. split; [reflexivity|]. split; [now left | reflexivity].
  - exists msg. split; [reflexivity|]. split; [now left | reflexivity].
Qed.

(** C10: for every input string the deserializer returns a message and
    never the empty optional (no step of the parser can throw); when the
    type pattern is absent the type is UNKNOWN, and an absent sender or
    receiver pattern leaves that field empty. *)
Theorem C10_deserialize_never_rejects (data : string) :
  exists msg,
    DeserializeSignalMessage data = Some msg
    /\ (find data pat_type 0 = None -> type msg = UNKNOWN)
    /\ (find data pat_from 0 = None -> from msg = EmptyString)
    /\ (find data pat_to 0 = None -> to msg = EmptyString).
Proof.
  unfold DeserializeSignalMessage. cbv zeta.
  set (msg0 := SignalMessage_ctor UNKNOWN EmptyString EmptyString).
  destruct (parse_field_total data pat_type 8 msg0
              (fun m s => set_type m (StringToType s)) eq_refl)
    as (m1 & E1 & S1 & N1).
  cbv beta zeta in E1. rewrite E1.
  destruct (parse_field_total data pat_from 8 m1 set_from eq_refl)
    as (m2 & E2 & S2 & N2).
  cbv zeta in E2. rewrite E2.
  destruct (parse_field_total data pat_to 6 m2 set_to eq_refl)
    as (m3 & E3 & S3 & N3).
  cbv zeta in E3. rewrite E3.
  exists m3. split; [reflexivity|].
  assert (Ht : type m3 = type m1).
  { destruct S3 as [->|[s ->]], S2 as [->|[s' ->]]; reflexivity. }
  assert (Hf : from m3 = from m2).
  { destruct S3 as [->|[s ->]]; reflexivity. }
  assert (Hf1 : from m1 = EmptyString).
  { destruct S1 as [->|[s ->]]; reflexivity. }
  assert (Hto : to m2 = EmptyString).
  { destruct S2 as [->|[s ->]], S1 as [->|[s' ->]]; reflexivity. }
  repeat split.
  - intros Hn. rewrite Ht, (N1 Hn). reflexivity.
  - intros Hn. rewrite Hf, (N2 Hn). exact Hf1.
  - intros Hn. rewrite (N3 Hn). exact Hto.
Qed.

(** ** [std::map]: lookup after insertion and erasure *)

Section StdMapFacts.
Context {V : Type}.
Implicit Types (m : StdMap.t V) (k : string) (v : V).

Lemma find_insert_eq k v m : StdMap.find k (StdMap.insert k v m) = Some v.
  Proof.
    induction m as [|[k' v'] m IH]; simpl.
    - now rewrite String.eqb_refl.
    - destruct (String.eqb k k') eqn:E; simpl.
      + now rewrite String.eqb_refl.
      + destruct (String.ltb k k'); simpl.
        * now rewrite String.eqb_refl.
        * now rewrite E.
  Qed.

Lemma find_insert_neq k k' v m :
    k <> k' -> StdMap.find k' (StdMap.insert k v m) = StdMap.find k' m.
  Proof.
    intros N. assert (E : String.eqb k' k = false)
      by (apply String.eqb_neq; congruence).
    induction m as [|[k0 v0] m IH]; simpl.
    - now rewrite E.
    - destruct (String.eqb_spec k k0) as [<-|N0]; simpl.
      + now rewrite E.
      + destruct (String.ltb k k0); simpl.
        * now rewrite E.
        * now rewrite IH.
  Qed.

Lemma find_erase_eq k m : StdMap.find k (StdMap.erase k m) = None.
  Proof.
    induction m as [|[k' v'] m IH]; simpl; [reflexivity|].
    destruct (String.eqb k k') eqn:E; simpl; [exact IH | now rewrite E].
  Qed.

Lemma find_erase_neq k k' m :
    k <> k' -> StdMap.find k' (StdMap.erase k m) = StdMap.find k' m.
  Proof.
    intros N. induction m as [|[k0 v0] m IH]; simpl; [reflexivity|].
    destruct (String.eqb_spec k k0) as [<-|N0]; simpl.
    - rewrite IH. destruct (String.eqb_spec k' k); [congruence | reflexivity].
    - now rewrite IH.
  Qed.

Lemma find_erase_none k k' m :
    StdMap.find k' m = None -> StdMap.find k' (StdMap.erase k m) = None.
  Proof.
    intros Hn. destruct (string_dec k k') as [<-|N].
    - apply find_erase_eq.
    - now rewrite find_erase_neq.
  Qed.

Lemma find_In k v m : StdMap.find k m = Some v -> In (k, v) m.
  Proof.
    induction m as [|[k' v'] m IH]; simpl; [discriminate|].
    destruct (String.eqb_spec k k') as [<-|N].
    - intros [= <-]. now left.
    - intros Hf. right. now apply IH.
  Qed.

Lemma find_map_keys (g : string * V -> string * V) k m :
    (forall e, fst (g e) = fst e) ->
    StdMap.find k (List.map g m) = None <-> StdMap.find k m = None.
  Proof.
    intros Hg. induction m as [|[k' v'] m IH]; cbn; [tauto|].
    specialize (Hg (k', v')). destruct (g (k', v')) as [k2 v2].
    cbn in Hg. subst k2.
    destruct (String.eqb k k'); [split; discriminate | exact IH].
  Qed.

Lemma find_map (h : V -> V) k m :
    StdMap.find k (List.map (fun e => (fst e, h (snd e))) m)
    = option_map h (StdMap.find k m).
  Proof.
    induction m as [|[k' v'] m IH]; simpl; [reflexivity|].
    destruct (String.eqb k k'); [reflexivity | exact IH].
  Qed.

End StdMapFacts.

(** ** The manager: destroying connections *)

Section ManagerFacts.
Context {PC : Type} `{IPeerConnection PC} `{PeerConnectionFactory PC}.
Implicit Types (m : WebrtcManagerImpl PC) (p q : string).

Lemma destroy_present m p reason slot :
    StdMap.find p (peerConnections_ m) = Some slot ->
    destroyPeerConnection m p reason
    = invokePeerDisconnectedCallback
        (with_peerConnections
           (with_reconnectionAttemptCount
              (with_lastHeartbeatRxTime m
                 (StdMap.erase p (lastHeartbeatRxTime_ m)))
              (StdMap.erase p (reconnectionAttemptCount_ m)))
           (StdMap.erase p (peerConnections_ m)))
        p reason.
  Proof. intros E. unfold destroyPeerConnection. now rewrite E. Qed.

Lemma destroy_absent m p reason :
    StdMap.find p (peerConnections_ m) = None ->
    destroyPeerConnection m p reason = m.
  Proof. intros E. unfold destroyPeerConnection. now rewrite E. Qed.

  (** The same case analysis opens every fact about one destruction. *)
Ltac destroy_cases m p reason :=
    let E := fresh "E" in
    destruct (StdMap.find p (peerConnections_ m)) as [?slot|] eqn:E;
    [ rewrite (destroy_present m p reason _ E);
      unfold invokePeerDisconnectedCallback;
      destruct (onPeerDisconnectedHandler_ _) eqn:?; cbn
    | rewrite (destroy_absent m p reason E) ].

Lemma destroy_frame m p reason :
    config_ (destroyPeerConnection m p reason) = config_ m
    /\ state_ (destroyPeerConnection m p reason) = state_ m
    /\ onPeerDisconnectedHandler_ (destroyPeerConnection m p reason)
       = onPeerDisconnectedHandler_ m.
  Proof. destroy_cases m p reason; repeat split; auto. Qed.

Lemma destroy_index_self m p reason :
    StdMap.find p (peerConnections_ (destroyPeerConnection m p reason))
    = None.
  Proof. destroy_cases m p reason; auto using find_erase_eq. Qed.

Lemma destroy_index_other m p q reason :
    p <> q ->
    StdMap.find q (peerConnections_ (destroyPeerConnection m p reason))
    = StdMap.find q (peerConnections_ m).
  Proof. intros N. destroy_cases m p reason; auto using find_erase_neq. Qed.

Lemma destroy_heartbeat_self m p reason :
    StdMap.find p (peerConnections_ m) <> None ->
    StdMap.find p (lastHeartbeatRxTime_ (destroyPeerConnection m p reason))
    = None.
  Proof.
    intros Hp. destroy_cases m p reason; auto using find_erase_eq.
    congruence.
  Qed.

Lemma destroy_heartbeat_other m p q reason :
    p <> q ->
    StdMap.find q (lastHeartbeatRxTime_ (destroyPeerConnection m p reason))
    = StdMap.find q (lastHeartbeatRxTime_ m).
  Proof. intros N. destroy_cases m p reason; auto using find_erase_neq. Qed.

Lemma destroy_heartbeat_none m p q reason :
    StdMap.find q (lastHeartbeatRxTime_ m) = None ->
    StdMap.find q (lastHeartbeatRxTime_ (destroyPeerConnection m p reason))
    = None.
  Proof. intros N. destroy_cases m p reason; auto using find_erase_none. Qed.

Lemma destroy_attempts_self m p reason :
    StdMap.find p (peerConnections_ m) <> None ->
    StdMap.find p
      (reconnectionAttemptCount_ (destroyPeerConnection m p reason))
    = None.
  Proof.
    intros Hp. destroy_cases m p reason; auto using find_erase_eq.
    congruence.
  Qed.

Lemma destroy_attempts_none m p q reason :
    StdMap.find q (reconnectionAttemptCount_ m) = None ->
    StdMap.find q
      (reconnectionAttemptCount_ (destroyPeerConnection m p reason))
    = None.
  Proof. intros N. destroy_cases m p reason; auto using find_erase_none. Qed.

  (** What one destruction adds to the log. *)
Lemma destroy_log m p reason :
    log_ (destroyPeerConnection m p reason)
    = (log_ m
       ++ match StdMap.find p (peerConnections_ m) with
          | Some _ =>
              if onPeerDisconnectedHandler_ m
              then [AppPeerDisconnected p reason] else []
          | None => []
          end)%list.
  Proof.
    destroy_cases m p reason; cbn in *;
      [reflexivity | now rewrite app_nil_r | now rewrite app_nil_r].
  Qed.

Lemma disconnect_all_cons p peers m :
    disconnect_all (p :: peers) m
    = disconnect_all peers (destroyPeerConnection m p "Heartbeat lost").
  Proof. reflexivity. Qed.

Lemma disconnect_all_frame peers : forall m,
    config_ (disconnect_all peers m) = config_ m
    /\ state_ (disconnect_all peers m) = state_ m
    /\ onPeerDisconnectedHandler_ (disconnect_all peers m)
       = onPeerDisconnectedHandler_ m.
  Proof.
    induction peers as [|p peers IH]; intros m; [cbn; auto|]; rewrite disconnect_all_cons.
    destruct (IH (destroyPeerConnection m p "Heartbeat lost")) as (a & b & c).
    destruct (destroy_frame m p "Heartbeat lost") as (a' & b' & c').
    repeat split; congruence.
  Qed.

Lemma disconnect_all_index_none peers : forall m q,
    StdMap.find q (peerConnections_ m) = None ->
    StdMap.find q (peerConnections_ (disconnect_all peers m)) = None.
  Proof.
    induction peers as [|p peers IH]; intros m q Hn; [exact Hn|]; rewrite disconnect_all_cons.
    apply IH. destruct (string_dec p q) as [<-|N].
    - apply destroy_index_self.
    - now rewrite destroy_index_other.
  Qed.

Lemma disconnect_all_index_in peers : forall m q,
    In q peers ->
    StdMap.find q (peerConnections_ (disconnect_all peers m)) = None.
  Proof.
    induction peers as [|p peers IH]; intros m q Hin; [contradiction|].
    rewrite disconnect_all_cons. destruct (string_dec p q) as [<-|N].
    - apply disconnect_all_index_none, destroy_index_self.
    - destruct Hin as [->|Hin]; [contradiction|]. now apply IH.
  Qed.

Lemma disconnect_all_index_out peers : forall m q,
    ~ In q peers ->
    StdMap.find q (peerConnections_ (disconnect_all peers m))
    = StdMap.find q (peerConnections_ m).
  Proof.
    induction peers as [|p peers IH]; intros m q Hout; [reflexivity|].
    rewrite disconnect_all_cons. rewrite IH by (intros Hin; apply Hout; now right).
    apply destroy_index_other. intros ->. apply Hout. now left.
  Qed.

Lemma disconnect_all_heartbeat_none peers : forall m q,
    StdMap.find q (lastHeartbeatRxTime_ m) = None ->
    StdMap.find q (lastHeartbeatRxTime_ (disconnect_all peers m)) = None.
  Proof.
    induction peers as [|p peers IH]; intros m q Hn; [exact Hn|]; rewrite disconnect_all_cons.
    now apply IH, destroy_heartbeat_none.
  Qed.

Lemma disconnect_all_heartbeat_in peers : forall m q,
    In q peers ->
    StdMap.find q (peerConnections_ m) <> None ->
    StdMap.find q (lastHeartbeatRxTime_ (disconnect_all peers m)) = None.
  Proof.
    induction peers as [|p peers IH]; intros m q Hin Hq; [contradiction|].
    rewrite disconnect_all_cons. destruct (string_dec p q) as [<-|N].
    - now apply disconnect_all_heartbeat_none, destroy_heartbeat_self.
    - destruct Hin as [->|Hin]; [contradiction|].
      apply IH; [exact Hin|]. now rewrite destroy_index_other.
  Qed.

Lemma disconnect_all_heartbeat_out peers : forall m q,
    ~ In q peers ->
    StdMap.find q (lastHeartbeatRxTime_ (disconnect_all peers m))
    = StdMap.find q (lastHeartbeatRxTime_ m).
  Proof.
    induction peers as [|p peers IH]; intros m q Hout; [reflexivity|].
    rewrite disconnect_all_cons. rewrite IH by (intros Hin; apply Hout; now right).
    apply destroy_heartbeat_other. intros ->. apply Hout. now left.
  Qed.

Lemma disconnect_all_attempts_none peers : forall m q,
    StdMap.find q (reconnectionAttemptCount_ m) = None ->
    StdMap.find q (reconnectionAttemptCount_ (disconnect_all peers m))
    = None.
  Proof.
    induction peers as [|p peers IH]; intros m q Hn; [exact Hn|]; rewrite disconnect_all_cons.
    now apply IH, destroy_attempts_none.
  Qed.

Lemma disconnect_all_attempts_in peers : forall m q,
    In q peers ->
    StdMap.find q (peerConnections_ m) <> None ->
    StdMap.find q (reconnectionAttemptCount_ (disconnect_all peers m))
    = None.
  Proof.
    induction peers as [|p peers IH]; intros m q Hin Hq; [contradiction|].
    rewrite disconnect_all_cons. destruct (string_dec p q) as [<-|N].
    - now apply disconnect_all_attempts_none, destroy_attempts_self.
    - destruct Hin as [->|Hin]; [contradiction|].
      apply IH; [exact Hin|]. now rewrite destroy_index_other.
  Qed.

  (** The log only grows, and only by disconnect notifications that
      carry the reason of the heartbeat check. *)
Lemma disconnect_all_log peers : forall m,
    exists added,
      log_ (disconnect_all peers m) = (log_ m ++ added)%list
      /\ (forall e, In e added ->
            exists q, In q peers
                      /\ e = AppPeerDisconnected q "Heartbeat lost")
      /\ (onPeerDisconnectedHandler_ m = true ->
          forall q, In q peers ->
            StdMap.find q (peerConnections_ m) <> None ->
            In (AppPeerDisconnected q "Heartbeat lost") added).
  Proof.
    induction peers as [|p peers IH]; intros m;
      [|rewrite disconnect_all_cons].
    - exists []. cbn. rewrite app_nil_r. repeat split; intros; contradiction.
    - destruct (IH (destroyPeerConnection m p "Heartbeat lost"))
        as (added & Hlog & Honly & Hall).
      rewrite destroy_log in Hlog.
      destruct (destroy_frame m p "Heartbeat lost") as (_ & _ & Hh).
      eexists. split; [rewrite Hlog, <- app_assoc; reflexivity|]. split.
      + intros e He. apply in_app_or in He as [He|He].
        * exists p. split; [now left|].
          destruct (StdMap.find p (peerConnections_ m)),
                   (onPeerDisconnectedHandler_ m); cbn in He;
            intuition congruence.
        * destruct (Honly e He) as (q & Hq & ->). eauto with datatypes.
      + intros Hon q Hin Hq. apply in_or_app.
        destruct (string_dec p q) as [<-|N].
        * left. rewrite Hon.
          destruct (StdMap.find p (peerConnections_ m));
            [now left | congruence].
        * right. destruct Hin as [->|Hin]; [contradiction|].
          apply Hall; [congruence | exact Hin |].
          now rewrite destroy_index_other.
  Qed.

End ManagerFacts.

(** ** Type tags on the wire *)




(** ** Broadcast *)

Section Broadcast.
Context {PC : Type} `{DataChannelContract PC}.
Implicit Types (m : WebrtcManagerImpl PC) (p q : string).

Lemma broadcast_loop_spec label data pcs : forall any_sent,
    broadcast_loop label data pcs any_sent
    = (List.map (send_in_slot label data) pcs,
       any_sent || List.existsb (slot_accepts label data) pcs).
  Proof.
    induction pcs as [|[p [pc|]] pcs IH]; intros any_sent; cbn.
    - now rewrite orb_false_r.
    - unfold slot_accepts at 1, send_in_slot at 1. cbn [fst snd option_map].
      destruct (SendData pc label data) as [pc' sent].
      rewrite IH. cbn [fst snd]. f_equal. now destruct sent, any_sent.
    - rewrite IH. reflexivity.
  Qed.

Lemma existsb_slot_accepts label data (pcs : StdMap.t (option PC)) :
    List.existsb (slot_accepts label data) pcs = true
    <-> exists p pc, In (p, Some pc) pcs
                     /\ IsDataChannelOpen pc label = true.
  Proof.
    rewrite existsb_exists. split.
    - intros ([p [pc|]] & Hin & Hacc); [|discriminate].
      unfold slot_accepts in Hacc. cbn in Hacc.
      rewrite SendData_result in Hacc. eauto.
    - intros (p & pc & Hin & Hopen). exists (p, Some pc).
      split; [exact Hin|]. unfold slot_accepts. cbn.
      now rewrite SendData_result.
  Qed.

  (** C3 (amended): a broadcast on a manager that is not running sends
      nothing and returns false.  On a running manager the payload is
      handed to the transport of every peer of the index; it is enqueued
      on the channel with that label exactly for the peers where that
      channel is open at the call, nothing is enqueued on a channel that
      is not open or has another label, no peer enters or leaves the
      index, and the call returns true exactly when at least one enqueue
      succeeded (a truth value, not a count). *)
Theorem C3_broadcast_open_channels m label data :
    (state_ m <> Running ->
     sendDataChannelMessageToAllPeers m label data = (m, false))
    /\
    (state_ m = Running ->
     let m' := fst (sendDataChannelMessageToAllPeers m label data) in
     let r := snd (sendDataChannelMessageToAllPeers m label data) in
     (forall p pc,
        StdMap.find p (peerConnections_ m) = Some (Some pc) ->
        exists pc',
          StdMap.find p (peerConnections_ m') = Some (Some pc')
          /\ queued pc' label
             = (if IsDataChannelOpen pc label
                then queued pc label ++ [data]
                else queued pc label)%list
          /\ forall label', label' <> label ->
                            queued pc' label' = queued pc label')
     /\ (forall p,
           StdMap.find p (peerConnections_ m) = None
           <-> StdMap.find p (peerConnections_ m') = None)
     /\ (r = true
         <-> exists p pc, In (p, Some pc) (peerConnections_ m)
                          /\ IsDataChannelOpen pc label = true)).
  Proof.
    unfold sendDataChannelMessageToAllPeers. split.
    - intros Hst. destruct (state_ m); try reflexivity. now elim Hst.
    - intros Hst. rewrite Hst. cbn [AppState_eqb negb].
      rewrite broadcast_loop_spec. cbn [fst snd peerConnections_
                                         with_peerConnections orb].
      unfold send_in_slot.
      rewrite <- existsb_slot_accepts with (data := data).
      repeat split.
      + intros p pc Hp.
        rewrite (find_map
                   (option_map (fun pc => fst (SendData pc label data)))),
          Hp.
        cbn. eexists. split; [reflexivity|]. split.
        * destruct (IsDataChannelOpen pc label) eqn:Ho.
          -- now apply SendData_queued_open.
          -- now apply SendData_queued_not_open.
        * intros label' Hneq. now apply SendData_queued_other.
      + intros Hp.
        rewrite (find_map
                   (option_map (fun pc => fst (SendData pc label data)))),
          Hp.
        reflexivity.
      + rewrite (find_map
                   (option_map (fun pc => fst (SendData pc label data)))).
        destruct (StdMap.find p (peerConnections_ m));
          [discriminate | reflexivity].
      + intros Hr. exact Hr.
      + intros Hr. exact Hr.
  Qed.

End Broadcast.

Lemma C3_broadcast_witness :
  state_ fleet_manager = Running
  /\ let m' :=
       fst (sendDataChannelMessageToAllPeers
              fleet_manager "telemetry" telemetry_frame) in
     let r :=
       snd (sendDataChannelMessageToAllPeers
              fleet_manager "telemetry" telemetry_frame) in
     (forall p pc,
        StdMap.find p (peerConnections_ fleet_manager) = Some (Some pc) ->
        exists pc',
          StdMap.find p (peerConnections_ m') = Some (Some pc')
          /\ queued pc' "telemetry"
             = (if IsDataChannelOpen pc "telemetry"
                then queued pc "telemetry" ++ [telemetry_frame]
                else queued pc "telemetry")%list
          /\ forall label', label' <> "telemetry" ->
                            queued pc' label' = queued pc label')
     /\ (forall p,
           StdMap.find p (peerConnections_ fleet_manager) = None
           <-> StdMap.find p (peerConnections_ m') = None)
     /\ (r = true
         <-> exists p pc, In (p, Some pc) (peerConnections_ fleet_manager)
                          /\ IsDataChannelOpen pc "telemetry" = true).
Proof.
  split; [reflexivity|].
  exact (proj2 (C3_broadcast_open_channels
                  fleet_manager "telemetry" telemetry_frame) eq_refl).
Defined.

(** The broadcast on the fleet: the frame is queued for the two cockpits
    with the channel open, not for the third, and the call returns
    [true]. *)
Example fleet_broadcast :
  let '(m', r) :=
    sendDataChannelMessageToAllPeers fleet_manager "telemetry"
                                     telemetry_frame in
  r = true
  /\ List.map
       (fun e : string * option SimTransport.t =>
          (fst e, option_map SimTransport.sent (snd e)))
       (peerConnections_ m')
     = [ ("cockpit-1", Some [("telemetry", telemetry_frame)]);
         ("cockpit-2", Some [("telemetry", telemetry_frame)]);
         ("cockpit-3", Some []) ].
Proof. split; reflexivity. Qed.

(** C3, as stated, fails: with two open channels the frame is enqueued
    twice, yet the call returns the truth value [true], which reads as
    1; and in a manager that is not running, the same open channels
    receive nothing. *)
Lemma C3_count_counterexample :
  ~ broadcast_returns_count fleet_manager "telemetry" telemetry_frame
  /\ open_peers "telemetry" (peerConnections_ stopping_manager) = 2
  /\ sendDataChannelMessageToAllPeers stopping_manager "telemetry"
                                      telemetry_frame
     = (stopping_manager, false).
Proof.
  split; [|split; reflexivity].
  unfold broadcast_returns_count. cbv. discriminate.
Qed.

(** ** JavaScript maps *)

Section JsMapFacts.
Context {K V : Type} (eqb : K -> K -> bool).
Hypothesis eqb_spec : forall a b, reflect (a = b) (eqb a b).
Implicit Types (m : list (K * V)) (k : K) (v : V).

Lemma get_set_eq k v m :
    Relay.map_get eqb k (Relay.map_set eqb k v m) = Some v.
  Proof.
    unfold Relay.map_get.
    induction m as [|[k' v'] m IH]; cbn.
    - now destruct (eqb_spec k k).
    - destruct (eqb_spec k k') as [<-|N]; cbn.
      + now destruct (eqb_spec k k).
      + now destruct (eqb_spec k k').
  Qed.

Lemma get_set_neq k k' v m :
    k <> k' ->
    Relay.map_get eqb k' (Relay.map_set eqb k v m) = Relay.map_get eqb k' m.
  Proof.
    intros N. unfold Relay.map_get.
    induction m as [|[k0 v0] m IH]; cbn.
    - destruct (eqb_spec k' k); [congruence | reflexivity].
    - destruct (eqb_spec k k0) as [<-|N0]; cbn.
      + destruct (eqb_spec k' k); [congruence | reflexivity].
      + now rewrite IH.
  Qed.

Lemma get_delete_eq k m :
    Relay.map_get eqb k (Relay.map_delete eqb k m) = None.
  Proof.
    unfold Relay.map_get.
    induction m as [|[k' v'] m IH]; cbn; [reflexivity|].
    destruct (eqb_spec k k') as [<-|N]; cbn; [exact IH|].
    now destruct (eqb_spec k k').
  Qed.

Lemma get_delete_neq k k' m :
    k <> k' ->
    Relay.map_get eqb k' (Relay.map_delete eqb k m) = Relay.map_get eqb k' m.
  Proof.
    intros N. unfold Relay.map_get.
    induction m as [|[k0 v0] m IH]; cbn; [reflexivity|].
    destruct (eqb_spec k k0) as [<-|N0]; cbn.
    - rewrite IH. destruct (eqb_spec k' k); [congruence | reflexivity].
    - now rewrite IH.
  Qed.

Lemma get_In k v m : Relay.map_get eqb k m = Some v -> In (k, v) m.
  Proof.
    unfold Relay.map_get.
    induction m as [|[k' v'] m IH]; cbn; [discriminate|].
    destruct (eqb_spec k k') as [<-|N].
    - intros [= <-]. now left.
    - intros Hg. right. now apply IH.
  Qed.

Lemma In_delete k k' v m :
    In (k', v) (Relay.map_delete eqb k m) <-> In (k', v) m /\ k' <> k.
  Proof.
    induction m as [|[k0 v0] m IH]; cbn; [tauto|].
    destruct (eqb_spec k k0) as [<-|N0]; cbn; rewrite IH.
    - split; [tauto|]. intros [[E|Hin] Hn]; [congruence | tauto].
    - split; [|tauto]. intros [E|[Hin Hn]]; [|tauto].
      split; [now left | congruence].
  Qed.

Lemma keys_set k v m k' :
    In k' (List.map fst (Relay.map_set eqb k v m))
    <-> k' = k \/ In k' (List.map fst m).
  Proof.
    induction m as [|[k0 v0] m IH]; cbn; [intuition congruence|].
    destruct (eqb_spec k k0) as [<-|N0]; cbn; [intuition congruence|].
    rewrite IH. intuition congruence.
  Qed.

  (** One binding per key stays one binding per key. *)
Lemma NoDup_keys_set k v m :
    NoDup (List.map fst m) -> NoDup (List.map fst (Relay.map_set eqb k v m)).
  Proof.
    induction m as [|[k0 v0] m IH]; cbn; intros Hnd.
    - constructor; [intros [] | constructor].
    - inversion_clear Hnd as [|? ? Hnotin Hnd'].
      destruct (eqb_spec k k0) as [<-|N0]; cbn.
      + now constructor.
      + constructor; [|now apply IH].
        rewrite keys_set. intuition congruence.
  Qed.

End JsMapFacts.

(** ** The relay: routing *)

Lemma strict_eq_string_true (v : JsValue) (s : string) :
  strict_eq_string v s = true -> v = JString s.
Proof.
  destruct v; cbn; try discriminate.
  intros E. apply String.eqb_eq in E. now subst.
Qed.

Section Routing.
Variables (st : State) (senderWs : WebSocket) (A : string).
Let sent_since := sent_since st senderWs A.

Lemma sent_nothing st0 : wire st0 = wire st -> sent_since st0.
  Proof.
    intros E. exists []. rewrite app_nil_r. split; [exact E | constructor].
  Qed.

Lemma sent_one st0 ws msg :
    wire st0 = wire st -> routed_for senderWs A (ws, msg) ->
    sent_since (sendMessage st0 ws msg).
  Proof.
    intros E Hok. unfold sendMessage.
    destruct (readyState st0 ws); try (now apply sent_nothing).
    exists [(ws, msg)]. cbn. rewrite E. split; [reflexivity|].
    now constructor.
  Qed.

Lemma sent_then_target st0 ws info v :
    sent_since st0 -> sent_since (set_targetId st0 ws info v).
  Proof. intros H. exact H. Qed.

End Routing.

(** C2: for every message the relay receives on an authenticated link,
    if the message's from field differs from the link's authenticated
    identity the relay does nothing at all (no state change, nothing
    sent); and whatever the relay puts on any socket while handling a
    message of that link either carries from equal to that identity or
    is the relay's own error reply to the sender, so every forwarded
    message carries the authenticated identity of its sender. *)
Theorem C2_relay_checks_sender (st : State) (senderWs : WebSocket)
        (senderInfo : ClientInfo) (message : JsObject) :
  map_get Nat.eqb senderWs (connectedClients st) = Some senderInfo ->
  (strict_eq_string (prop message "from") (id senderInfo) = false ->
   routeMessage st senderWs message = st)
  /\ sent_since st senderWs (id senderInfo)
                (routeMessage st senderWs message).
Proof.
  intros Hauth. unfold routeMessage. rewrite Hauth.
  destruct (strict_eq_string (prop message "from") (id senderInfo))
    eqn:Efrom; cbn [negb].
  2: { split; [reflexivity | now apply sent_nothing]. }
  split; [discriminate|].
  apply strict_eq_string_true in Efrom.
  assert (Hreply : forall text,
             routed_for senderWs (id senderInfo)
                        (senderWs, error_reply (id senderInfo) text)).
  { intros text. right. repeat split. }
  destruct (strict_eq_string (prop message "type") "join").
  { destruct (truthy _); cbn [negb]; [|now apply sent_nothing].
    destruct (live_target _ _).
    - apply sent_one; [reflexivity | now left].
    - apply sent_then_target, sent_one; [reflexivity | apply Hreply]. }
  destruct (strict_eq_string (prop message "type") "leave").
  { apply sent_then_target.
    destruct (truthy (targetId senderInfo)); [|now apply sent_nothing].
    destruct (live_target _ _); [|now apply sent_nothing].
    apply sent_one; [reflexivity | now left]. }
  destruct (_ || _).
  { destruct (truthy _); cbn [negb]; [|now apply sent_nothing].
    destruct (live_target _ _).
    - apply sent_one; [reflexivity | now left].
    - apply sent_one; [reflexivity | apply Hreply]. }
  apply sent_one; [reflexivity | apply Hreply].
Qed.

Lemma C2_relay_checks_sender_witness :
  (strict_eq_string (prop spoofed_offer "from") "cockpit-1" = false ->
   routeMessage paired_relay 2 spoofed_offer = paired_relay)
  /\ sent_since paired_relay 2 "cockpit-1"
                (routeMessage paired_relay 2 spoofed_offer).
Proof.
  exact (C2_relay_checks_sender paired_relay 2
           (mkClientInfo "cockpit-1" JNull) spoofed_offer eq_refl).
Defined.

Example honest_offer_is_forwarded :
  wire (routeMessage paired_relay 2 honest_offer)
  = (wire paired_relay ++ [(1, honest_offer)])%list.
Proof. reflexivity. Qed.

Example join_reaches_the_vehicle :
  wire joined_relay
  = [ (1, [ ("type", JString "join_request");
            ("from", JString "cockpit-1"); ("to", JString "vehicle-7");
            ("data", JObject [("clientId", JString "cockpit-1")]) ]) ]
  /\ map_get Nat.eqb 2 (connectedClients joined_relay)
     = Some (mkClientInfo "cockpit-1" (JString "vehicle-7")).
Proof. split; reflexivity. Qed.

(** ** The relay: the directory *)

(** C5 (amended): a link that is already connected is not added again.
    Any other link is accepted under the identity it presents, whether or
    not that identity is already registered: it joins the connected
    clients, and the directory entry of that identity now points to it
    (the newest link displaces the older one in the directory), while
    every other connected link stays connected and every other directory
    entry stays as it was; the directory keeps one entry per
    identity. *)
Theorem C5_directory_newest_link_wins (st : State) (ws : WebSocket)
        (clientId : string) :
  (map_get Nat.eqb ws (connectedClients st) <> None ->
   addClient st ws clientId = st)
  /\
  (map_get Nat.eqb ws (connectedClients st) = None ->
   let st' := addClient st ws clientId in
   map_get Nat.eqb ws (connectedClients st')
   = Some (mkClientInfo clientId JNull)
   /\ map_get String.eqb clientId (sessions st') = Some ws
   /\ (forall ws', ws' <> ws ->
         map_get Nat.eqb ws' (connectedClients st')
         = map_get Nat.eqb ws' (connectedClients st))
   /\ (forall k, k <> clientId ->
         map_get String.eqb k (sessions st')
         = map_get String.eqb k (sessions st))
   /\ (NoDup (List.map fst (sessions st)) ->
       NoDup (List.map fst (sessions st')))).
Proof.
  unfold addClient, map_has. split.
  - intros Hin. destruct (map_get Nat.eqb ws (connectedClients st));
      [reflexivity | congruence].
  - intros Hnew. rewrite Hnew. cbn. repeat split.
    + apply (get_set_eq _ Nat.eqb_spec).
    + apply (get_set_eq _ String.eqb_spec).
    + intros ws' N. apply (get_set_neq _ Nat.eqb_spec). congruence.
    + intros k N. apply (get_set_neq _ String.eqb_spec). congruence.
    + apply (NoDup_keys_set _ String.eqb_spec).
Qed.

Lemma C5_directory_witness :
  let st' := addClient vehicle_relay 2 "vehicle-7" in
  map_get Nat.eqb 2 (connectedClients st')
  = Some (mkClientInfo "vehicle-7" JNull)
  /\ map_get String.eqb "vehicle-7" (sessions st') = Some 2
  /\ (forall ws', ws' <> 2 ->
        map_get Nat.eqb ws' (connectedClients st')
        = map_get Nat.eqb ws' (connectedClients vehicle_relay))
  /\ (forall k, k <> "vehicle-7" ->
        map_get String.eqb k (sessions st')
        = map_get String.eqb k (sessions vehicle_relay))
  /\ (NoDup (List.map fst (sessions vehicle_relay)) ->
      NoDup (List.map fst (sessions st'))).
Proof.
  exact (proj2 (C5_directory_newest_link_wins vehicle_relay 2 "vehicle-7")
               eq_refl).
Defined.

(** C5, as stated, fails: with the vehicle connected on socket 1, a
    second link (socket 2) presenting the same identity is accepted;
    both links are then connected under that identity, and the directory
    points to the second. *)
Lemma C5_second_claim_counterexample :
  ~ second_claim_rejected vehicle_relay 2 "vehicle-7"
  /\ ~ one_link_per_id (addClient vehicle_relay 2 "vehicle-7")
  /\ map_get String.eqb "vehicle-7"
       (sessions (addClient vehicle_relay 2 "vehicle-7")) = Some 2.
Proof.
  split; [|split; [|reflexivity]].
  - intros Hclaim. assert (Habs := Hclaim ltac:(discriminate)).
    discriminate Habs.
  - intros Hclaim.
    assert (Habs : 1 = 2)
      by (apply (Hclaim 1 2 (mkClientInfo "vehicle-7" JNull)
                        (mkClientInfo "vehicle-7" JNull));
          reflexivity).
    discriminate Habs.
Qed.

(** ** The relay: departure *)

Lemma sendMessage_eq (st : State) (ws : WebSocket) (msg : JsObject) :
  sendMessage st ws msg
  = mkState (connectedClients st) (sessions st) (readyState st)
            (wire st ++ if is_OPEN (readyState st ws)
                        then [(ws, msg)] else [])%list.
Proof.
  unfold sendMessage.
  destruct (readyState st ws); cbn; try reflexivity;
    rewrite app_nil_r; now destruct st.
Qed.

Lemma notify_fold (clientInfo : ClientInfo)
      (l : list (WebSocket * ClientInfo)) :
  forall st0,
    List.fold_left
      (fun st (entry : WebSocket * ClientInfo) =>
         let (otherWs, otherClientInfo) := entry in
         if strict_eq_string (targetId otherClientInfo) (id clientInfo)
         then sendMessage st otherWs
                (leave_notice (id clientInfo) (id otherClientInfo))
         else st)
      l st0
    = mkState (connectedClients st0) (sessions st0) (readyState st0)
              (wire st0
               ++ partner_notices (readyState st0) (id clientInfo) l)%list.
Proof.
  induction l as [|[ows oinfo] l IH]; intros st0.
  - cbn. rewrite app_nil_r. now destruct st0.
  - cbn [List.fold_left]. rewrite IH. unfold partner_notices.
    cbn [List.filter fst snd].
    destruct (strict_eq_string (targetId oinfo) (id clientInfo));
      cbn [andb]; [|reflexivity].
    rewrite sendMessage_eq. cbn [connectedClients sessions readyState wire].
    destruct (is_OPEN (readyState st0 ows)); cbn [List.map fst snd].
    + now rewrite <- app_assoc.
    + now rewrite app_nil_r.
Qed.

Lemma first_key_of_In (ws : WebSocket) (m : list (string * WebSocket)) k :
  first_key_of ws m = Some k -> In (k, ws) m.
Proof.
  induction m as [|[k0 w0] m IH]; cbn; [discriminate|].
  destruct (Nat.eqb_spec w0 ws) as [->|N].
  - intros [= ->]. now left.
  - intros Hk. right. now apply IH.
Qed.

Lemma first_key_of_get (ws : WebSocket) (m : list (string * WebSocket)) A :
  map_get String.eqb A m = Some ws -> exists k, first_key_of ws m = Some k.
Proof.
  unfold map_get. induction m as [|[k0 w0] m IH]; cbn; [discriminate|].
  destruct (Nat.eqb_spec w0 ws) as [->|N]; [eauto|].
  destruct (String.eqb A k0); [congruence | exact IH].
Qed.

(** Under [directory_ok] the entry the loop of [removeClient] finds for
    the closing link is the entry of its identity. *)
Lemma closing_link_entry (st : State) (ws : WebSocket)
      (clientInfo : ClientInfo) :
  directory_ok st ->
  map_get Nat.eqb ws (connectedClients st) = Some clientInfo ->
  map_get String.eqb (id clientInfo) (sessions st) = Some ws ->
  first_key_of ws (sessions st) = Some (id clientInfo).
Proof.
  intros Hok Hc Hs.
  destruct (first_key_of_get _ _ _ Hs) as [k Hk]. rewrite Hk. f_equal.
  destruct (Hok _ _ (first_key_of_In _ _ _ Hk)) as (info & Hinfo & <-).
  congruence.
Qed.

(** C6 (amended): when the link the directory holds for the identity A
    closes, the relay removes the link from the connected clients and A
    from the directory, and sends Leave(from=A, to=P, reason="Peer
    disconnected") to every other connected client P whose target is A
    and whose socket is open, and nothing else; every other client,
    P included, keeps its record unchanged: P's target stays A. *)
Theorem C6_departure_notifies_partners (st : State) (ws : WebSocket)
        (clientInfo : ClientInfo) :
  directory_ok st ->
  map_get Nat.eqb ws (connectedClients st) = Some clientInfo ->
  map_get String.eqb (id clientInfo) (sessions st) = Some ws ->
  let A := id clientInfo in
  let st' := removeClient st ws in
  map_get Nat.eqb ws (connectedClients st') = None
  /\ map_get String.eqb A (sessions st') = None
  /\ wire st'
     = (wire st
        ++ partner_notices (readyState st) A
             (map_delete Nat.eqb ws (connectedClients st)))%list
  /\ (forall wsP infoP,
        wsP <> ws ->
        map_get Nat.eqb wsP (connectedClients st) = Some infoP ->
        map_get Nat.eqb wsP (connectedClients st') = Some infoP
        /\ (targetId infoP = JString A ->
            readyState st wsP = OPEN ->
            In (wsP, leave_notice A (id infoP)) (wire st'))).
Proof.
  intros Hok Hc Hs A st'. subst A st'. unfold removeClient.
  rewrite Hc. cbn [sessions].
  rewrite (closing_link_entry st ws clientInfo Hok Hc Hs).
  unfold notify_partners. rewrite notify_fold.
  cbn [connectedClients sessions readyState wire].
  split; [apply (get_delete_eq _ Nat.eqb_spec)|].
  split; [apply (get_delete_eq _ String.eqb_spec)|].
  split; [reflexivity|].
  intros wsP infoP Hne HP. split.
  - rewrite (get_delete_neq _ Nat.eqb_spec) by congruence. exact HP.
  - intros Htarget Hopen. apply in_or_app. right.
    unfold partner_notices.
    apply (in_map (fun e : WebSocket * ClientInfo =>
                     (fst e, leave_notice (id clientInfo) (id (snd e))))
                  _ (wsP, infoP)).
    apply filter_In. split.
    + apply (In_delete _ Nat.eqb_spec). split; [|exact Hne].
      now apply (get_In _ Nat.eqb_spec).
    + cbn [fst snd]. rewrite Htarget, Hopen. cbn.
      now rewrite String.eqb_refl.
Qed.

Lemma paired_directory_ok : directory_ok joined_relay.
Proof.
  intros k ws [[= <- <-]|[[= <- <-]|[]]]; eexists; split; reflexivity.
Qed.

Lemma C6_departure_witness :
  let st' := removeClient joined_relay 1 in
  map_get Nat.eqb 1 (connectedClients st') = None
  /\ map_get String.eqb "vehicle-7" (sessions st') = None
  /\ wire st'
     = (wire joined_relay
        ++ partner_notices (readyState joined_relay) "vehicle-7"
             (map_delete Nat.eqb 1 (connectedClients joined_relay)))%list
  /\ (forall wsP infoP,
        wsP <> 1 ->
        map_get Nat.eqb wsP (connectedClients joined_relay) = Some infoP ->
        map_get Nat.eqb wsP (connectedClients st') = Some infoP
        /\ (targetId infoP = JString "vehicle-7" ->
            readyState joined_relay wsP = OPEN ->
            In (wsP, leave_notice "vehicle-7" (id infoP)) (wire st'))).
Proof.
  exact (C6_departure_notifies_partners joined_relay 1
           (mkClientInfo "vehicle-7" JNull)
           paired_directory_ok eq_refl eq_refl).
Defined.

(** The vehicle's link closes: the cockpit is sent the notice. *)
Example vehicle_departure :
  wire (removeClient joined_relay 1)
  = (wire joined_relay
     ++ [(2, leave_notice "vehicle-7" "cockpit-1")])%list
  /\ sessions (removeClient joined_relay 1) = [("cockpit-1", 2)].
Proof. split; reflexivity. Qed.

(** C6, as stated, fails: after the vehicle's link has closed and the
    cockpit has been notified, the cockpit's target is still the
    vehicle; it has not been cleared. *)
Lemma C6_partner_not_cleared_counterexample :
  ~ partner_cleared (removeClient joined_relay 1) 2
  /\ map_get Nat.eqb 2 (connectedClients (removeClient joined_relay 1))
     = Some (mkClientInfo "cockpit-1" (JString "vehicle-7")).
Proof.
  split; [|reflexivity].
  intros (info & Hinfo & Hnull).
  assert (E : info = mkClientInfo "cockpit-1" (JString "vehicle-7"))
    by (cbv in Hinfo; congruence).
  subst info. discriminate Hnull.
Qed.

(** ** The relay: states it can reach *)

Lemma In_set_inv {K V : Type} (eqb : K -> K -> bool) (k k0 : K) (v v0 : V)
      (m : list (K * V)) :
  In (k, v) (map_set eqb k0 v0 m) -> (k, v) = (k0, v0) \/ In (k, v) m.
Proof.
  induction m as [|[k1 v1] m IH]; cbn.
  - intros [E|[]]. now left.
  - destruct (eqb k0 k1); cbn; intuition.
Qed.

Lemma In_first_key_of (ws : WebSocket) (m : list (string * WebSocket)) k :
  In (k, ws) m -> first_key_of ws m <> None.
Proof.
  induction m as [|[k0 w0] m IH]; cbn; [tauto|].
  destruct (Nat.eqb_spec w0 ws) as [->|N]; [discriminate|].
  intros [[= _ E]|Hin]; [congruence | now apply IH].
Qed.

Lemma directory_ok_add (st : State) (ws : WebSocket) (clientId : string) :
  directory_ok st -> directory_ok (addClient st ws clientId).
Proof.
  intros Hok. unfold addClient, map_has.
  destruct (map_get Nat.eqb ws (connectedClients st)) eqn:Hws;
    [exact Hok|].
  intros k w Hin. cbn in Hin |- *.
  apply In_set_inv in Hin as [[= -> ->]|Hin].
  - eexists. split; [apply (get_set_eq _ Nat.eqb_spec) | reflexivity].
  - destruct (Hok _ _ Hin) as (info & Hinfo & Hid).
    exists info. split; [|exact Hid].
    rewrite (get_set_neq _ Nat.eqb_spec); [exact Hinfo | congruence].
Qed.

Lemma directory_ok_remove (st : State) (ws : WebSocket) :
  directory_ok st -> directory_ok (removeClient st ws).
Proof.
  intros Hok. unfold removeClient.
  destruct (map_get Nat.eqb ws (connectedClients st)) as [info|] eqn:Hws;
    [|exact Hok].
  cbn [sessions].
  destruct (first_key_of ws (sessions st)) as [k0|] eqn:Hk0.
  - unfold notify_partners. rewrite notify_fold.
    intros k w Hin. cbn in Hin |- *.
    apply (In_delete _ String.eqb_spec) in Hin as [Hin Hne].
    destruct (Hok _ _ Hin) as (info' & Hinfo' & Hid).
    exists info'. split; [|exact Hid].
    rewrite (get_delete_neq _ Nat.eqb_spec); [exact Hinfo'|].
    intros <-. apply first_key_of_In in Hk0.
    destruct (Hok _ _ Hk0) as (info0 & Hinfo0 & Hid0). congruence.
  - intros k w Hin. cbn in Hin |- *.
    destruct (Hok _ _ Hin) as (info' & Hinfo' & Hid).
    exists info'. split; [|exact Hid].
    rewrite (get_delete_neq _ Nat.eqb_spec); [exact Hinfo'|].
    intros <-. now apply In_first_key_of in Hin.
Qed.

Lemma sender_kept_send ws A st to msg :
  sender_kept ws A st -> sender_kept ws A (sendMessage st to msg).
Proof. rewrite sendMessage_eq. intros H. exact H. Qed.

Lemma sender_kept_target ws st info v :
  sender_kept ws (id info) st ->
  sender_kept ws (id info) (set_targetId st ws info v).
Proof.
  intros [Hok (info0 & Hinfo0 & Hid0)]. split.
  - intros k w Hin. cbn in Hin |- *.
    destruct (Nat.eq_dec ws w) as [<-|N].
    + rewrite (get_set_eq _ Nat.eqb_spec). eexists. split; [reflexivity|].
      cbn. destruct (Hok _ _ Hin) as (info' & Hinfo' & Hid). congruence.
    + rewrite (get_set_neq _ Nat.eqb_spec) by exact N. now apply Hok.
  - cbn. rewrite (get_set_eq _ Nat.eqb_spec). eexists. split; reflexivity.
Qed.

Lemma directory_ok_route (st : State) (ws : WebSocket) (message : JsObject) :
  directory_ok st -> directory_ok (routeMessage st ws message).
Proof.
  intros Hok. unfold routeMessage.
  destruct (map_get Nat.eqb ws (connectedClients st)) as [info|] eqn:Hws;
    [|exact Hok].
  assert (Hkept : sender_kept ws (id info) st) by (split; eauto).
  destruct (negb _); [exact Hok|].
  refine (proj1 (_ : sender_kept ws (id info) _)).
  destruct (strict_eq_string (prop message "type") "join").
  { destruct (negb _); [exact Hkept|].
    destruct (live_target _ _).
    - now apply sender_kept_send, sender_kept_target.
    - now apply sender_kept_target, sender_kept_send, sender_kept_target. }
  destruct (strict_eq_string (prop message "type") "leave").
  { apply sender_kept_target.
    destruct (truthy _); [|exact Hkept].
    destruct (live_target _ _); [|exact Hkept].
    now apply sender_kept_send. }
  destruct (_ || _).
  { destruct (negb _); [exact Hkept|].
    destruct (live_target _ _); now apply sender_kept_send. }
  now apply sender_kept_send.
Qed.

(** Every state the relay can reach has a sound directory. *)
Lemma reachable_directory_ok (st : State) : reachable st -> directory_ok st.
Proof.
  induction 1 as [rs | st ws clientId _ IH | st ws _ IH
                  | st ws message _ IH | st rs _ IH].
  - intros k w [].
  - now apply directory_ok_add.
  - now apply directory_ok_remove.
  - now apply directory_ok_route.
  - exact IH.
Qed.


(* ================================================================== *)
(** * Further properties of the codec *)

(** Only the five lowercase tags of the table name a message type, each
    its own; every other string, whatever its case, is UNKNOWN, and no
    string is read as HEARTBEAT. *)
Theorem string_to_type_exact (s : string) :
  (StringToType s = JOIN <-> s = "join")
  /\ (StringToType s = LEAVE <-> s = "leave")
  /\ (StringToType s = OFFER <-> s = "offer")
  /\ (StringToType s = ANSWER <-> s = "answer")
  /\ (StringToType s = CANDIDATE <-> s = "candidate")
  /\ StringToType s <> HEARTBEAT.
Proof.
  unfold StringToType, stringToTypeMap. cbn [map_find].
  destruct (String.eqb_spec s "unknown") as [->|N0];
    [repeat split; intros; discriminate|].
  destruct (String.eqb_spec s "join") as [->|N1];
    [repeat split; intros; (reflexivity || discriminate)|].
  destruct (String.eqb_spec s "leave") as [->|N2];
    [repeat split; intros; (reflexivity || discriminate)|].
  destruct (String.eqb_spec s "offer") as [->|N3];
    [repeat split; intros; (reflexivity || discriminate)|].
  destruct (String.eqb_spec s "answer") as [->|N4];
    [repeat split; intros; (reflexivity || discriminate)|].
  destruct (String.eqb_spec s "candidate") as [->|N5];
    [repeat split; intros; (reflexivity || discriminate)|].
  repeat split; intros; (contradiction || discriminate).
Qed.

Lemma string_to_type_not_heartbeat (s : string) :
  StringToType s <> HEARTBEAT.
Proof.
  unfold StringToType, stringToTypeMap. cbn [map_find].
  repeat match goal with
         | |- context [String.eqb s ?x] => destruct (String.eqb s x)
         end; discriminate.
Qed.

(** The parser yields a message with the three routing fields alone,
    and its type is never HEARTBEAT. *)
Lemma deserialize_result (data : string) :
  exists t f o,
    DeserializeSignalMessage data = Some (SignalMessage_ctor t f o)
    /\ t <> HEARTBEAT.
Proof.
  unfold DeserializeSignalMessage. cbv zeta.
  set (msg0 := SignalMessage_ctor UNKNOWN EmptyString EmptyString).
  destruct (parse_field_total data pat_type 8 msg0
              (fun m s => set_type m (StringToType s)) eq_refl)
    as (m1 & E1 & S1 & _).
  cbv beta zeta in E1. rewrite E1.
  destruct (parse_field_total data pat_from 8 m1 set_from eq_refl)
    as (m2 & E2 & S2 & _).
  cbv zeta in E2. rewrite E2.
  destruct (parse_field_total data pat_to 6 m2 set_to eq_refl)
    as (m3 & E3 & S3 & _).
  cbv zeta in E3. rewrite E3.
  assert (H1 : exists t, m1 = SignalMessage_ctor t EmptyString EmptyString
                         /\ t <> HEARTBEAT).
  { destruct S1 as [->|[s ->]].
    - exists UNKNOWN. split; [reflexivity | discriminate].
    - exists (StringToType s). split; [reflexivity|].
      apply string_to_type_not_heartbeat. }
  destruct H1 as (t & -> & Ht).
  exists t.
  destruct S2 as [->|[f ->]], S3 as [->|[o ->]];
    do 2 eexists; (split; [reflexivity | exact Ht]).
Qed.

(** Whatever the text, the message the parser returns carries no SDP, no
    candidate, no mid, no line index and no reason: the payload of a
    received message is lost. *)
Theorem deserialize_drops_payload (data : string) (msg : SignalMessage) :
  DeserializeSignalMessage data = Some msg ->
  sdp msg = None /\ candidate msg = None /\ sdpMid msg = None
  /\ sdpMlineIndex msg = None /\ reason msg = None.
Proof.
  intros Hd. destruct (deserialize_result data) as (t & f & o & E & _).
  rewrite E in Hd. injection Hd as <-. repeat split.
Qed.

Lemma deserialize_drops_payload_witness :
  DeserializeSignalMessage (SerializeSignalMessage sample_candidate)
  = Some (SignalMessage_ctor CANDIDATE "vehicle-7" "cockpit-1")
  /\ sdp (SignalMessage_ctor CANDIDATE "vehicle-7" "cockpit-1") = None
  /\ candidate (SignalMessage_ctor CANDIDATE "vehicle-7" "cockpit-1") = None
  /\ sdpMid (SignalMessage_ctor CANDIDATE "vehicle-7" "cockpit-1") = None
  /\ sdpMlineIndex (SignalMessage_ctor CANDIDATE "vehicle-7" "cockpit-1")
     = None
  /\ reason (SignalMessage_ctor CANDIDATE "vehicle-7" "cockpit-1") = None.
Proof.
  split; [reflexivity|].
  exact (deserialize_drops_payload
           (SerializeSignalMessage sample_candidate)
           (SignalMessage_ctor CANDIDATE "vehicle-7" "cockpit-1") eq_refl).
Defined.

(** A double quote in the sender is not escaped: when the sender reads
    [a","to":"e], the serialized text is read back with sender [a] and
    receiver [e], whatever receiver the message named. *)
Theorem quote_in_sender_rewrites_receiver (m : SignalMessage)
        (a e : string) :
  routable (type m) = true ->
  no_dquote a = true -> no_dquote e = true ->
  from m = a ++ Q ++ "," ++ pat_to ++ e ->
  DeserializeSignalMessage (SerializeSignalMessage m)
  = Some (SignalMessage_ctor (type m) a e).
Proof.
  intros Ht Ha He Hfrom.
  destruct (serialize_shape m) as [tail ->].
  destruct (type_tag_roundtrip _ Ht) as [Hrt Hq].
  rewrite Hfrom.
  replace (wire_text (TypeToString (type m))
                     (a ++ Q ++ "," ++ pat_to ++ e) (to m) tail)
    with (wire_text (TypeToString (type m)) a e
                    ("," ++ pat_to ++ to m ++ Q ++ tail))
    by (unfold wire_text; now rewrite !append_assoc).
  now rewrite (deserialize_wire_text _ _ _ _ Hq Ha He), Hrt.
Qed.

Lemma quote_in_sender_witness :
  DeserializeSignalMessage (SerializeSignalMessage forged_offer)
  = Some (SignalMessage_ctor OFFER "mallory" "vehicle-7").
Proof.
  exact (quote_in_sender_rewrites_receiver forged_offer "mallory" "vehicle-7"
           eq_refl eq_refl eq_refl eq_refl).
Defined.

(* ================================================================== *)
(** * Further properties of the manager *)

Section SignalingPath.
Context {PC : Type} `{IPeerConnection PC} `{PeerConnectionFactory PC}.
Implicit Types (m : WebrtcManagerImpl PC) (p q : string).

Lemma count_find {V : Type} (k : string) (l : StdMap.t V) :
  StdMap.count k l = true <-> StdMap.find k l <> None.
Proof.
  unfold StdMap.count. destruct (StdMap.find k l); split;
    intros; congruence.
Qed.

(** What they leave alone, and the one thing they may report. *)
Lemma peer_error_frame m p text :
  let m' := invokePeerErrorCallback m p text in
  peerConnections_ m' = peerConnections_ m
  /\ lastHeartbeatRxTime_ m' = lastHeartbeatRxTime_ m
  /\ reconnectionAttemptCount_ m' = reconnectionAttemptCount_ m
  /\ forall e, In e (log_ m') -> In e (log_ m) \/ e = AppPeerError p text.
Proof.
  unfold invokePeerErrorCallback.
  destruct (onPeerErrorHandler_ m); cbn; repeat split; auto.
  intros e He. apply in_app_or in He as [He|[He|[]]]; auto.
Qed.

Lemma signaling_error_frame m text :
  let m' := invokeSignalingErrorCallback m text in
  peerConnections_ m' = peerConnections_ m
  /\ lastHeartbeatRxTime_ m' = lastHeartbeatRxTime_ m
  /\ reconnectionAttemptCount_ m' = reconnectionAttemptCount_ m
  /\ forall e, In e (log_ m') -> In e (log_ m) \/ e = AppSignalingError text.
Proof.
  unfold invokeSignalingErrorCallback.
  destruct (onSignalingErrorHandler_ m); cbn; repeat split; auto.
  intros e He. apply in_app_or in He as [He|[He|[]]]; auto.
Qed.

Lemma get_or_create_frame m p :
  let m1 := fst (getOrCreatePeerConnection m p) in
  lastHeartbeatRxTime_ m1 = lastHeartbeatRxTime_ m
  /\ reconnectionAttemptCount_ m1 = reconnectionAttemptCount_ m
  /\ log_ m1 = log_ m
  /\ (forall q, q <> p ->
        StdMap.find q (peerConnections_ m1)
        = StdMap.find q (peerConnections_ m))
  /\ (forall slot, StdMap.find p (peerConnections_ m) = Some slot ->
        peerConnections_ m1 = peerConnections_ m).
Proof.
  unfold getOrCreatePeerConnection.
  destruct (StdMap.find p (peerConnections_ m)) as [slot|] eqn:Ep; cbn.
  - repeat split; auto.
  - destruct (createPeerConnection p) as [pc|]; cbn; repeat split; auto;
      try discriminate.
    intros q N. apply find_insert_neq. congruence.
Qed.

(** A signaling message from peer p touches p's slot of the index and
    nothing else: every other peer keeps its connection and its recorded
    heartbeat, the reconnection counts are untouched, and no connection,
    p's included, leaves the index. *)
Theorem signaling_message_touches_only_sender now m message :
  let m' := handleSignalingMessage now m message in
  (forall q, q <> from message ->
     StdMap.find q (peerConnections_ m')
     = StdMap.find q (peerConnections_ m)
     /\ StdMap.find q (lastHeartbeatRxTime_ m')
        = StdMap.find q (lastHeartbeatRxTime_ m))
  /\ reconnectionAttemptCount_ m' = reconnectionAttemptCount_ m
  /\ (StdMap.find (from message) (peerConnections_ m) <> None ->
      StdMap.find (from message) (peerConnections_ m') <> None).
Proof.
  unfold handleSignalingMessage.
  set (p := from message).
  pose proof (get_or_create_frame m p) as (Fhb & Frc & _ & Fother & Fsame).
  destruct (getOrCreatePeerConnection m p) as [m1 slot] eqn:Eg.
  cbn [fst] in Fhb, Frc, Fother, Fsame.
  assert (Fkeep : StdMap.find p (peerConnections_ m) <> None ->
                  StdMap.find p (peerConnections_ m1) <> None).
  { destruct (StdMap.find p (peerConnections_ m)) as [s|] eqn:Ep;
      [|congruence]. intros _. now rewrite (Fsame s eq_refl), Ep. }
  assert (Hstore : forall pc',
             (forall q, q <> p ->
                StdMap.find q (peerConnections_ (store_pc m1 p pc'))
                = StdMap.find q (peerConnections_ m)
                /\ StdMap.find q (lastHeartbeatRxTime_ (store_pc m1 p pc'))
                   = StdMap.find q (lastHeartbeatRxTime_ m))
             /\ reconnectionAttemptCount_ (store_pc m1 p pc')
                = reconnectionAttemptCount_ m
             /\ (StdMap.find p (peerConnections_ m) <> None ->
                 StdMap.find p (peerConnections_ (store_pc m1 p pc'))
                 <> None)).
  { intros pc'. cbn. repeat split.
    - rewrite find_insert_neq by congruence. now apply Fother.
    - now rewrite Fhb.
    - exact Frc.
    - intros _. rewrite find_insert_eq. discriminate. }
  assert (Herr : forall text,
             (forall q, q <> p ->
                StdMap.find q
                  (peerConnections_ (invokePeerErrorCallback m1 p text))
                = StdMap.find q (peerConnections_ m)
                /\ StdMap.find q
                     (lastHeartbeatRxTime_
                        (invokePeerErrorCallback m1 p text))
                   = StdMap.find q (lastHeartbeatRxTime_ m))
             /\ reconnectionAttemptCount_
                  (invokePeerErrorCallback m1 p text)
                = reconnectionAttemptCount_ m
             /\ (StdMap.find p (peerConnections_ m) <> None ->
                 StdMap.find p
                   (peerConnections_ (invokePeerErrorCallback m1 p text))
                 <> None)).
  { intros text.
    destruct (peer_error_frame m1 p text) as (Ei & Eh & Er & _).
    rewrite Ei, Eh, Er.
    repeat split; auto; first [now apply Fother | now rewrite Fhb]. }
  destruct (type message).
  - destruct (signaling_error_frame m
                ("Received unknown signal message type from " ++ p))
      as (Ei & Eh & Er & _).
    rewrite Ei, Eh, Er. repeat split; auto.
  - repeat split; auto.
  - destruct (StdMap.count p (peerConnections_ m));
      [|repeat split; auto].
    destruct (StdMap.find p (peerConnections_ m)) as [[pc|]|] eqn:Ep; cbn;
      repeat split; auto; rewrite ?Ep; auto;
      first [ apply find_insert_neq; congruence
            | intros _; rewrite find_insert_eq; discriminate ].
  - destruct slot as [pc|]; [destruct (sdp message)|]; auto.
  - destruct slot as [pc|]; [destruct (sdp message)|]; auto.
  - destruct slot as [pc|];
      [destruct (candidate message), (sdpMid message),
                (sdpMlineIndex message)|]; auto.
  - unfold handleReceivedHeartbeat.
    destruct (0 <? heartbeat_interval_ms (config_ m))%Z; cbn;
      repeat split; auto.
    apply find_insert_neq. congruence.
Qed.

End SignalingPath.

Section WirePath.
Context {PC : Type} `{IPeerConnection PC} `{PeerConnectionFactory PC}.
Implicit Types (m : WebrtcManagerImpl PC) (p q : string).

(** Whatever text arrives on the signaling link, handling it applies no
    remote description and no candidate and records no heartbeat: every
    connection already in the index is left as it is or closed, the
    heartbeat times stay as they were, and all the manager reports is a
    peer error or a signaling error. *)
Theorem wire_never_negotiates now m payload :
  let m' := onMessage now m payload in
  lastHeartbeatRxTime_ m' = lastHeartbeatRxTime_ m
  /\ (forall q pc,
        StdMap.find q (peerConnections_ m) = Some (Some pc) ->
        StdMap.find q (peerConnections_ m') = Some (Some pc)
        \/ StdMap.find q (peerConnections_ m') = Some (Some (Close pc)))
  /\ (forall e,
        In e (log_ m') ->
        In e (log_ m)
        \/ (exists p text, e = AppPeerError p text)
        \/ (exists text, e = AppSignalingError text)).
Proof.
  unfold onMessage.
  destruct (deserialize_result payload) as (t & f & o & -> & Ht).
  unfold handleSignalingMessage, getOrCreatePeerConnection, StdMap.count.
  cbn [type from sdp candidate sdpMid sdpMlineIndex SignalMessage_ctor].
  unfold invokeSignalingErrorCallback, invokePeerErrorCallback.
  destruct t; try (now elim Ht);
    destruct (StdMap.find f (peerConnections_ m)) as [[pc0|]|] eqn:Ef;
    try destruct (createPeerConnection f) as [pcn|];
    try destruct (onPeerErrorHandler_ _);
    try destruct (onSignalingErrorHandler_ _);
    cbn; (split; [reflexivity|]); split;
    try (intros q pc Hq;
         destruct (string_dec f q) as [<-|N];
         [ rewrite ?find_insert_eq; rewrite Ef in Hq;
           first [discriminate Hq | injection Hq as ->; auto]
         | rewrite ?find_insert_neq by exact N; auto ]);
    try (intros e He; rewrite ?in_app_iff in He; cbn in He;
         intuition eauto).
Qed.

(** The signaling path does not look at the manager's state: a message
    is handled in a manager that was never started, or was stopped, as
    it is in a running one. *)
Theorem signaling_message_ignores_state now m message (s : AppState) :
  handleSignalingMessage now (with_state m s) message
  = with_state (handleSignalingMessage now m message) s.
Proof.
  unfold handleSignalingMessage, getOrCreatePeerConnection, StdMap.count,
    handleReceivedHeartbeat, invokeSignalingErrorCallback,
    invokePeerErrorCallback.
  cbn [peerConnections_ with_state config_ onPeerErrorHandler_
       onSignalingErrorHandler_].
  destruct (type message);
    try destruct (StdMap.find (from message) (peerConnections_ m))
      as [[pc0|]|];
    try destruct (createPeerConnection (from message)) as [pcn|];
    try destruct (sdp message);
    try destruct (candidate message);
    try destruct (sdpMid message);
    try destruct (sdpMlineIndex message);
    cbn;
    try destruct (onPeerErrorHandler_ m);
    try destruct (onSignalingErrorHandler_ m);
    try destruct (0 <? heartbeat_interval_ms (config_ m))%Z;
    reflexivity.
Qed.

End WirePath.

(** ** The life cycle and the application's calls *)

Section LifeCycle.
Context {PC : Type} `{IPeerConnection PC} `{PeerConnectionFactory PC}.
Implicit Types (m : WebrtcManagerImpl PC) (p q : string).

(** A manager that was never initialized can be neither started nor
    stopped; [init] succeeds once; [start] then asks the signaling client
    to connect and succeeds once. *)
Theorem life_cycle_order m :
  state_ m = Uninitialized ->
  let m1 := fst (init m) in
  let m2 := fst (fst (start m1)) in
  start m = (m, false, []) /\ stop m = (m, [])
  /\ snd (init m) = true /\ init m1 = (m1, false)
  /\ start m1 = (m2, true, [ClientConnect])
  /\ state_ m2 = Running
  /\ init m2 = (m2, false) /\ start m2 = (m2, false, []).
Proof.
  intros E. unfold init, start, stop. rewrite E. cbn. repeat split.
Qed.

(** [stop] is final and silent: it empties the index without telling
    the application about any peer, keeps the recorded heartbeat times,
    and afterwards every call of the application's interface is refused
    and changes nothing; the manager cannot be initialized or started
    again. *)
Theorem stop_is_final m p label data reason :
  state_ m = Running \/ state_ m = Initialized ->
  let m1 := fst (stop m) in
  state_ m1 = Stopped /\ peerConnections_ m1 = [] /\ log_ m1 = log_ m
  /\ lastHeartbeatRxTime_ m1 = lastHeartbeatRxTime_ m
  /\ init m1 = (m1, false) /\ start m1 = (m1, false, [])
  /\ stop m1 = (m1, [])
  /\ connectToPeer m1 p = (m1, false)
  /\ disconnectFromPeer m1 p reason = (m1, false)
  /\ sendDataChannelMessage m1 p label data = (m1, false)
  /\ sendDataChannelMessageToAllPeers m1 label data = (m1, false).
Proof.
  intros [E|E]; unfold stop; rewrite E; cbn; repeat split.
Qed.

(** Connecting to a peer the index does not hold creates one connection
    and asks it for an offer, without telling the application; a second
    call succeeds and changes nothing, so no second offer is asked
    for. *)
Theorem connect_to_peer_once m p pc0 :
  state_ m = Running ->
  StdMap.find p (peerConnections_ m) = None ->
  createPeerConnection p = Some pc0 ->
  let m1 := fst (connectToPeer m p) in
  snd (connectToPeer m p) = true
  /\ StdMap.find p (peerConnections_ m1) = Some (Some (fst (CreateOffer pc0)))
  /\ (forall q, q <> p ->
        StdMap.find q (peerConnections_ m1)
        = StdMap.find q (peerConnections_ m))
  /\ log_ m1 = log_ m
  /\ connectToPeer m1 p = (m1, true).
Proof.
  intros Es Ep Ec. unfold connectToPeer, StdMap.count.
  rewrite Es, Ep, Ec. cbn. rewrite find_insert_eq, Es. cbn.
  repeat split.
  intros q N. rewrite !find_insert_neq by congruence. reflexivity.
Qed.

(** Without a running manager, or when the factory gives no connection,
    [connectToPeer] fails and changes nothing. *)
Theorem connect_to_peer_refused m p :
  state_ m <> Running
  \/ (StdMap.find p (peerConnections_ m) = None
      /\ createPeerConnection p = None) ->
  connectToPeer m p = (m, false).
Proof.
  unfold connectToPeer, StdMap.count. intros [N|[Ep Ec]].
  - destruct (state_ m); try reflexivity. now elim N.
  - rewrite Ep, Ec. now destruct (AppState_eqb (state_ m) Running).
Qed.

End LifeCycle.

Lemma life_cycle_order_witness :
  start (constructed SimTransport.t) = (constructed SimTransport.t, false, [])
  /\ state_ (fst (fst (start (fst (init (constructed SimTransport.t))))))
     = Running.
Proof.
  pose proof (life_cycle_order (constructed SimTransport.t) eq_refl) as L.
  cbv zeta in L. split; [apply L|]. apply L.
Defined.

Lemma stop_is_final_witness :
  peerConnections_ (fst (stop fleet_manager)) = []
  /\ sendDataChannelMessageToAllPeers (fst (stop fleet_manager))
       "telemetry" telemetry_frame
     = (fst (stop fleet_manager), false).
Proof.
  pose proof (stop_is_final fleet_manager "cockpit-1" "telemetry"
                telemetry_frame "bye" (or_introl eq_refl)) as L.
  cbv zeta in L. split; apply L.
Defined.

Lemma connect_to_peer_once_witness :
  connectToPeer (fst (connectToPeer idle_manager "vehicle-7")) "vehicle-7"
  = (fst (connectToPeer idle_manager "vehicle-7"), true).
Proof.
  apply (connect_to_peer_once idle_manager "vehicle-7" SimTransport.fresh
           eq_refl eq_refl eq_refl).
Defined.

Lemma connect_to_peer_refused_witness :
  connectToPeer (constructed SimTransport.t) "vehicle-7"
  = (constructed SimTransport.t, false).
Proof.
  apply (connect_to_peer_refused (constructed SimTransport.t) "vehicle-7").
  left. discriminate.
Defined.

(** ** From one manager to another *)

Section EndToEnd.
Context {PC : Type} `{IPeerConnection PC} `{PeerConnectionFactory PC}.
Implicit Types (m : WebrtcManagerImpl PC) (p q : string).

Lemma serialized_negotiation_frame now m (msg : SignalMessage) :
  is_negotiation (type msg) = true ->
  no_dquote (from msg) = true ->
  no_dquote (to msg) = true ->
  onMessage now m (SerializeSignalMessage msg)
  = invokePeerErrorCallback
      (fst (getOrCreatePeerConnection m (from msg))) (from msg)
      (negotiation_error (type msg)).
Proof.
  intros Ht Hf Hto.
  assert (Hr : routable (type msg) = true)
    by (destruct (type msg); try discriminate Ht; reflexivity).
  destruct (serialize_shape msg) as [tail ->].
  destruct (type_tag_roundtrip _ Hr) as [Hrt Hq].
  unfold onMessage.
  rewrite (deserialize_wire_text _ _ _ tail Hq Hf Hto), Hrt.
  unfold handleSignalingMessage.
  cbn [type from sdp candidate sdpMid sdpMlineIndex SignalMessage_ctor].
  destruct (type msg); try discriminate Ht;
    destruct (getOrCreatePeerConnection m (from msg)) as [m1 [pc|]];
    reflexivity.
Qed.

(** A local description or candidate of a peer in the index goes out
    under the fixed sender name, whatever the configured client id, as
    an offer, an answer or a candidate addressed to that peer; a manager
    that receives its text refuses it. *)
Theorem local_signal_goes_out_as_dummy m p slot ev :
  StdMap.find p (peerConnections_ m) = Some slot ->
  signalingClient_ m = true ->
  produces_signal ev = true ->
  no_dquote p = true ->
  exists msg,
    on_transport_event m p ev = emit m (SignalSent msg)
    /\ from msg = client_dummy_id /\ to msg = p
    /\ is_negotiation (type msg) = true
    /\ forall now m2,
         onMessage now m2 (SerializeSignalMessage msg)
         = invokePeerErrorCallback
             (fst (getOrCreatePeerConnection m2 client_dummy_id))
             client_dummy_id (negotiation_error (type msg)).
Proof.
  intros Ep Ec Hev Hp.
  destruct ev as [sdp_type sdp_string|c mid idx| | |];
    try discriminate Hev; cbn;
    unfold handlePeerLocalSdpGenerated, handlePeerLocalCandidateGenerated,
      StdMap.count; rewrite Ep, Ec; cbn;
    eexists; (split; [reflexivity|]); cbn;
    (split; [reflexivity|]); (split; [reflexivity|]).
  - split; [now destruct (String.eqb sdp_type "offer")|].
    intros now m2.
    apply (serialized_negotiation_frame now m2
             (mkSignalMessage
                (if String.eqb sdp_type "offer" then OFFER else ANSWER)
                client_dummy_id p (Some sdp_string) None None None None));
      [now destruct (String.eqb sdp_type "offer") | reflexivity | exact Hp].
  - split; [reflexivity|].
    intros now m2.
    apply (serialized_negotiation_frame now m2
             (mkSignalMessage CANDIDATE client_dummy_id p None (Some c)
                              (Some mid) (Some idx) None));
      [reflexivity | reflexivity | exact Hp].
Qed.

End EndToEnd.

Lemma local_signal_witness :
  exists msg,
    on_transport_event stale_manager "vehicle-7"
      (LocalSdpGenerated "offer" "v=0")
    = emit stale_manager (SignalSent msg)
    /\ from msg = client_dummy_id /\ to msg = "vehicle-7"
    /\ is_negotiation (type msg) = true
    /\ forall now (m2 : WebrtcManagerImpl SimTransport.t),
         onMessage now m2 (SerializeSignalMessage msg)
         = invokePeerErrorCallback
             (fst (getOrCreatePeerConnection m2 client_dummy_id))
             client_dummy_id (negotiation_error (type msg)).
Proof.
  exact (local_signal_goes_out_as_dummy stale_manager "vehicle-7" _
           (LocalSdpGenerated "offer" "v=0")
           eq_refl eq_refl eq_refl eq_refl).
Defined.

(** ** What every run of the manager keeps *)

Section Runs.
Context {PC : Type} `{IPeerConnection PC} `{PeerConnectionFactory PC}.
Implicit Types (m : WebrtcManagerImpl PC) (p q : string).

Lemma In_insert_inv {V : Type} (k k0 : string) (v v0 : V) (l : StdMap.t V) :
  In (k0, v0) (StdMap.insert k v l) -> (k0, v0) = (k, v) \/ In (k0, v0) l.
Proof.
  induction l as [|[k' v'] l IH]; cbn.
  - intros [E|[]]. left. now symmetry.
  - destruct (String.eqb k k').
    + intros [E|Hin]; [left; now symmetry | right; now right].
    + destruct (String.ltb k k').
      * intros [E|Hin]; [left; now symmetry | now right].
      * intros [E|Hin]; [right; now left|].
        destruct (IH Hin) as [E|Hl]; [now left | right; now right].
Qed.

Lemma In_erase_inv {V : Type} (k k0 : string) (v0 : V) (l : StdMap.t V) :
  In (k0, v0) (StdMap.erase k l) -> In (k0, v0) l.
Proof.
  induction l as [|[k' v'] l IH]; cbn; [tauto|].
  destruct (String.eqb k k'); cbn; intuition.
Qed.

Lemma inv_emit m e :
  run_invariant m -> run_effect e -> run_invariant (emit m e).
Proof.
  intros (Hhb & Hrc & Hcfg & Hsc & Hst & Hnull & Hlog) He.
  repeat split; cbn; auto; try apply Hsc.
  intros e' Hin. apply in_app_or in Hin as [Hin|[<-|[]]]; auto.
Qed.

Lemma inv_index m pcs :
  run_invariant m -> (forall p, ~ In (p, None) pcs) ->
  run_invariant (with_peerConnections m pcs).
Proof.
  intros (Hhb & Hrc & Hcfg & Hsc & Hst & Hnull & Hlog) Hp.
  repeat split; cbn; auto; apply Hsc.
Qed.

Lemma inv_store m p pc : run_invariant m -> run_invariant (store_pc m p pc).
Proof.
  intros Hm. apply inv_index; [exact Hm|].
  intros k Hin. apply In_insert_inv in Hin as [E|Hin]; [discriminate|].
  destruct Hm as (_ & _ & _ & _ & _ & Hnull & _). exact (Hnull k Hin).
Qed.

Lemma inv_destroy m p reason :
  run_invariant m -> (exists state, state_reason state = Some reason) ->
  run_invariant (destroyPeerConnection m p reason).
Proof.
  intros Hm Hr. unfold destroyPeerConnection.
  destruct (StdMap.find p (peerConnections_ m)); [|exact Hm].
  cbv zeta. unfold invokePeerDisconnectedCallback.
  assert (Hm' : run_invariant
                  (with_peerConnections
                     (with_reconnectionAttemptCount
                        (with_lastHeartbeatRxTime m
                           (StdMap.erase p (lastHeartbeatRxTime_ m)))
                        (StdMap.erase p (reconnectionAttemptCount_ m)))
                     (StdMap.erase p (peerConnections_ m)))).
  { destruct Hm as (Hhb & Hrc & Hcfg & Hsc & Hst & Hnull & Hlog).
    repeat split; cbn; auto; try apply Hsc.
    - now rewrite Hhb.
    - now rewrite Hrc.
    - intros k Hin. apply In_erase_inv in Hin. exact (Hnull k Hin). }
  destruct (onPeerDisconnectedHandler_ _); [|exact Hm'].
  now apply inv_emit.
Qed.

Lemma inv_get_or_create m p :
  run_invariant m -> run_invariant (fst (getOrCreatePeerConnection m p)).
Proof.
  intros Hm. unfold getOrCreatePeerConnection.
  destruct (StdMap.find p (peerConnections_ m)); [exact Hm|].
  destruct (createPeerConnection p); [now apply inv_store | exact Hm].
Qed.

Lemma inv_peer_error m p text :
  run_invariant m -> run_invariant (invokePeerErrorCallback m p text).
Proof.
  intros Hm. unfold invokePeerErrorCallback.
  destruct (onPeerErrorHandler_ m); [now apply inv_emit | exact Hm].
Qed.

Lemma inv_signaling_error m text :
  run_invariant m -> run_invariant (invokeSignalingErrorCallback m text).
Proof.
  intros Hm. unfold invokeSignalingErrorCallback.
  destruct (onSignalingErrorHandler_ m); [now apply inv_emit | exact Hm].
Qed.

Lemma inv_broadcast label data : forall pcs any_sent,
  (forall p, ~ In (p, @None PC) pcs) ->
  forall p, ~ In (p, None) (fst (broadcast_loop label data pcs any_sent)).
Proof.
  induction pcs as [|[k [pc|]] pcs IH]; intros any_sent Hnull p; cbn.
  - tauto.
  - destruct (SendData pc label data) as [pc' sent].
    specialize (IH (if sent then true else any_sent)
                   (fun q Hq => Hnull q (or_intror Hq)) p).
    destruct (broadcast_loop label data pcs _) as [rest r]. cbn in *.
    intros [E|Hin]; [discriminate | auto].
  - elim (Hnull k). now left.
Qed.

Lemma inv_wire now m payload :
  run_invariant m -> run_invariant (onMessage now m payload).
Proof.
  intros Hm. unfold onMessage.
  destruct (deserialize_result payload) as (t & f & o & -> & Ht).
  unfold handleSignalingMessage.
  cbn [type from sdp candidate sdpMid sdpMlineIndex SignalMessage_ctor].
  pose proof (inv_get_or_create m f Hm) as Hg.
  destruct (getOrCreatePeerConnection m f) as [m1 slot]. cbn [fst] in Hg.
  destruct t; try (now elim Ht).
  - now apply inv_signaling_error.
  - exact Hm.
  - destruct (StdMap.count f (peerConnections_ m)); [|exact Hm].
    destruct (StdMap.find f (peerConnections_ m)) as [[pc|]|];
      [now apply inv_store | exact Hm | exact Hm].
  - destruct slot; now apply inv_peer_error.
  - destruct slot; now apply inv_peer_error.
  - destruct slot; now apply inv_peer_error.
Qed.

Lemma check_without_receipts now m :
  lastHeartbeatRxTime_ m = [] -> checkForHeartbeatLoss now m = m.
Proof.
  intros E. unfold checkForHeartbeatLoss. rewrite E. cbn.
  now destruct (heartbeat_interval_ms (config_ m) <=? 0)%Z.
Qed.

Lemma inv_tick now m :
  run_invariant m -> run_invariant (onHeartbeatTimer now m).
Proof.
  intros Hm. unfold onHeartbeatTimer. cbv zeta.
  rewrite check_without_receipts by apply Hm.
  apply inv_index; [exact Hm|].
  intros k Hin. apply in_map_iff in Hin as ([k' [pc|]] & E & Hin); cbn in E.
  - destruct (PeerConnectionState_eqb _ _); discriminate.
  - injection E as ->. destruct Hm as (_ & _ & _ & _ & _ & Hnull & _).
    exact (Hnull k Hin).
Qed.

Lemma inv_transport m p ev :
  run_invariant m -> run_invariant (on_transport_event m p ev).
Proof.
  intros Hm. destruct ev as [sdp_type sdp_string|c mid idx|state|label msg|text];
    cbn;
    unfold handlePeerLocalSdpGenerated, handlePeerLocalCandidateGenerated,
      handlePeerConnectionStateChange, handlePeerDataChannelMessage,
      handlePeerError, invokeDataChannelMessageReceivedCallback,
      invokePeerConnectedCallback;
    destruct (StdMap.count p (peerConnections_ m)); cbn; try exact Hm.
  - destruct (signalingClient_ m); [|now apply inv_signaling_error].
    apply inv_emit; [exact Hm|]. cbn.
    now destruct (String.eqb sdp_type "offer").
  - destruct (signalingClient_ m); [|now apply inv_signaling_error].
    apply inv_emit; [exact Hm|]. now cbn.
  - destruct state; cbn; try exact Hm;
      try (apply inv_destroy;
           [ exact Hm
           | first [ now exists Disconnected | now exists Failed
                   | now exists Closed ] ]).
    destruct (onPeerConnectedHandler_ m); [now apply inv_emit | exact Hm].
  - destruct (String.eqb label "control"), (String.eqb label "telemetry"),
             (onDataChannelMessageReceivedHandler_ m);
      try exact Hm; now apply inv_emit.
  - now apply inv_peer_error.
Qed.

(** The life cycle calls: by cases on the state and on the presence of
    the signaling client. *)
Ltac life_cycle_case m Hm :=
  let E := fresh "E" in
  let Ec := fresh "Ec" in
  let X := fresh "X" in
  destruct Hm as (? & ? & ? & Hsc & ? & ? & ?);
  destruct (state_ m) eqn:E; destruct (signalingClient_ m) eqn:Ec;
  unfold run_invariant; cbn; rewrite ?E, ?Ec; repeat split; auto;
  try discriminate; try tauto;
  try (intros X; try discriminate X;
       try discriminate (proj1 Hsc eq_refl);
       try discriminate (proj2 Hsc eq_refl); tauto);
  try (exfalso; intuition discriminate).

Lemma inv_enter m e : run_invariant m -> run_invariant (enter m e).
Proof.
  intros Hm. destruct e; cbn [enter].
  - unfold init. life_cycle_case m Hm.
  - unfold start. life_cycle_case m Hm.
  - unfold stop. life_cycle_case m Hm.
  - unfold connectToPeer.
    destruct (negb _); [exact Hm|].
    destruct (StdMap.count _ _); [exact Hm|].
    destruct (createPeerConnection peer_id); [|exact Hm].
    cbn. now apply inv_store, inv_store.
  - unfold disconnectFromPeer.
    destruct (StdMap.find peer_id (peerConnections_ m)) as [[pc|]|];
      cbn; try exact Hm. now apply inv_store.
  - unfold sendDataChannelMessage.
    destruct (negb _); [exact Hm|].
    destruct (StdMap.find peer_id (peerConnections_ m)) as [[pc|]|];
      cbn; try exact Hm.
    destruct (SendData pc label data). now apply inv_store.
  - unfold sendDataChannelMessageToAllPeers.
    destruct (negb _); [exact Hm|].
    pose proof (inv_broadcast label data (peerConnections_ m) false) as Hb.
    destruct (broadcast_loop label data (peerConnections_ m) false)
      as [pcs r].
    cbn in *. apply inv_index; [exact Hm|]. apply Hb, Hm.
  - destruct Hm as (? & ? & ? & Hsc & ? & ? & ?);
      repeat split; cbn; auto; apply Hsc.
  - destruct Hm as (? & ? & ? & Hsc & ? & ? & ?);
      repeat split; cbn; auto; apply Hsc.
  - destruct Hm as (? & ? & ? & Hsc & ? & ? & ?);
      repeat split; cbn; auto; apply Hsc.
  - destruct Hm as (? & ? & ? & Hsc & ? & ? & ?);
      repeat split; cbn; auto; apply Hsc.
  - destruct Hm as (? & ? & ? & Hsc & ? & ? & ?);
      repeat split; cbn; auto; apply Hsc.
  - destruct Hm as (? & ? & ? & Hsc & ? & ? & ?);
      repeat split; cbn; auto; apply Hsc.
  - destruct Hm as (? & ? & ? & Hsc & ? & ? & ?);
      repeat split; cbn; auto; apply Hsc.
  - unfold handleSignalingConnected, invokeSignalingConnectedCallback.
    destruct (onSignalingConnectedHandler_ m); [now apply inv_emit|exact Hm].
  - unfold handleSignalingDisconnected, invokeSignalingDisconnectedCallback.
    destruct (onSignalingDisconnectedHandler_ m);
      [now apply inv_emit | exact Hm].
  - now apply inv_signaling_error.
  - now apply inv_wire.
  - now apply inv_transport.
  - now apply inv_tick.
Qed.

Lemma inv_run_from es : forall m,
  run_invariant m -> run_invariant (List.fold_left enter es m).
Proof.
  induction es as [|e es IH]; intros m Hm; cbn; [exact Hm|].
  now apply IH, inv_enter.
Qed.

Lemma inv_run (es : list Entry) : run_invariant (run (PC:=PC) es).
Proof.
  apply inv_run_from. unfold constructed.
  repeat split; cbn; auto; try discriminate; tauto.
Qed.

End Runs.

Section RunProperties.
Context {PC : Type} `{IPeerConnection PC} `{PeerConnectionFactory PC}.

(** However a newly constructed manager is driven (through the
    application's interface, by text on the signaling link, by transport
    events and by timer ticks), no heartbeat receipt is ever recorded:
    the loss check of a tick changes nothing, no peer is ever reported
    lost to its heartbeat, and no reconnection is ever attempted. *)
Theorem run_never_declares_heartbeat_loss (es : list Entry) :
  let m := run (PC:=PC) es in
  lastHeartbeatRxTime_ m = []
  /\ (forall now, checkForHeartbeatLoss now m = m)
  /\ (forall p, ~ In (AppPeerDisconnected p "Heartbeat lost") (log_ m))
  /\ (forall p, ~ In (ReconnectionAttempted p) (log_ m)).
Proof.
  destruct (inv_run (PC:=PC) es) as (Hhb & _ & _ & _ & _ & _ & Hlog).
  cbv zeta. repeat split.
  - exact Hhb.
  - intros now. now apply check_without_receipts.
  - intros p Hin. destruct (Hlog _ Hin) as [[] E]; discriminate E.
  - intros p Hin. exact (Hlog _ Hin).
Qed.

(** Every message a run hands to the signaling client is an offer, an
    answer or a candidate under the fixed sender name: the manager never
    sends a join, a leave or a heartbeat, and the client id of the
    configuration, which stays the default one, is never used. *)
Theorem run_sends_negotiation_as_dummy (es : list Entry)
        (msg : SignalMessage) :
  In (SignalSent msg) (log_ (run (PC:=PC) es)) ->
  from msg = client_dummy_id
  /\ is_negotiation (type msg) = true
  /\ config_ (run (PC:=PC) es) = default_config.
Proof.
  intros Hin.
  destruct (inv_run (PC:=PC) es) as (_ & _ & Hcfg & _ & _ & _ & Hlog).
  destruct (Hlog _ Hin) as [Hf Ht]. auto.
Qed.

(** No run stores a null slot in the index, so the unguarded [Close()]
    of [disconnectFromPeer] always has a connection to act on. *)
Theorem run_index_holds_connections (es : list Entry) (p : string)
        (slot : option PC) :
  StdMap.find p (peerConnections_ (run (PC:=PC) es)) = Some slot ->
  exists pc,
    slot = Some pc
    /\ forall reason,
         disconnectFromPeer (run (PC:=PC) es) p reason
         = (store_pc (run (PC:=PC) es) p (Close pc), true).
Proof.
  intros Ep.
  destruct (inv_run (PC:=PC) es) as (_ & _ & _ & _ & _ & Hnull & _).
  destruct slot as [pc|].
  - exists pc. split; [reflexivity|]. intros reason.
    unfold disconnectFromPeer. now rewrite Ep.
  - elim (Hnull p). now apply find_In.
Qed.


End RunProperties.

Lemma run_sends_negotiation_witness :
  from (mkSignalMessage OFFER client_dummy_id "vehicle-7" (Some "v=0")
                        None None None None)
  = client_dummy_id
  /\ is_negotiation OFFER = true
  /\ config_ (run (PC:=SimTransport.t) sample_run) = default_config.
Proof.
  apply (run_sends_negotiation_as_dummy (PC:=SimTransport.t) sample_run
           (mkSignalMessage OFFER client_dummy_id "vehicle-7" (Some "v=0")
                            None None None None)).
  vm_compute. left. reflexivity.
Defined.

Lemma run_index_witness :
  exists pc,
    Some (SimTransport.mk New [] None [] ["offer"] [])
    = Some pc
    /\ forall reason,
         disconnectFromPeer (run (PC:=SimTransport.t) sample_run)
           "vehicle-7" reason
         = (store_pc (run (PC:=SimTransport.t) sample_run) "vehicle-7"
              (Close pc), true).
Proof.
  apply (run_index_holds_connections (PC:=SimTransport.t) sample_run
           "vehicle-7").
  vm_compute. reflexivity.
Defined.

(** ** The manager with its mutex *)

Section LockedFacts.
Context {PC : Type} `{IPeerConnection PC} `{PeerConnectionFactory PC}.
Implicit Types (w : Locked.World PC) (m : WebrtcManagerImpl PC) (p q : string).

Lemma lock_guard_held {A : Type} (body : @Locked.Call PC A) w :
  Locked.mutex_ w = true -> Locked.lock_guard body w = Locked.Blocks w.
Proof. intros E. unfold Locked.lock_guard. now rewrite E. Qed.

Lemma lock_guard_free {A : Type} (body : @Locked.Call PC A) m rel :
  Locked.lock_guard body (Locked.mkWorld m false rel)
  = match body (Locked.mkWorld m true rel) with
    | Locked.Returns a w' => Locked.Returns a (Locked.set_mutex w' false)
    | Locked.Blocks w' => Locked.Blocks w'
    end.
Proof. reflexivity. Qed.

(** With the mutex held, a helper that reports to the application waits
    for it and reports nothing. *)
Lemma invoke_peer_disconnected_held p reason m rel :
  Locked.invokePeerDisconnectedCallback p reason (Locked.mkWorld m true rel)
  = Locked.Blocks (Locked.mkWorld m true rel).
Proof. reflexivity. Qed.

Lemma invoke_peer_error_held p text m rel :
  Locked.invokePeerErrorCallback p text (Locked.mkWorld m true rel)
  = Locked.Blocks (Locked.mkWorld m true rel).
Proof. reflexivity. Qed.

Lemma invoke_signaling_error_held text m rel :
  Locked.invokeSignalingErrorCallback text (Locked.mkWorld m true rel)
  = Locked.Blocks (Locked.mkWorld m true rel).
Proof. reflexivity. Qed.

Lemma destroy_held p reason m rel :
  Locked.destroyPeerConnection p reason (Locked.mkWorld m true rel)
  = match StdMap.find p (peerConnections_ m) with
    | Some slot =>
        Locked.Blocks
          (Locked.mkWorld (erased m p) true
                          (rel ++ [(p, option_map Close slot)]))
    | None => Locked.Returns tt (Locked.mkWorld m true rel)
    end.
Proof.
  unfold Locked.destroyPeerConnection, Locked.bind, Locked.get. cbn.
  now destruct (StdMap.find p (peerConnections_ m)).
Qed.



Lemma state_eqb_connected (s : PeerConnectionState) :
  PeerConnectionState_eqb s Connected = true <-> s = Connected.
Proof. destruct s; cbn; split; intros E; (reflexivity || discriminate). Qed.

(** A peer the first loop selects has a recorded receipt and a
    connection in the index whose state reads Connected. *)
Lemma selected_has_receipt now m p :
  In p (Locked.peers_to_disconnect now m) ->
  exists t pc,
    In (p, t) (lastHeartbeatRxTime_ m)
    /\ StdMap.find p (peerConnections_ m) = Some (Some pc)
    /\ GetConnectionState pc = Connected
    /\ (int_wrap (heartbeat_interval_ms (config_ m) * 3)
        < elapsed_ms now t)%Z.
Proof.
  unfold Locked.peers_to_disconnect. intros Hin.
  apply in_map_iff in Hin as ([q t] & E & Hin). cbn in E. subst q.
  apply filter_In in Hin as [Hin Hl]. unfold heartbeat_lost in Hl.
  destruct (StdMap.find p (peerConnections_ m)) as [[pc|]|];
    try discriminate Hl.
  apply andb_true_iff in Hl as [Hs Ht].
  exists t, pc. repeat split; auto.
  - now apply state_eqb_connected.
  - now apply Z.ltb_lt.
Qed.


(** The tick when the loss check selects nobody: it returns, and the
    pings are all it did. *)
Lemma tick_quiet now m rel :
  (heartbeat_interval_ms (config_ m) <= 0)%Z
  \/ Locked.peers_to_disconnect now m = [] ->
  Locked.onHeartbeatTimer now (Locked.mkWorld m false rel)
  = Locked.Returns tt (Locked.mkWorld (Locked.send_pings m) false rel).
Proof.
  intros Hq. unfold Locked.onHeartbeatTimer. rewrite lock_guard_free.
  unfold Locked.checkForHeartbeatLoss, Locked.bind, Locked.get. cbn.
  destruct (heartbeat_interval_ms (config_ m) <=? 0)%Z eqn:E; [reflexivity|].
  destruct Hq as [Hq|Hq]; [apply Z.leb_gt in E; lia|].
  now rewrite Hq.
Qed.

(** The tick when the loss check selects a peer: the first one is
    closed and erased, and the thread then waits for the mutex it
    holds. *)
Lemma tick_blocks now m rel p rest :
  (0 < heartbeat_interval_ms (config_ m))%Z ->
  Locked.peers_to_disconnect now m = p :: rest ->
  exists pc,
    StdMap.find p (peerConnections_ m) = Some (Some pc)
    /\ Locked.onHeartbeatTimer now (Locked.mkWorld m false rel)
       = Locked.Blocks
           (Locked.mkWorld (erased m p) true
                           (rel ++ [(p, Some (Close pc))])).
Proof.
  intros HT Hsel.
  destruct (selected_has_receipt now m p) as (t & pc & _ & Hf & _).
  { rewrite Hsel. now left. }
  exists pc. split; [exact Hf|].
  unfold Locked.onHeartbeatTimer. rewrite lock_guard_free.
  unfold Locked.checkForHeartbeatLoss.
  unfold Locked.bind at 1. unfold Locked.bind at 1. unfold Locked.get.
  cbn [Locked.members].
  replace (heartbeat_interval_ms (config_ m) <=? 0)%Z with false
    by (symmetry; apply Z.leb_gt; lia).
  rewrite Hsel. cbn [Locked.disconnect_each]. unfold Locked.bind at 1.
  rewrite destroy_held, Hf. reflexivity.
Qed.

End LockedFacts.

Section LockedRuns.
Context {PC : Type} `{IPeerConnection PC} `{PeerConnectionFactory PC}.
Implicit Types (w : Locked.World PC) (m : WebrtcManagerImpl PC) (p q : string).

Lemma step_frame_same m m' :
  lastHeartbeatRxTime_ m' = lastHeartbeatRxTime_ m ->
  config_ m' = config_ m -> log_ m' = log_ m -> step_frame m m'.
Proof.
  intros E1 E2 E3. repeat split; auto. rewrite E1. apply incl_refl.
Qed.

Lemma incl_erase {V : Type} (k : string) (l : StdMap.t V) :
  incl (StdMap.erase k l) l.
Proof.
  induction l as [|[k' v'] l IH]; cbn; [apply incl_refl|].
  destruct (String.eqb k k').
  - now apply incl_tl.
  - apply incl_cons; [now left | now apply incl_tl].
Qed.

Lemma step_frame_erased m p : step_frame m (erased m p).
Proof. repeat split; cbn; auto. apply incl_erase. Qed.

Ltac lk_unfold :=
  unfold Locked.enter, Locked.call, Locked.init, Locked.start, Locked.stop,
    Locked.connectToPeer, Locked.disconnectFromPeer,
    Locked.sendDataChannelMessage, Locked.sendDataChannelMessageToAllPeers,
    Locked.register, Locked.handleSignalingConnected,
    Locked.handleSignalingDisconnected, Locked.handleSignalingError,
    Locked.on_transport_event,
    Locked.handlePeerLocalSdpGenerated,
    Locked.handlePeerLocalCandidateGenerated,
    Locked.handlePeerConnectionStateChange,
    Locked.handlePeerDataChannelMessage, Locked.handlePeerError,
    Locked.invokeSignalingConnectedCallback,
    Locked.invokeSignalingDisconnectedCallback,
    Locked.invokeSignalingErrorCallback,
    Locked.invokePeerConnectedCallback,
    Locked.invokePeerDisconnectedCallback,
    Locked.invokePeerErrorCallback,
    Locked.invokeDataChannelMessageReceivedCallback,
    Locked.destroyPeerConnection,
    Locked.compare_exchange_strong, Locked.lock_guard, Locked.bind,
    Locked.ret, Locked.get, Locked.update, Locked.lift, Locked.release,
    Locked.set_mutex, Locked.after.

Ltac same := apply step_frame_same; reflexivity.

(** A call on a manager whose mutex is held changes nothing but
    [state_], and unless it is one of the three life-cycle calls it does
    not return. *)
Lemma held_enter m rel e :
  (exists s,
     Locked.enter (Locked.mkWorld m true rel) e
     = Locked.mkWorld (with_state m s) true rel)
  /\ (life_cycle_call e = false ->
      Locked.call e (Locked.mkWorld m true rel)
      = Locked.Blocks (Locked.mkWorld m true rel)).
Proof.
  split.
  - destruct e; try (exists (state_ m); destruct m; reflexivity).
    + lk_unfold. cbn. destruct (AppState_eqb (state_ m) Uninitialized); cbn.
      * now exists Initializing.
      * exists (state_ m). now destruct m.
    + lk_unfold. cbn. destruct (AppState_eqb (state_ m) Initialized); cbn.
      * now exists Running.
      * exists (state_ m). now destruct m.
    + lk_unfold. cbn. destruct (AppState_eqb (state_ m) Running); cbn.
      * now exists Stopping.
      * destruct (AppState_eqb (state_ m) Initialized); cbn.
        -- now exists Stopping.
        -- exists (state_ m). now destruct m.
    + exists (state_ m). unfold Locked.enter, Locked.call, Locked.onMessage.
      destruct (DeserializeSignalMessage payload); destruct m; reflexivity.
    + exists (state_ m). destruct ev; destruct m; reflexivity.
  - destruct e; intros E; try discriminate E; try reflexivity.
    + unfold Locked.call, Locked.onMessage.
      now destruct (DeserializeSignalMessage payload).
    + now destruct ev.
Qed.


Ltac split_match :=
  match goal with
  | |- context [match ?x with _ => _ end] =>
      lazymatch x with
      | context [match _ with _ => _ end] => fail
      | _ => destruct x eqn:?
      end
  end.

Ltac sent :=
  repeat split; cbn; auto using incl_refl;
  right; eexists; repeat split; cbn; auto.

Lemma free_tick_frame now m rel :
  step_frame m
    (Locked.members
       (Locked.enter (Locked.mkWorld m false rel) (HeartbeatTimer now))).
Proof.
  unfold Locked.enter, Locked.call.
  destruct (Z_le_gt_dec (heartbeat_interval_ms (config_ m)) 0) as [HT|HT].
  { rewrite tick_quiet by now left. cbn. same. }
  destruct (Locked.peers_to_disconnect now m) as [|p rest] eqn:Hsel.
  { rewrite tick_quiet by now right. cbn. same. }
  destruct (tick_blocks now m rel p rest) as (pc & _ & ->); [lia|exact Hsel|].
  cbn. apply step_frame_erased.
Qed.

Lemma free_text_frame now payload m rel :
  step_frame m
    (Locked.members
       (Locked.enter (Locked.mkWorld m false rel)
                     (SignalingText now payload))).
Proof.
  unfold Locked.enter, Locked.call, Locked.onMessage.
  destruct (deserialize_result payload) as (t & f & o & -> & Ht).
  unfold Locked.handleSignalingMessage.
  cbn [type from sdp candidate sdpMid sdpMlineIndex SignalMessage_ctor].
  destruct t; try (now elim Ht); lk_unfold; cbn;
    unfold getOrCreatePeerConnection;
    repeat (split_match; cbn); same.
Qed.

Lemma free_enter_frame m rel e :
  step_frame m (Locked.members (Locked.enter (Locked.mkWorld m false rel) e)).
Proof.
  destruct e;
    try (lk_unfold; cbn;
         unfold connectToPeer, disconnectFromPeer,
           sendDataChannelMessage,
           sendDataChannelMessageToAllPeers;
         repeat (split_match; cbn); same).
  - apply free_text_frame.
  - destruct ev; lk_unfold; cbn; repeat (split_match; cbn);
      try same; try sent.
    all: try apply step_frame_erased.
  - apply free_tick_frame.
Qed.


Lemma enter_frame w e :
  step_frame (Locked.members w) (Locked.members (Locked.enter w e)).
Proof.
  destruct w as [m [|] rel]; cbn [Locked.members].
  - destruct (held_enter m rel e) as [(s & ->) _]. cbn. same.
  - apply free_enter_frame.
Qed.

Lemma quiet_step m m' : quiet m -> step_frame m m' -> quiet m'.
Proof.
  intros (Hhb & Hcfg & Hlog) (Hi & Hc & Hl). repeat split.
  - rewrite Hhb in Hi. now apply incl_l_nil.
  - congruence.
  - destruct Hl as [El|(msg & El & Hf & Ht)]; rewrite El; [exact Hlog|].
    intros e Hin. apply in_app_or in Hin as [Hin|[<-|[]]]; [auto|].
    now exists msg.
Qed.

Lemma quiet_run_from es : forall w,
  quiet (Locked.members w) ->
  quiet (Locked.members (List.fold_left Locked.enter es w)).
Proof.
  induction es as [|e es IH]; intros w Hw; cbn; [exact Hw|].
  apply IH. eapply quiet_step; [exact Hw | apply enter_frame].
Qed.

Lemma quiet_run (es : list Entry) :
  quiet (Locked.members (Locked.run (PC:=PC) es)).
Proof.
  apply quiet_run_from. repeat split; cbn; auto. intros e [].
Qed.


(** A received text that parses as an offer, an answer or a candidate:
    the connection is looked up or created, and the report of the
    missing payload waits for the mutex. *)
Lemma negotiation_text_blocks now m rel payload msg :
  DeserializeSignalMessage payload = Some msg ->
  is_negotiation (type msg) = true ->
  Locked.call (SignalingText now payload) (Locked.mkWorld m false rel)
  = Locked.Blocks
      (Locked.mkWorld (fst (getOrCreatePeerConnection m (from msg)))
                      true rel).
Proof.
  intros Hd Ht. unfold Locked.call, Locked.onMessage. rewrite Hd.
  destruct (deserialize_result payload) as (t & f & o & Hd' & _).
  rewrite Hd in Hd'. injection Hd' as ->.
  cbn [type from] in *. unfold Locked.handleSignalingMessage.
  cbn [type from sdp candidate sdpMid sdpMlineIndex SignalMessage_ctor].
  destruct t; try discriminate Ht; lk_unfold; cbn;
    destruct (getOrCreatePeerConnection m f) as [m1 [pc|]]; reflexivity.
Qed.

End LockedRuns.

(** ** Heartbeat supervision *)

Section HeartbeatLoss.
Context {PC : Type} `{IPeerConnection PC} `{PeerConnectionFactory PC}.
Implicit Types (w : Locked.World PC) (m : WebrtcManagerImpl PC) (p q : string).


End HeartbeatLoss.



(** The tick as a function, on a manager made to hold a receipt of the
    vehicle that is four intervals old (no run of the manager records
    one): the connection is closed and given up, the vehicle leaves the
    index and the bookkeeping, nothing is logged, and the tick waits
    for the mutex it holds. *)
Example stale_receipt_tick :
  Locked.peers_to_disconnect four_seconds stale_manager = ["vehicle-7"]
  /\ Locked.call (HeartbeatTimer four_seconds) stale_world
     = Locked.Blocks
         (Locked.mkWorld
            (erased stale_manager "vehicle-7") true
            [("vehicle-7", Some (Close (connected_peer ["control"])))])
  /\ peerConnections_ (erased stale_manager "vehicle-7") = []
  /\ lastHeartbeatRxTime_ (erased stale_manager "vehicle-7") = []
  /\ log_ (erased stale_manager "vehicle-7") = []
  /\ SimTransport.state (Close (connected_peer ["control"])) = Closed.
Proof. repeat split; vm_compute; reflexivity. Qed.

(** ** Heartbeats that arrive *)

Section HeartbeatReceipt.
Context {PC : Type} `{IPeerConnection PC} `{PeerConnectionFactory PC}.
Implicit Types (w : Locked.World PC) (m : WebrtcManagerImpl PC) (p q : string).

(** C8: a heartbeat that arrives is not recorded.  The heartbeat
    envelope of the wire format is read as a message of unknown type,
    and neither that text on the signaling link nor a ping on the
    heartbeat data channel changes a receipt time, whatever the manager
    holds; in a run of the manager the heartbeat stays enabled with the
    default interval and no receipt time is ever on record. *)
Theorem C8_received_heartbeat_is_not_recorded
        (now : Z) (w : Locked.World PC) (es : list Entry) :
  DeserializeSignalMessage heartbeat_text
  = Some (SignalMessage_ctor UNKNOWN "vehicle-7" "cockpit-1")
  /\ lastHeartbeatRxTime_
       (Locked.members (Locked.enter w (SignalingText now heartbeat_text)))
     = lastHeartbeatRxTime_ (Locked.members w)
  /\ lastHeartbeatRxTime_
       (Locked.members
          (Locked.enter w
             (Transport "vehicle-7"
                        (DataChannelMessageArrived "heartbeat" ping_data))))
     = lastHeartbeatRxTime_ (Locked.members w)
  /\ heartbeat_interval_ms (config_ (Locked.members (Locked.run es)))
     = 5000%Z
  /\ lastHeartbeatRxTime_
       (Locked.members
          (Locked.enter (Locked.run es) (SignalingText now heartbeat_text)))
     = []
  /\ lastHeartbeatRxTime_
       (Locked.members
          (Locked.enter (Locked.run es)
             (Transport "vehicle-7"
                        (DataChannelMessageArrived "heartbeat" ping_data))))
     = [].
Proof.
  assert (Hd : DeserializeSignalMessage heartbeat_text
               = Some (SignalMessage_ctor UNKNOWN "vehicle-7" "cockpit-1"))
    by (vm_compute; reflexivity).
  assert (Hrun : forall e,
             lastHeartbeatRxTime_
               (Locked.members (Locked.enter (Locked.run es) e)) = []).
  { intros e.
    destruct (quiet_step _ _ (quiet_run es) (enter_frame (Locked.run es) e))
      as [Hhb _]. exact Hhb. }
  split; [exact Hd|]. split; [|split; [|split; [|split]]].
  - destruct w as [m [|] rel].
    + now destruct (held_enter m rel (SignalingText now heartbeat_text))
        as [(s & ->) _].
    + unfold Locked.enter, Locked.call, Locked.onMessage. rewrite Hd.
      reflexivity.
  - destruct w as [m [|] rel].
    + now destruct (held_enter m rel
                      (Transport "vehicle-7"
                         (DataChannelMessageArrived "heartbeat" ping_data)))
        as [(s & ->) _].
    + unfold Locked.enter, Locked.call, Locked.on_transport_event,
        Locked.handlePeerDataChannelMessage.
      rewrite lock_guard_free. unfold Locked.bind, Locked.get. cbn.
      now destruct (StdMap.count "vehicle-7" (peerConnections_ m)).
  - destruct (quiet_run es) as (_ & -> & _). reflexivity.
  - apply Hrun.
  - apply Hrun.
Qed.

End HeartbeatReceipt.

(** ** An Answer from a peer *)

Section Answer.
Context {PC : Type} `{IPeerConnection PC} `{PeerConnectionFactory PC}.
Implicit Types (w : Locked.World PC) (m : WebrtcManagerImpl PC) (p q : string).


End Answer.



(** The sample worlds are what the runs they are named after lead
    to. *)
Example sample_worlds_are_runs :
  established_world
  = @Locked.run SimTransport.t SimTransport.transport established_factory
                connected_run
  /\ connecting_world = Locked.run connected_run
  /\ started_world = Locked.run [CallInit; CallStart].
Proof. repeat split; vm_compute; reflexivity. Qed.

(** ** Calls that wait for the mutex *)

Section Blocking.
Context {PC : Type} `{IPeerConnection PC} `{PeerConnectionFactory PC}.
Implicit Types (w : Locked.World PC) (m : WebrtcManagerImpl PC) (p q : string).

(** A state change of a peer in the index.  On Disconnected, Failed or
    Closed the connection is closed and given up and the peer leaves the
    index and the bookkeeping; on Connected nothing changes.  In both
    cases the handler then waits for the mutex it holds: the call does
    not return, and the application is told nothing. *)
Theorem terminal_state_blocks w p slot state reason :
  Locked.mutex_ w = false ->
  StdMap.find p (peerConnections_ (Locked.members w)) = Some slot ->
  state_reason state = Some reason ->
  Locked.call (Transport p (ConnectionStateChange state)) w
  = Locked.Blocks
      (Locked.mkWorld (erased (Locked.members w) p) true
                      (Locked.released w ++ [(p, option_map Close slot)]))
  /\ Locked.call (Transport p (ConnectionStateChange Connected)) w
     = Locked.Blocks (Locked.set_mutex w true)
  /\ log_ (erased (Locked.members w) p) = log_ (Locked.members w)
  /\ StdMap.find p (peerConnections_ (erased (Locked.members w) p)) = None.
Proof.
  destruct w as [m mu rel]. cbn [Locked.mutex_ Locked.members Locked.released].
  intros -> Hf Hr.
  assert (Hc : StdMap.count p (peerConnections_ m) = true)
    by (unfold StdMap.count; now rewrite Hf).
  split; [|split; [|split; [reflexivity | apply find_erase_eq]]].
  - unfold Locked.call, Locked.on_transport_event,
      Locked.handlePeerConnectionStateChange.
    rewrite lock_guard_free. unfold Locked.bind at 1. unfold Locked.get.
    cbn [Locked.members]. rewrite Hc. cbn [negb].
    destruct state; try discriminate Hr; cbn [state_reason];
      rewrite destroy_held, Hf; reflexivity.
  - unfold Locked.call, Locked.on_transport_event,
      Locked.handlePeerConnectionStateChange.
    rewrite lock_guard_free. unfold Locked.bind at 1. unfold Locked.get.
    cbn [Locked.members]. rewrite Hc. reflexivity.
Qed.

(** While the mutex is held, a call changes nothing but [state_], which
    [init], [start] and [stop] exchange before they ask for the lock,
    and the mutex stays held; a call other than these three does not
    return. *)
Theorem held_mutex_stops_calls w e :
  Locked.mutex_ w = true ->
  (life_cycle_call e = false -> Locked.call e w = Locked.Blocks w)
  /\ Locked.mutex_ (Locked.enter w e) = true
  /\ Locked.released (Locked.enter w e) = Locked.released w
  /\ exists s,
       Locked.members (Locked.enter w e) = with_state (Locked.members w) s.
Proof.
  destruct w as [m mu rel]. cbn [Locked.mutex_ Locked.members Locked.released].
  intros ->. destruct (held_enter m rel e) as [(s & Es) Hb].
  split; [exact Hb|]. rewrite Es. cbn. repeat split. now exists s.
Qed.

(** The text of an offer, an answer or a candidate, as the serializer
    writes it, received by a manager: the connection of the sender is
    looked up or created, the payload is not read back, and the report
    of its absence waits for the mutex; the call does not return. *)
Theorem serialized_negotiation_blocks now w (msg : SignalMessage) :
  Locked.mutex_ w = false ->
  is_negotiation (type msg) = true ->
  no_dquote (from msg) = true ->
  no_dquote (to msg) = true ->
  Locked.call (SignalingText now (SerializeSignalMessage msg)) w
  = Locked.Blocks
      (Locked.mkWorld
         (fst (getOrCreatePeerConnection (Locked.members w) (from msg)))
         true (Locked.released w))
  /\ log_ (fst (getOrCreatePeerConnection (Locked.members w) (from msg)))
     = log_ (Locked.members w).
Proof.
  destruct w as [m mu rel]. cbn [Locked.mutex_ Locked.members Locked.released].
  intros -> Ht Hf Hto.
  assert (Hr : routable (type msg) = true)
    by (destruct (type msg); try discriminate Ht; reflexivity).
  destruct (serialize_shape msg) as [tail Es].
  destruct (type_tag_roundtrip _ Hr) as [Hrt Hq].
  split.
  - rewrite (negotiation_text_blocks now m rel _
               (SignalMessage_ctor (type msg) (from msg) (to msg))).
    + reflexivity.
    + rewrite Es, (deserialize_wire_text _ _ _ tail Hq Hf Hto), Hrt.
      reflexivity.
    + exact Ht.
  - unfold getOrCreatePeerConnection.
    destruct (StdMap.find _ _); [reflexivity|].
    now destruct (createPeerConnection _).
Qed.

(** The application is never told anything.  In every run the log holds
    nothing but negotiation messages handed to the signaling client; and
    a message that arrives on the control or the telemetry channel of a
    peer in the index leaves the manager waiting for its mutex with the
    message undelivered, while any other is dropped. *)
Theorem application_is_never_told (es : list Entry) (e : Effect)
        w p label (message : DataChannelMessage) :
  (In e (log_ (Locked.members (Locked.run es))) ->
   exists msg, e = SignalSent msg /\ from msg = client_dummy_id
               /\ is_negotiation (type msg) = true)
  /\ (Locked.mutex_ w = false ->
      let arrival := Transport p (DataChannelMessageArrived label message) in
      Locked.members (Locked.enter w arrival) = Locked.members w
      /\ (StdMap.count p (peerConnections_ (Locked.members w)) = true ->
          label = "control" \/ label = "telemetry" ->
          Locked.call arrival w = Locked.Blocks (Locked.set_mutex w true))
      /\ (StdMap.count p (peerConnections_ (Locked.members w)) = false
          \/ (label <> "control" /\ label <> "telemetry") ->
          Locked.call arrival w = Locked.Returns tt w)).
Proof.
  split.
  - destruct (quiet_run es) as (_ & _ & Hlog). apply Hlog.
  - destruct w as [m mu rel].
    cbn [Locked.mutex_ Locked.members Locked.released]. intros ->. cbv zeta.
    unfold Locked.enter, Locked.call, Locked.on_transport_event,
      Locked.handlePeerDataChannelMessage.
    rewrite lock_guard_free. unfold Locked.bind, Locked.get, Locked.ret.
    cbn [Locked.members].
    destruct (StdMap.count p (peerConnections_ m)); cbn [negb].
    + destruct (String.eqb_spec label "control") as [->|Nc].
      { cbn. repeat split. intros [E|[E1 E2]]; [discriminate E | now elim E1]. }
      destruct (String.eqb_spec label "telemetry") as [->|Nt].
      { cbn. repeat split. intros [E|[E1 E2]]; [discriminate E | now elim E2]. }
      cbn. repeat split. intros _ [E|E]; contradiction.
    + cbn. repeat split. intros E. discriminate E.
Qed.

End Blocking.

Lemma terminal_state_blocks_witness :
  Locked.call (Transport "vehicle-7" (ConnectionStateChange Failed))
              connecting_world
  = Locked.Blocks
      (Locked.mkWorld (erased (Locked.members connecting_world) "vehicle-7")
         true
         [("vehicle-7",
           Some (Close (fst (CreateOffer SimTransport.fresh))))]).
Proof.
  exact (proj1 (terminal_state_blocks connecting_world "vehicle-7"
                  (Some (fst (CreateOffer SimTransport.fresh))) Failed
                  "PC State: Failed" eq_refl eq_refl eq_refl)).
Defined.

Lemma held_mutex_witness :
  Locked.call (CallSend "vehicle-7" "control" telemetry_frame)
    (Locked.enter connecting_world
       (Transport "vehicle-7" (ConnectionStateChange Connected)))
  = Locked.Blocks
      (Locked.enter connecting_world
         (Transport "vehicle-7" (ConnectionStateChange Connected))).
Proof.
  exact (proj1 (held_mutex_stops_calls
                  (Locked.enter connecting_world
                     (Transport "vehicle-7" (ConnectionStateChange Connected)))
                  (CallSend "vehicle-7" "control" telemetry_frame) eq_refl)
               eq_refl).
Defined.

Lemma serialized_negotiation_blocks_witness :
  Locked.call (SignalingText 0 offer_text) started_world
  = Locked.Blocks
      (Locked.mkWorld
         (fst (getOrCreatePeerConnection (Locked.members started_world)
                                         "vehicle-7"))
         true (Locked.released started_world)).
Proof.
  exact (proj1 (serialized_negotiation_blocks 0 started_world
                  (mkSignalMessage OFFER "vehicle-7" "cockpit-1" (Some "v=0")
                                   None None None None)
                  eq_refl eq_refl eq_refl eq_refl)).
Defined.

Lemma application_is_never_told_witness :
  (exists msg,
     SignalSent
       (mkSignalMessage OFFER client_dummy_id "vehicle-7" (Some "v=0")
                        None None None None)
     = SignalSent msg
     /\ from msg = client_dummy_id /\ is_negotiation (type msg) = true)
  /\ Locked.call (Transport "vehicle-7"
                    (DataChannelMessageArrived "control" telemetry_frame))
                 established_world
     = Locked.Blocks (Locked.set_mutex established_world true).
Proof.
  pose proof (@application_is_never_told
                SimTransport.t SimTransport.transport established_factory
                (connected_run
                 ++ [Transport "vehicle-7" (LocalSdpGenerated "offer" "v=0")])
                (SignalSent
                   (mkSignalMessage OFFER client_dummy_id "vehicle-7"
                                    (Some "v=0") None None None None))
                established_world "vehicle-7" "control" telemetry_frame)
    as [Hlog Hdata].
  split.
  - apply Hlog. vm_compute. left. reflexivity.
  - exact (proj1 (proj2 (Hdata eq_refl)) eq_refl (or_introl eq_refl)).
Defined.

(** ** Ticks that select nobody *)

Section QuietTick.
Context {PC : Type} `{DataChannelContract PC} `{PeerConnectionFactory PC}.
Implicit Types (w : Locked.World PC) (m : WebrtcManagerImpl PC) (p q : string).

Lemma send_pings_slot m p :
  StdMap.find p (peerConnections_ (Locked.send_pings m))
  = option_map
      (option_map
         (fun pc =>
            if PeerConnectionState_eqb (GetConnectionState pc) Connected
            then fst (SendData pc "heartbeat" ping_data) else pc))
      (StdMap.find p (peerConnections_ m)).
Proof.
  unfold Locked.send_pings. cbn [peerConnections_ with_peerConnections].
  rewrite <- find_map. f_equal. apply map_ext.
  intros [k [pc|]]; cbn; [|reflexivity].
  now destruct (PeerConnectionState_eqb _ _).
Qed.

(** A tick on which the loss check selects nobody (as on every tick of a
    run), or with the heartbeat disabled, returns and leaves the mutex
    free; it closes no connection, tells the application nothing and
    keeps the receipt times.  Every connection in the index whose state
    reads Connected is handed one ping for the heartbeat channel, which
    is queued when that channel is open and lost when it is not; no
    other channel and no other connection is touched. *)
Theorem quiet_tick_pings now w p :
  Locked.mutex_ w = false ->
  (heartbeat_interval_ms (config_ (Locked.members w)) <= 0)%Z
  \/ Locked.peers_to_disconnect now (Locked.members w) = [] ->
  let m := Locked.members w in
  let w' := Locked.enter w (HeartbeatTimer now) in
  Locked.call (HeartbeatTimer now) w = Locked.Returns tt w'
  /\ Locked.mutex_ w' = false
  /\ Locked.released w' = Locked.released w
  /\ lastHeartbeatRxTime_ (Locked.members w') = lastHeartbeatRxTime_ m
  /\ log_ (Locked.members w') = log_ m
  /\ (StdMap.find p (peerConnections_ m) = None ->
      StdMap.find p (peerConnections_ (Locked.members w')) = None)
  /\ (forall pc,
        StdMap.find p (peerConnections_ m) = Some (Some pc) ->
        GetConnectionState pc <> Connected ->
        StdMap.find p (peerConnections_ (Locked.members w'))
        = Some (Some pc))
  /\ (forall pc,
        StdMap.find p (peerConnections_ m) = Some (Some pc) ->
        GetConnectionState pc = Connected ->
        exists pc',
          StdMap.find p (peerConnections_ (Locked.members w'))
          = Some (Some pc')
          /\ queued pc' "heartbeat"
             = (queued pc "heartbeat"
                ++ if IsDataChannelOpen pc "heartbeat" then [ping_data]
                   else [])%list
          /\ forall label,
               label <> "heartbeat" -> queued pc' label = queued pc label).
Proof.
  destruct w as [m mu rel]. cbn [Locked.mutex_ Locked.members Locked.released].
  intros -> Hq. cbv zeta. unfold Locked.enter, Locked.call.
  rewrite (tick_quiet now m rel Hq).
  cbn [Locked.after Locked.members Locked.released Locked.mutex_].
  repeat split.
  - intros Hf. now rewrite send_pings_slot, Hf.
  - intros pc Hf Hs. rewrite send_pings_slot, Hf. cbn.
    destruct (PeerConnectionState_eqb (GetConnectionState pc) Connected)
      eqn:E; [|reflexivity].
    apply state_eqb_connected in E. contradiction.
  - intros pc Hf Hs. rewrite send_pings_slot, Hf. cbn. rewrite Hs. cbn.
    eexists. split; [reflexivity|]. split.
    + destruct (IsDataChannelOpen pc "heartbeat") eqn:Eo.
      * now apply SendData_queued_open.
      * rewrite app_nil_r. now apply SendData_queued_not_open.
    + intros label Hl. now apply SendData_queued_other.
Qed.

End QuietTick.

Lemma quiet_tick_witness :
  exists pc',
    StdMap.find "vehicle-7"
      (peerConnections_
         (Locked.members
            (Locked.enter established_world (HeartbeatTimer one_hour))))
    = Some (Some pc')
    /\ queued pc' "heartbeat" = [ping_data]
    /\ forall label, label <> "heartbeat" -> queued pc' label = [].
Proof.
  pose proof (@quiet_tick_pings SimTransport.t SimTransport.transport
                sim_contract established_factory one_hour established_world
                "vehicle-7" eq_refl (or_intror eq_refl))
    as (_ & _ & _ & _ & _ & _ & _ & Hping).
  destruct (Hping _ eq_refl eq_refl) as (pc' & Hf & Hq & Ho).
  exists pc'. split; [exact Hf|]. split; [exact Hq|].
  intros label Hl. rewrite (Ho label Hl). unfold queued. cbn.
  unfold SimTransport.sent_on. reflexivity.
Defined.

(** ** Ticks and single sends *)

Section TickAndSend.
Context {PC : Type} `{DataChannelContract PC}.
Implicit Types (m : WebrtcManagerImpl PC) (p q : string).

(** A single send reaches one peer: it succeeds exactly when the manager
    is running and the peer's connection has the channel open, it tells
    the application nothing, it leaves every other peer's connection as
    it was, and on the peer's connection it queues the message on that
    channel when it is open and nothing on any other channel. *)
Theorem send_reaches_one_peer m p label data :
  let r := sendDataChannelMessage m p label data in
  (snd r = true <->
   state_ m = Running
   /\ exists pc, StdMap.find p (peerConnections_ m) = Some (Some pc)
                 /\ IsDataChannelOpen pc label = true)
  /\ log_ (fst r) = log_ m
  /\ (forall q, q <> p ->
        StdMap.find q (peerConnections_ (fst r))
        = StdMap.find q (peerConnections_ m))
  /\ (forall pc,
        state_ m = Running ->
        StdMap.find p (peerConnections_ m) = Some (Some pc) ->
        exists pc',
          StdMap.find p (peerConnections_ (fst r)) = Some (Some pc')
          /\ queued pc' label
             = (queued pc label
                ++ if IsDataChannelOpen pc label then [data] else [])%list
          /\ forall label', label' <> label ->
                            queued pc' label' = queued pc label').
Proof.
  unfold sendDataChannelMessage.
  destruct (state_ m) eqn:Es; cbn [AppState_eqb negb fst snd];
    try (repeat split; try discriminate; auto;
         intros (E & _); discriminate E).
  destruct (StdMap.find p (peerConnections_ m)) as [[pc|]|] eqn:Ep;
    cbn [fst snd];
    try (repeat split; try discriminate; auto;
         intros (_ & pc0 & E & _); discriminate E).
  pose proof (SendData_result pc label data) as Hres.
  destruct (SendData pc label data) as [pc1 sent] eqn:Esend.
  cbn [fst snd] in *. subst sent. repeat split.
  - exists pc. auto.
  - intros (_ & pc0 & [= <-] & Ho). exact Ho.
  - intros q N. cbn. apply find_insert_neq. congruence.
  - intros pc0 _ [= <-]. exists pc1. cbn. rewrite find_insert_eq.
    split; [reflexivity|].
    replace pc1 with (fst (SendData pc label data)) by now rewrite Esend.
    split.
    + destruct (IsDataChannelOpen pc label) eqn:Eo.
      * now apply SendData_queued_open.
      * rewrite app_nil_r. now apply SendData_queued_not_open.
    + intros label' N. now apply SendData_queued_other.
Qed.

End TickAndSend.

(* ================================================================== *)
(** * Further properties of the relay *)

Lemma NoDup_keys_delete {K V : Type} (eqb : K -> K -> bool)
      (eqb_spec : forall a b, reflect (a = b) (eqb a b))
      (k : K) (m : list (K * V)) :
  NoDup (List.map fst m) -> NoDup (List.map fst (map_delete eqb k m)).
Proof.
  induction m as [|[k0 v0] m IH]; cbn; intros Hnd; [constructor|].
  inversion_clear Hnd as [|? ? Hnotin Hnd'].
  destruct (eqb k k0); cbn; [now apply IH|].
  constructor; [|now apply IH].
  intros Hin. apply Hnotin.
  apply in_map_iff in Hin as ([k1 v1] & E & Hin). cbn in E. subst k1.
  apply (In_delete _ eqb_spec) in Hin as [Hin _].
  now apply (in_map fst _ (k0, v1)).
Qed.

Lemma keys_set_present {K V : Type} (eqb : K -> K -> bool)
      (eqb_spec : forall a b, reflect (a = b) (eqb a b))
      (k : K) (v v0 : V) (m : list (K * V)) :
  map_get eqb k m = Some v0 ->
  List.map fst (map_set eqb k v m) = List.map fst m.
Proof.
  unfold map_get. induction m as [|[k1 v1] m IH]; cbn; [discriminate|].
  destruct (eqb_spec k k1) as [<-|N]; cbn; [reflexivity|].
  intros Hg. now rewrite IH.
Qed.

(** One handled message puts at most one message on the sockets, of one
    of the six types. *)
Lemma route_wire (st : State) (ws : WebSocket) (message : JsObject) :
  exists added,
    wire (routeMessage st ws message) = (wire st ++ added)%list
    /\ List.length added <= 1
    /\ Forall relay_output added.
Proof.
  assert (Hnone : exists added,
             wire st = (wire st ++ added)%list
             /\ List.length added <= 1 /\ Forall relay_output added).
  { exists []. rewrite app_nil_r. cbn. auto. }
  assert (Hone : forall to msg,
             relay_output_type (prop msg "type") = true ->
             exists added,
               (wire st ++ if is_OPEN (readyState st to)
                           then [(to, msg)] else [])%list
               = (wire st ++ added)%list
               /\ List.length added <= 1 /\ Forall relay_output added).
  { intros to msg Ht. eexists. split; [reflexivity|].
    destruct (is_OPEN _); cbn; (split; [lia|]);
      [constructor; [exact Ht | constructor] | constructor]. }
  unfold routeMessage.
  destruct (map_get Nat.eqb ws (connectedClients st)) as [info|];
    [|exact Hnone].
  destruct (negb _); [exact Hnone|].
  destruct (strict_eq_string (prop message "type") "join").
  { destruct (negb _); [exact Hnone|].
    destruct (live_target _ _);
      rewrite !sendMessage_eq; cbn; now apply Hone. }
  destruct (strict_eq_string (prop message "type") "leave").
  { destruct (truthy _); [|exact Hnone].
    destruct (live_target _ _); [|exact Hnone].
    rewrite !sendMessage_eq; cbn. now apply Hone. }
  destruct (_ || _) eqn:Hk.
  { destruct (negb _); [exact Hnone|].
    destruct (live_target _ _); rewrite !sendMessage_eq; cbn;
      apply Hone; [|reflexivity].
    unfold relay_output_type.
    destruct (strict_eq_string (prop message "type") "offer"),
             (strict_eq_string (prop message "type") "answer"),
             (strict_eq_string (prop message "type") "candidate");
      try discriminate Hk; now rewrite ?orb_true_r. }
  rewrite !sendMessage_eq; cbn. now apply Hone.
Qed.

(** Whatever links open and close and whatever they send, all the
    session manager ever puts on a socket is a join request, a leave, an
    error, or a forwarded offer, answer or candidate: a join or a
    heartbeat is never passed on. *)
Theorem relay_sends_six_types (st : State) :
  reachable st -> Forall relay_output (wire st).
Proof.
  induction 1 as [rs|st ws clientId _ IH|st ws _ IH|st ws message _ IH
                 |st rs _ IH].
  - constructor.
  - unfold addClient. now destruct (map_has _ _ _).
  - unfold removeClient.
    destruct (map_get Nat.eqb ws (connectedClients st)) as [info|];
      [|exact IH].
    cbn [sessions]. destruct (first_key_of ws (sessions st)); [|exact IH].
    unfold notify_partners. rewrite notify_fold. cbn.
    apply Forall_app. split; [exact IH|].
    unfold partner_notices. apply Forall_forall.
    intros out Hin. apply in_map_iff in Hin as (e & <- & _). reflexivity.
  - destruct (route_wire st ws message) as (added & -> & _ & Hadd).
    apply Forall_app. now split.
  - exact IH.
Qed.

Lemma relay_sends_six_types_witness : Forall relay_output (wire joined_relay).
Proof.
  apply relay_sends_six_types. unfold joined_relay, paired_relay.
  repeat constructor.
Defined.

(** A handled message leaves the directory and the sockets alone. *)
Lemma route_keeps_directory (st : State) (ws : WebSocket)
      (message : JsObject) :
  sessions (routeMessage st ws message) = sessions st
  /\ readyState (routeMessage st ws message) = readyState st.
Proof.
  unfold routeMessage.
  destruct (map_get Nat.eqb ws (connectedClients st)) as [info|];
    [|auto].
  destruct (negb _); [auto|].
  destruct (strict_eq_string (prop message "type") "join").
  { destruct (negb _); [auto|].
    destruct (live_target _ _); rewrite !sendMessage_eq; cbn; auto. }
  destruct (strict_eq_string (prop message "type") "leave").
  { destruct (truthy _); [|cbn; auto].
    destruct (live_target _ _); rewrite ?sendMessage_eq; cbn; auto. }
  destruct (_ || _).
  { destruct (negb _); [auto|].
    destruct (live_target _ _); rewrite !sendMessage_eq; cbn; auto. }
  rewrite !sendMessage_eq; cbn. auto.
Qed.

Lemma route_keeps_keys (st : State) (ws : WebSocket) (message : JsObject) :
  NoDup (List.map fst (connectedClients st)) ->
  NoDup (List.map fst (connectedClients (routeMessage st ws message))).
Proof.
  intros Hnd.
  assert (Hset : forall v (cc : list (WebSocket * ClientInfo)),
             NoDup (List.map fst cc) ->
             NoDup (List.map fst (map_set Nat.eqb ws v cc)))
    by (intros; now apply (NoDup_keys_set _ Nat.eqb_spec)).
  unfold routeMessage.
  destruct (map_get Nat.eqb ws (connectedClients st)) as [info|];
    [|exact Hnd].
  destruct (negb _); [exact Hnd|].
  destruct (strict_eq_string (prop message "type") "join").
  { destruct (negb _); [exact Hnd|].
    destruct (live_target _ _); rewrite !sendMessage_eq; cbn; auto. }
  destruct (strict_eq_string (prop message "type") "leave").
  { destruct (truthy _); [|cbn; auto].
    destruct (live_target _ _); rewrite ?sendMessage_eq; cbn; auto. }
  destruct (_ || _).
  { destruct (negb _); [exact Hnd|].
    destruct (live_target _ _); rewrite !sendMessage_eq; cbn; auto. }
  rewrite !sendMessage_eq; cbn. auto.
Qed.

Lemma reachable_one_binding_per_key (st : State) :
  reachable st ->
  NoDup (List.map fst (sessions st))
  /\ NoDup (List.map fst (connectedClients st)).
Proof.
  induction 1 as [rs|st ws clientId _ IH|st ws _ IH|st ws message _ IH
                 |st rs _ IH].
  - cbn. split; constructor.
  - unfold addClient. destruct (map_has _ _ _); [exact IH|]. cbn.
    split; [apply (NoDup_keys_set _ String.eqb_spec)
           |apply (NoDup_keys_set _ Nat.eqb_spec)]; apply IH.
  - unfold removeClient.
    destruct (map_get Nat.eqb ws (connectedClients st)) as [info|];
      [|exact IH].
    cbn [sessions].
    destruct (first_key_of ws (sessions st)).
    + unfold notify_partners. rewrite notify_fold. cbn.
      split; [apply (NoDup_keys_delete _ String.eqb_spec)
             |apply (NoDup_keys_delete _ Nat.eqb_spec)]; apply IH.
    + cbn. split; [|apply (NoDup_keys_delete _ Nat.eqb_spec)]; apply IH.
  - destruct (route_keeps_directory st ws message) as [-> _].
    split; [apply IH | apply route_keeps_keys, IH].
  - exact IH.
Qed.

(** In every state the relay can reach, each map holds one binding per
    key, every identity of the directory leads to a connected link that
    carries it, and so the test that a link found in the directory is
    still connected never fails. *)
Theorem reachable_directory_sound (st : State) :
  reachable st ->
  NoDup (List.map fst (sessions st))
  /\ NoDup (List.map fst (connectedClients st))
  /\ (forall k ws,
        map_get String.eqb k (sessions st) = Some ws ->
        exists info,
          map_get Nat.eqb ws (connectedClients st) = Some info
          /\ id info = k)
  /\ (forall key ws,
        sessions_get key st = Some ws -> live_target st key = Some ws).
Proof.
  intros Hr.
  assert (Hok : directory_ok st) by now apply reachable_directory_ok.
  destruct (reachable_one_binding_per_key st Hr) as [Hs Hc].
  repeat split; auto.
  - intros k ws Hg. apply Hok. now apply (get_In _ String.eqb_spec).
  - intros key ws Hg. unfold live_target. rewrite Hg.
    destruct key; try discriminate Hg. cbn in Hg.
    destruct (Hok _ _ (get_In _ String.eqb_spec _ _ _ Hg))
      as (info & Hinfo & _).
    unfold map_has. now rewrite Hinfo.
Qed.

Lemma reachable_directory_witness :
  live_target joined_relay (JString "vehicle-7") = Some 1.
Proof.
  apply reachable_directory_sound; [|reflexivity].
  unfold joined_relay, paired_relay. repeat constructor.
Defined.

(** ** What one message may change *)

Section JsMapRoundTrips.
Context {K V : Type} (eqb : K -> K -> bool).
Hypothesis eqb_spec : forall a b, reflect (a = b) (eqb a b).
Implicit Types (m : list (K * V)) (k : K) (v : V).

Lemma set_set k v v' m :
  map_set eqb k v' (map_set eqb k v m) = map_set eqb k v' m.
Proof.
  induction m as [|[k0 v0] m IH]; cbn.
  - now destruct (eqb_spec k k).
  - destruct (eqb_spec k k0) as [<-|N]; cbn.
    + now destruct (eqb_spec k k).
    + destruct (eqb_spec k k0); [contradiction | now rewrite IH].
Qed.

Lemma set_same k v m : map_get eqb k m = Some v -> map_set eqb k v m = m.
Proof.
  unfold map_get. induction m as [|[k0 v0] m IH]; cbn; [discriminate|].
  destruct (eqb_spec k k0) as [<-|N].
  - now intros [= ->].
  - intros Hg. now rewrite IH.
Qed.

Lemma delete_absent k m : map_get eqb k m = None -> map_delete eqb k m = m.
Proof.
  unfold map_get. induction m as [|[k0 v0] m IH]; cbn; [reflexivity|].
  destruct (eqb_spec k k0) as [<-|N]; [discriminate|].
  intros Hg. now rewrite IH.
Qed.

Lemma delete_set k v m :
  map_delete eqb k (map_set eqb k v m) = map_delete eqb k m.
Proof.
  induction m as [|[k0 v0] m IH]; cbn.
  - now destruct (eqb_spec k k).
  - destruct (eqb_spec k k0) as [<-|N]; cbn.
    + now destruct (eqb_spec k k).
    + destruct (eqb_spec k k0); [contradiction | now rewrite IH].
Qed.

Lemma In_set_other k v m k' v' :
  NoDup (List.map fst m) ->
  In (k', v') (map_set eqb k v m) ->
  (k', v') = (k, v) \/ (In (k', v') m /\ k' <> k).
Proof.
  induction m as [|[k0 v0] m IH]; cbn; intros Hnd.
  - intros [E|[]]. left. now symmetry.
  - inversion_clear Hnd as [|? ? Hnotin Hnd'].
    destruct (eqb_spec k k0) as [<-|N]; cbn.
    + intros [E|Hin]; [left; now symmetry|].
      right. split; [now right|]. intros ->.
      apply Hnotin. now apply (in_map fst _ (k, v')).
    + intros [[= <- <-]|Hin]; [right; split; [now left | congruence]|].
      destruct (IH Hnd' Hin) as [E|[Hin' Hne]]; [now left|].
      right. split; [now right | exact Hne].
Qed.

End JsMapRoundTrips.

Lemma first_key_of_none (ws : WebSocket) (m : list (string * WebSocket)) :
  (forall k, ~ In (k, ws) m) -> first_key_of ws m = None.
Proof.
  induction m as [|[k0 w0] m IH]; cbn; [reflexivity|]. intros Hn.
  destruct (Nat.eqb_spec w0 ws) as [->|N].
  - elim (Hn k0). now left.
  - apply IH. intros k Hin. apply (Hn k). now right.
Qed.

Lemma first_key_of_set (ws : WebSocket) (A : string)
      (m : list (string * WebSocket)) :
  (forall k, ~ In (k, ws) m) ->
  first_key_of ws (map_set String.eqb A ws m) = Some A.
Proof.
  induction m as [|[k0 w0] m IH]; cbn; intros Hn.
  - now rewrite Nat.eqb_refl.
  - destruct (String.eqb A k0); cbn.
    + now rewrite Nat.eqb_refl.
    + destruct (Nat.eqb_spec w0 ws) as [->|N].
      * elim (Hn k0). now left.
      * apply IH. intros k Hin. apply (Hn k). now right.
Qed.

Lemma live_target_set (st : State) (ws : WebSocket) (info : ClientInfo)
      (v key : JsValue) :
  map_get Nat.eqb ws (connectedClients st) <> None ->
  live_target (set_targetId st ws info v) key = live_target st key.
Proof.
  intros Hc. unfold live_target, sessions_get, map_has.
  cbn [sessions connectedClients set_targetId].
  destruct key; try reflexivity.
  destruct (map_get String.eqb s (sessions st)) as [w|]; [|reflexivity].
  destruct (Nat.eq_dec ws w) as [<-|N].
  - rewrite (get_set_eq _ Nat.eqb_spec).
    now destruct (map_get Nat.eqb ws (connectedClients st)).
  - now rewrite (get_set_neq _ Nat.eqb_spec).
Qed.

Lemma frame_refl (ws : WebSocket) (st : State) : route_frame ws st st.
Proof.
  repeat split; auto. intros [i t] Hi. now exists t.
Qed.

Lemma frame_send (ws : WebSocket) (st st' : State) to msg :
  route_frame ws st st' -> route_frame ws st (sendMessage st' to msg).
Proof. rewrite sendMessage_eq. intros Hf. exact Hf. Qed.

Lemma frame_target (ws : WebSocket) (st st' : State) info v :
  map_get Nat.eqb ws (connectedClients st) = Some info ->
  route_frame ws st st' -> route_frame ws st (set_targetId st' ws info v).
Proof.
  intros Hc (Hs & Hr & Hk & Ho & Hi).
  destruct (Hi info Hc) as [v0 Hv0].
  repeat split; cbn; auto.
  - now rewrite (keys_set_present _ Nat.eqb_spec _ _ _ _ Hv0).
  - intros ws' N. rewrite (get_set_neq _ Nat.eqb_spec) by congruence.
    now apply Ho.
  - intros info0 Hc0. exists v. rewrite (get_set_eq _ Nat.eqb_spec).
    congruence.
Qed.

(** Handling a message changes nothing but, at most, the target of the
    link it came on: the directory, the sockets, the set of connected
    links, the record of every other link and the identity of the
    sending link stay as they were. *)
Theorem route_changes_only_sender_target (st : State) (ws : WebSocket)
        (message : JsObject) :
  route_frame ws st (routeMessage st ws message).
Proof.
  pose proof (frame_refl ws st) as Hrefl.
  unfold routeMessage.
  destruct (map_get Nat.eqb ws (connectedClients st)) as [info|] eqn:Hc;
    [|exact Hrefl].
  destruct (negb _); [exact Hrefl|].
  destruct (strict_eq_string (prop message "type") "join").
  { destruct (negb _); [exact Hrefl|].
    destruct (live_target _ _).
    - now apply frame_send, frame_target.
    - now apply frame_target, frame_send, frame_target. }
  destruct (strict_eq_string (prop message "type") "leave").
  { apply frame_target; [exact Hc|].
    destruct (truthy _); [|exact Hrefl].
    destruct (live_target _ _); [|exact Hrefl].
    now apply frame_send. }
  destruct (_ || _).
  { destruct (negb _); [exact Hrefl|].
    destruct (live_target _ _); now apply frame_send. }
  now apply frame_send.
Qed.

(** ** The relay with its log lines *)

Lemma template_throws_or_default (v : JsValue) (s : string) :
  Console.template_throws (if truthy v then v else JString s)
  = Console.template_throws v.
Proof. now destruct v as [| |[|]|n|[|c s']|o]; cbn; try destruct (negb _). Qed.

(** A call that returns has done what [Relay.routeMessage] says. *)
Lemma console_route_normal (st st' : State) (ws : WebSocket)
      (message : JsObject) :
  Console.routeMessage st ws message = Console.Normal st' ->
  st' = routeMessage st ws message.
Proof.
  unfold Console.routeMessage, routeMessage.
  destruct (map_get Nat.eqb ws (connectedClients st)) as [info|];
    [|now intros [= <-]].
  destruct (negb _).
  { destruct (Console.template_throws _); [discriminate | now intros [= <-]]. }
  cbv zeta. destruct (_ || _); [discriminate|].
  destruct (strict_eq_string (prop message "type") "join").
  { destruct (negb _); [now intros [= <-]|].
    destruct (Console.template_throws _); [discriminate|].
    destruct (live_target _ _); now intros [= <-]. }
  destruct (strict_eq_string (prop message "type") "leave").
  { destruct (truthy _); [|now intros [= <-]].
    destruct (live_target _ _); [now intros [= <-]|].
    destruct (Console.template_throws _); [discriminate | now intros [= <-]]. }
  destruct (_ || _).
  { destruct (negb _); [now intros [= <-]|].
    destruct (live_target _ _); now intros [= <-]. }
  now intros [= <-].
Qed.

(** A join followed by a leave, neither with a receiver member that
    makes the routing log line throw: both calls return, the target's
    link gets a join request and then a leave, both under the sender's
    identity, the leave with the sender's reason or the default one; the
    sender's target is set in between and cleared at the end, and a
    sender that had no target before leaves the relay's maps as they
    were. *)
Theorem join_then_leave (st : State) (ws wsV : WebSocket)
        (info : ClientInfo) (join leave : JsObject) (d : JsObject)
        (V : string) :
  map_get Nat.eqb ws (connectedClients st) = Some info ->
  prop join "from" = JString (id info) ->
  prop join "type" = JString "join" ->
  prop join "data" = JObject d ->
  prop d "targetVehicleId" = JString V ->
  V <> EmptyString ->
  live_target st (JString V) = Some wsV ->
  prop leave "from" = JString (id info) ->
  prop leave "type" = JString "leave" ->
  Console.template_throws (prop join "to") = false ->
  Console.template_throws (prop leave "to") = false ->
  let st1 := routeMessage st ws join in
  let st2 := routeMessage st1 ws leave in
  Console.routeMessage st ws join = Console.Normal st1
  /\ Console.routeMessage st1 ws leave = Console.Normal st2
  /\ map_get Nat.eqb ws (connectedClients st1)
  = Some (mkClientInfo (id info) (JString V))
  /\ wire st1
     = (wire st
        ++ if is_OPEN (readyState st wsV)
           then [(wsV,
                  [ ("type", JString "join_request");
                    ("from", JString (id info)); ("to", JString V);
                    ("data", JObject [("clientId", JString (id info))]) ])]
           else [])%list
  /\ wire st2
     = (wire st1
        ++ if is_OPEN (readyState st wsV)
           then [(wsV,
                  [ ("type", JString "leave");
                    ("from", JString (id info)); ("to", JString V);
                    ("reason",
                     if truthy (prop leave "reason")
                     then prop leave "reason"
                     else JString "Peer left session") ])]
           else [])%list
  /\ connectedClients st2
     = map_set Nat.eqb ws (mkClientInfo (id info) JNull) (connectedClients st)
  /\ sessions st2 = sessions st
  /\ (targetId info = JNull -> connectedClients st2 = connectedClients st).
Proof.
  intros Hc Hjf Hjt Hjd Hdv HV Hlive Hlf Hlt Hjto Hlto.
  assert (Hpresent : map_get Nat.eqb ws (connectedClients st) <> None)
    by congruence.
  assert (Htruthy : truthy (JString V) = true)
    by (destruct V; [contradiction | reflexivity]).
  set (S1 := set_targetId st ws info (JString V)).
  assert (E1 : routeMessage st ws join
               = sendMessage S1 wsV
                   [ ("type", JString "join_request");
                     ("from", JString (id info)); ("to", JString V);
                     ("data", JObject [("clientId", JString (id info))]) ]).
  { unfold routeMessage. rewrite Hc, Hjf, Hjt, Hjd.
    cbn [truthy strict_eq_string prop_of_value].
    rewrite String.eqb_refl, Hdv, Htruthy. cbn [negb].
    fold S1. unfold S1 at 1. now rewrite live_target_set, Hlive. }
  assert (C1 : Console.routeMessage st ws join
               = Console.Normal (routeMessage st ws join)).
  { rewrite E1. unfold Console.routeMessage. rewrite Hc, Hjf, Hjt, Hjd.
    cbv zeta. rewrite template_throws_or_default, Hjto.
    cbn [truthy strict_eq_string prop_of_value Console.template_throws orb].
    rewrite String.eqb_refl, Hdv, Htruthy. cbn [negb].
    unfold S1. rewrite live_target_set by exact Hpresent.
    now rewrite Hlive. }
  cbv zeta. rewrite C1, E1.
  set (st1 := sendMessage S1 wsV _).
  assert (Hst1 : connectedClients st1 = connectedClients S1
                 /\ sessions st1 = sessions st
                 /\ readyState st1 = readyState st
                 /\ wire st1
                    = (wire st
                       ++ if is_OPEN (readyState st wsV)
                          then [(wsV,
                                 [ ("type", JString "join_request");
                                   ("from", JString (id info));
                                   ("to", JString V);
                                   ("data",
                                    JObject
                                      [("clientId", JString (id info))]) ])]
                          else [])%list).
  { unfold st1. rewrite sendMessage_eq. cbn. auto. }
  destruct Hst1 as (Hcc1 & Hs1 & Hr1 & Hw1).
  assert (Hc1 : map_get Nat.eqb ws (connectedClients st1)
                = Some (mkClientInfo (id info) (JString V))).
  { rewrite Hcc1. cbn. apply (get_set_eq _ Nat.eqb_spec). }
  assert (Hlive1 : live_target st1 (JString V) = Some wsV).
  { rewrite <- Hlive, <- (live_target_set st ws info (JString V)
                            (JString V) Hpresent).
    fold S1. unfold live_target, sessions_get, map_has.
    now rewrite Hcc1, Hs1. }
  assert (E2 : routeMessage st1 ws leave
               = set_targetId
                   (sendMessage st1 wsV
                      [ ("type", JString "leave");
                        ("from", JString (id info)); ("to", JString V);
                        ("reason",
                         if truthy (prop leave "reason")
                         then prop leave "reason"
                         else JString "Peer left session") ])
                   ws (mkClientInfo (id info) (JString V)) JNull).
  { unfold routeMessage. rewrite Hc1. cbn [id targetId].
    rewrite Hlf, Hlt. cbn [strict_eq_string].
    rewrite String.eqb_refl. cbn [negb].
    change (String.eqb "leave" "join") with false.
    change (String.eqb "leave" "leave") with true.
    cbv iota. now rewrite Htruthy, Hlive1. }
  assert (C2 : Console.routeMessage st1 ws leave
               = Console.Normal (routeMessage st1 ws leave)).
  { rewrite E2. unfold Console.routeMessage. rewrite Hc1. cbn [id targetId].
    rewrite Hlf, Hlt. cbv zeta.
    rewrite template_throws_or_default, Hlto.
    cbn [strict_eq_string Console.template_throws orb].
    rewrite String.eqb_refl. cbn [negb].
    change (String.eqb "leave" "join") with false.
    change (String.eqb "leave" "leave") with true.
    cbv iota. now rewrite Htruthy, Hlive1. }
  rewrite C2, E2, sendMessage_eq.
  cbn [connectedClients sessions readyState wire set_targetId id].
  rewrite Hr1, Hcc1, Hs1. cbn [connectedClients S1 set_targetId].
  rewrite (set_set _ Nat.eqb_spec).
  repeat split; auto.
  - apply (get_set_eq _ Nat.eqb_spec).
  - intros Hnull. apply (set_same _ Nat.eqb_spec).
    rewrite Hc. destruct info as [i t]. cbn in *. now subst t.
Qed.

Lemma join_then_leave_witness :
  Console.routeMessage paired_relay 2 join_message
  = Console.Normal joined_relay
  /\ Console.routeMessage joined_relay 2 leave_message
     = Console.Normal (routeMessage joined_relay 2 leave_message)
  /\ connectedClients (routeMessage joined_relay 2 leave_message)
     = connectedClients paired_relay.
Proof.
  pose proof (join_then_leave paired_relay 2 1
                (mkClientInfo "cockpit-1" JNull) join_message leave_message
                [("targetVehicleId", JString "vehicle-7")] "vehicle-7"
                eq_refl eq_refl eq_refl eq_refl eq_refl
                ltac:(discriminate)
                eq_refl eq_refl eq_refl eq_refl eq_refl) as L.
  cbv zeta in L.
  destruct L as (Hjoin & Hleave & _ & _ & _ & _ & _ & Hback).
  split; [exact Hjoin|]. split; [exact Hleave | exact (Hback eq_refl)].
Defined.

(** The same join with a receiver member that is an object with a
    property [toString]: the routing log line throws, nothing is sent
    and no target is set, where the function without its log lines
    sends the join request. *)
Example object_receiver_throws :
  Console.routeMessage paired_relay 2 join_with_object_receiver
  = Console.Throws paired_relay
  /\ wire (routeMessage paired_relay 2 join_with_object_receiver)
     = [(1, [ ("type", JString "join_request");
              ("from", JString "cockpit-1"); ("to", JString "vehicle-7");
              ("data", JObject [("clientId", JString "cockpit-1")]) ])].
Proof. split; reflexivity. Qed.

(** ** Links that open and close *)

(** A link that opens under the identity A and closes again leaves the
    connected links as they were and takes A out of the directory,
    whether or not another link held A before: a directory without A is
    restored, a link that held A stays connected but can no longer be
    reached; every client whose target is A gets a leave notice. *)
Theorem link_opens_and_closes (st : State) (ws : WebSocket) (A : string) :
  directory_ok st ->
  map_get Nat.eqb ws (connectedClients st) = None ->
  let st' := removeClient (addClient st ws A) ws in
  connectedClients st' = connectedClients st
  /\ sessions st' = map_delete String.eqb A (sessions st)
  /\ live_target st' (JString A) = None
  /\ (map_get String.eqb A (sessions st) = None ->
      sessions st' = sessions st)
  /\ wire st'
     = (wire st
        ++ partner_notices (readyState st) A (connectedClients st))%list.
Proof.
  intros Hok Hc.
  assert (Hno : forall k, ~ In (k, ws) (sessions st)).
  { intros k Hin. destruct (Hok _ _ Hin) as (info & Hinfo & _).
    congruence. }
  cbv zeta. unfold addClient, map_has. rewrite Hc.
  unfold removeClient.
  cbn [connectedClients sessions readyState wire].
  rewrite (get_set_eq _ Nat.eqb_spec).
  rewrite (first_key_of_set ws A _ Hno).
  unfold notify_partners. rewrite notify_fold.
  cbn [connectedClients sessions readyState wire id].
  rewrite (delete_set _ Nat.eqb_spec), (delete_set _ String.eqb_spec).
  rewrite (delete_absent _ Nat.eqb_spec _ _ Hc).
  repeat split.
  - unfold live_target, sessions_get. cbn [sessions].
    now rewrite (get_delete_eq _ String.eqb_spec).
  - intros Hs. now apply (delete_absent _ String.eqb_spec).
Qed.

Lemma link_opens_and_closes_witness :
  sessions (removeClient (addClient paired_relay 3 "vehicle-7") 3)
  = map_delete String.eqb "vehicle-7" (sessions paired_relay).
Proof.
  pose proof (link_opens_and_closes paired_relay 3 "vehicle-7") as L.
  cbv zeta in L. apply L; [|reflexivity].
  apply reachable_directory_ok. unfold paired_relay. repeat constructor.
Defined.

(** When a second link has opened under the identity of a connected
    link, the directory names the second link; the close of the first
    one then takes it out of the connected links and does nothing else:
    the directory stays as it is and nobody is told. *)
Theorem displaced_link_closes_silently (st : State) (ws1 ws2 : WebSocket)
        (info1 : ClientInfo) :
  reachable st ->
  map_get Nat.eqb ws1 (connectedClients st) = Some info1 ->
  map_get Nat.eqb ws2 (connectedClients st) = None ->
  let st2 := addClient st ws2 (id info1) in
  let st3 := removeClient st2 ws1 in
  map_get String.eqb (id info1) (sessions st2) = Some ws2
  /\ sessions st3 = sessions st2
  /\ wire st3 = wire st
  /\ map_get Nat.eqb ws1 (connectedClients st3) = None
  /\ map_get Nat.eqb ws2 (connectedClients st3)
     = Some (mkClientInfo (id info1) JNull).
Proof.
  intros Hr Hc1 Hc2.
  assert (Hok : directory_ok st) by now apply reachable_directory_ok.
  destruct (reachable_one_binding_per_key st Hr) as [Hnd _].
  assert (N : ws2 <> ws1) by congruence.
  cbv zeta. unfold addClient, map_has. rewrite Hc2.
  unfold removeClient.
  cbn [connectedClients sessions readyState wire].
  rewrite (get_set_neq _ Nat.eqb_spec) by exact N. rewrite Hc1.
  rewrite first_key_of_none.
  - cbn [connectedClients sessions readyState wire].
    repeat split.
    + apply (get_set_eq _ String.eqb_spec).
    + apply (get_delete_eq _ Nat.eqb_spec).
    + rewrite (get_delete_neq _ Nat.eqb_spec) by congruence.
      apply (get_set_eq _ Nat.eqb_spec).
  - intros k Hin.
    apply (In_set_other _ String.eqb_spec) in Hin as [[= _ E]|[Hin Hne]];
      [congruence | | exact Hnd].
    destruct (Hok _ _ Hin) as (info & Hinfo & Hid). congruence.
Qed.

Lemma displaced_link_witness :
  wire (removeClient displaced_relay 1) = wire paired_relay
  /\ live_target (removeClient displaced_relay 1) (JString "vehicle-7")
     = Some 3.
Proof.
  pose proof (displaced_link_closes_silently paired_relay 1 3
                (mkClientInfo "vehicle-7" JNull)) as L.
  cbv zeta in L. split; [|reflexivity]. apply L; try reflexivity.
  unfold paired_relay. repeat constructor.
Defined.

(* ================================================================== *)
(** * The vehicle application *)

(** [init] succeeds exactly when the application was never initialized,
    all four components are handed in and both sensor sources
    initialize; a failed [init] leaves the application uninitialized but
    keeps the components it was given, so that it can be called
    again. *)
Theorem vehicle_init_needs_everything (app : Vehicle.VehicleClientApp)
        (wm ctl cam ch camera_ok chassis_ok : bool) :
  let r := Vehicle.init app wm ctl cam ch camera_ok chassis_ok in
  (snd r = true <->
   Vehicle.state_ app = Uninitialized
   /\ wm && ctl && cam && ch && camera_ok && chassis_ok = true)
  /\ (snd r = true -> Vehicle.state_ (fst r) = Initialized)
  /\ (Vehicle.state_ app = Uninitialized -> snd r = false ->
      Vehicle.state_ (fst r) = Uninitialized
      /\ Vehicle.webrtcManager_ (fst r) = wm
      /\ Vehicle.controller_ (fst r) = ctl
      /\ Vehicle.cameraSource_ (fst r) = cam
      /\ Vehicle.chassisSource_ (fst r) = ch)
  /\ (Vehicle.state_ app <> Uninitialized -> r = (app, false)).
Proof.
  unfold Vehicle.init, Vehicle.setupWebrtcManager, Vehicle.setupController,
    Vehicle.setupSensors.
  destruct (Vehicle.state_ app) eqn:Es;
    try (cbn; repeat split; try discriminate; try congruence;
         intros [E _]; discriminate E).
  destruct wm, ctl, cam, ch, camera_ok, chassis_ok; cbn;
    repeat split; try discriminate; try congruence; auto;
    intros [_ E]; discriminate E.
Qed.

Lemma vehicle_handle_frame (app : Vehicle.VehicleClientApp)
      (ev : Vehicle.Event) :
  Vehicle.registered ev = true ->
  Vehicle.state_ (Vehicle.handle app ev) = Vehicle.state_ app
  /\ Vehicle.controller_ (Vehicle.handle app ev) = Vehicle.controller_ app
  /\ forall c,
       In c (Vehicle.calls_ (Vehicle.handle app ev)) ->
       In c (Vehicle.calls_ app)
       \/ c = Vehicle.CameraStartCapture \/ c = Vehicle.ChassisStartUpdates.
Proof.
  intros Hr. destruct ev; try discriminate Hr; cbn; auto.
  unfold Vehicle.handlePeerConnected.
  destruct (Vehicle.cameraSource_ app); cbn;
    destruct (Vehicle.chassisSource_ app); cbn; repeat split; auto;
    intros c Hin; rewrite ?in_app_iff in Hin; cbn in Hin; intuition.
Qed.

(** No event the application registers a handler for reaches the
    controller: whatever peers connect and disconnect and whatever
    control messages arrive, the only calls made are the starts of the
    two sensor sources, and no emergency stop is commanded.  The
    handlers that do command one, for a lost network and a lost
    heartbeat, are registered nowhere. *)
Theorem registered_events_never_reach_controller
        (evs : list Vehicle.Event) :
  forall app : Vehicle.VehicleClientApp,
    forallb Vehicle.registered evs = true ->
    let app' := List.fold_left Vehicle.handle evs app in
    Vehicle.state_ app' = Vehicle.state_ app
    /\ (forall c,
          In c (Vehicle.calls_ app') ->
          In c (Vehicle.calls_ app)
          \/ c = Vehicle.CameraStartCapture
          \/ c = Vehicle.ChassisStartUpdates)
    /\ (forall p,
          Vehicle.controller_ app = true ->
          In Vehicle.ControllerProcessEmergencyCommand
             (Vehicle.calls_
                (Vehicle.handle app' (Vehicle.HeartbeatLost p)))).
Proof.
  induction evs as [|ev evs IH]; intros app Hr; cbn [List.fold_left].
  - cbv zeta. repeat split; auto.
    intros p Hc. cbn. unfold Vehicle.handleHeartbeatLost. rewrite Hc.
    cbn. apply in_or_app. right. now left.
  - cbn in Hr. apply andb_prop in Hr as [Hev Hr].
    destruct (vehicle_handle_frame app ev Hev) as (Es & Ec & Hcalls).
    destruct (IH (Vehicle.handle app ev) Hr) as (Es' & Hcalls' & Hstop).
    cbv zeta. rewrite <- Es, <- Ec. repeat split; auto.
    intros c Hin. destruct (Hcalls' c Hin) as [Hin'|Hc]; auto.
Qed.

Lemma registered_events_witness :
  Vehicle.state_ (List.fold_left Vehicle.handle Vehicle.lost_cockpit
                    Vehicle.ready)
  = Vehicle.state_ Vehicle.ready.
Proof.
  pose proof (registered_events_never_reach_controller Vehicle.lost_cockpit
                Vehicle.ready eq_refl) as L.
  cbv zeta in L. apply L.
Defined.

(** [stop] on an initialized or running application stops the chassis
    source, then the camera source, then the manager, each once if it is
    present, and ends [Stopped]; a second [stop] does nothing, and the
    application cannot be initialized again. *)
Theorem vehicle_stop_order (app : Vehicle.VehicleClientApp)
        (wm ctl cam ch camera_ok chassis_ok : bool) :
  Vehicle.state_ app = Initialized \/ Vehicle.state_ app = Running ->
  let app' := Vehicle.stop app in
  Vehicle.state_ app' = Stopped
  /\ Vehicle.calls_ app'
     = (Vehicle.calls_ app
        ++ (if Vehicle.chassisSource_ app
            then [Vehicle.ChassisStopUpdates] else [])
        ++ (if Vehicle.cameraSource_ app
            then [Vehicle.CameraStopCapture] else [])
        ++ (if Vehicle.webrtcManager_ app
            then [Vehicle.WebrtcStop] else []))%list
  /\ Vehicle.stop app' = app'
  /\ Vehicle.init app' wm ctl cam ch camera_ok chassis_ok = (app', false).
Proof.
  destruct app as [s w c cm cs calls]. cbn.
  intros [-> | ->]; destruct cs, cm, w; cbn;
    rewrite <- ?app_assoc, ?app_nil_r; repeat split.
Qed.

Lemma vehicle_stop_witness :
  Vehicle.calls_ (Vehicle.stop Vehicle.ready)
  = (Vehicle.calls_ Vehicle.ready
     ++ [Vehicle.ChassisStopUpdates; Vehicle.CameraStopCapture;
         Vehicle.WebrtcStop])%list.
Proof.
  pose proof (vehicle_stop_order Vehicle.ready true true true true true true
                (or_introl eq_refl)) as L.
  cbv zeta in L. apply L.
Defined.
